(** * Pathway Property: due-diligence core, shallow embedding

    The development follows the repository's own layering:

    - [PropertyRiskScorer]: the weighted risk scorer (Python, section 7.1 of
      the implementation notes), translated function by function;
    - [PropertyInput]: the state and the render logic of the URL form of
      [frontend/components/PropertyInput.tsx];
    - [Gatekeeper], [DocumentPipeline], [RetrievalEngine]: the three back-end
      services whose Python sources are not part of the tree at hand
      ([services/gatekeeper/kill_criteria.py], [services/documents/chunking.py]
      and the RAG query service); they are modelled from the specification;
    - [Home], the page that hosts the form, and further calculators of the
      implementation notes ([VictorianStampDutyCalculator],
      [InvestorCashFlowModel], [CoolingOffCalculator],
      [DueDiligenceComplianceTracker], [VicPlanIntegration],
      [ComparableSalesAnalyzer]), translated the same way.

    Numbers.  Python floats are modelled as exact rationals [Q]; [round] is
    Python's [round(x, ndigits)] on the exact value.  Binary representation
    error is outside the model, so the statements below are chosen not to
    depend on it: they relate the values the code reports to one another,
    or they keep a margin from every threshold, decimal tie and
    cancellation at which a double could fall on the other side.  The
    exceptions of the float operations that the code can meet
    (ZeroDivisionError, the OverflowError of a power) are modelled. *)

From Stdlib Require Import List String Ascii Bool Arith ZArith.
From Stdlib Require Import QArith Qround Qabs Qpower.
From Stdlib Require Import Lia Lqa Permutation Sorted Morphisms.
Import ListNotations.

Set Implicit Arguments.

(* ================================================================== *)
(** * Python run-time: results, dictionaries, numbers                   *)
(* ================================================================== *)

(** A Python call either returns or raises. *)
Module Py.

Inductive exn : Type :=
| ZeroDivisionError
| OverflowError
| KeyError.

Inductive result (A : Type) : Type :=
| Ok (a : A)
| Raise (e : exn).
Arguments Ok {A} a.
Arguments Raise {A} e.

Definition bind {A B} (m : result A) (k : A -> result B) : result B :=
  match m with
  | Ok a => k a
  | Raise e => Raise e
  end.

Definition returns {A} (m : result A) (P : A -> Prop) : Prop :=
  exists a, m = Ok a /\ P a.

End Py.

Notation "x <- m ;; k" := (Py.bind m (fun x => k))
  (at level 61, m at next level, right associativity).

(** A [dict] with string keys.  Python dictionaries iterate in insertion
    order and the scorer depends on that order (sums, the stable sort of the
    top factors), so the model is an association list with unique keys kept
    by [set]. *)
Module Dict.
Section Dict.
Context {V : Type}.

Definition dict := list (string * V).

Definition empty : dict := [].

(** [d.get(k)] *)
Fixpoint get (k : string) (d : dict) : option V :=
match d with
| [] => None
| (k', v) :: d' => if String.eqb k k' then Some v else get k d'
end.

(** [d[k] = v]: an existing key keeps its position. *)
Fixpoint set (k : string) (v : V) (d : dict) : dict :=
match d with
| [] => [(k, v)]
| (k', v') :: d' =>
    if String.eqb k k' then (k, v) :: d' else (k', v') :: set k v d'
end.

Definition items (d : dict) : list (string * V) := d.
Definition keys (d : dict) : list string := map fst d.
Definition values (d : dict) : list V := map snd d.

End Dict.
Arguments dict V : clear implicits.
End Dict.

Module Num.

Open Scope Q_scope.

(** [x < y] and [x > y] on floats. *)
Definition ltb (x y : Q) : bool := negb (Qle_bool y x).
Definition gtb (x y : Q) : bool := ltb y x.

(** [sum(xs)] *)
Definition sum (xs : list Q) : Q := fold_left Qplus xs 0.

(** [x / y] *)
Definition truediv (x y : Q) : Py.result Q :=
  if Qeq_bool y 0 then Py.Raise Py.ZeroDivisionError else Py.Ok (x / y).

(** Nearest integer, ties to the even one. *)
Definition round_half_even (x : Q) : Z :=
  let f := Qfloor x in
  match Qcompare (x - inject_Z f) (1 # 2) with
  | Lt => f
  | Gt => (f + 1)%Z
  | Eq => if Z.even f then f else (f + 1)%Z
  end.

(** [round(x, ndigits)], on the exact value.  Where the exact value lies
    half-way between two decimals, the result here is the even one; the
    double the code holds at that point lies a rounding error to one side
    and Python rounds it to that side.  The statements about rounded
    values are chosen so that they do not depend on how a tie falls. *)
Definition round (x : Q) (ndigits : nat) : Q :=
  let p := inject_Z (10 ^ Z.of_nat ndigits) in
  Qred (inject_Z (round_half_even (x * p)) / p).

(** [sorted(l, key=key, reverse=True)]: descending and stable, elements
    with equal keys keep their order of appearance. *)
Section Sorted.
Context {A : Type} (key : A -> Q).

Fixpoint insert_reverse (x : A) (l : list A) : list A :=
  match l with
  | [] => [x]
  | y :: l' =>
      if gtb (key y) (key x) then y :: insert_reverse x l' else x :: y :: l'
  end.

Definition sorted_reverse (l : list A) : list A :=
  fold_right insert_reverse [] l.

(** The order [sorted_reverse] establishes. *)
Definition descending (s u : A) : Prop := key u <= key s.
End Sorted.

(** [x <= y] on floats, [max(x, y)] (the first argument wins a tie) and
    [abs(x)]. *)
Definition leb (x y : Q) : bool := Qle_bool x y.
Definition max (x y : Q) : Q := if ltb x y then y else x.
Definition abs (x : Q) : Q := Qabs x.

(** [x ** n] for a float [x] and an integer [n >= 0].  The power of a
    float raises OverflowError when the result leaves the range of a
    double: from 2^1024 - 2^970 on, the value that rounds to infinity. *)
Definition FLOAT_OVERFLOW : Q := inject_Z (2 ^ 1024 - 2 ^ 970).

Definition pow (x : Q) (n : Z) : Py.result Q :=
  if Qle_bool FLOAT_OVERFLOW (Qabs (x ^ n))
  then Py.Raise Py.OverflowError
  else Py.Ok (x ^ n).

End Num.

(* ================================================================== *)
(** * [PropertyRiskScorer]                                              *)
(* ================================================================== *)

Module PropertyRiskScorer.

Import Py.
Open Scope Q_scope.
Open Scope string_scope.
Open Scope list_scope.

(** Values found in the [all_analyses] dictionary. *)
#[warnings="-register-all"]
Inductive value : Type :=
| VNone
| VStr (s : string)
| VNum (x : Q)
| VList (l : list value)
| VDict (d : list (string * value)).

Definition analyses := Dict.dict value.

(** One entry of [RISK_WEIGHTS]: keys ["weight"], ["factors"] and the
    optional ["applies_to"]. *)
Record config : Type := Config {
  weight : Q;
  factors : Dict.dict Q;
  applies_to : option (list string)
}.

Definition RISK_WEIGHTS : Dict.dict config := [
  ("legal", Config 0.25 [
      ("caveat_risk", 0.20);
      ("covenant_impact", 0.15);
      ("easement_building_conflict", 0.15);
      ("section_32_completeness", 0.20);
      ("special_conditions_risk", 0.15);
      ("proprietor_mismatch", 0.15) ] None);
  ("title_encumbrance", Config 0.15 [
      ("caveat_severity", 0.30);
      ("covenant_blocks_use", 0.30);
      ("section_173_obligations", 0.20);
      ("easement_extent", 0.20) ] None);
  ("planning", Config 0.15 [
      ("development_potential_mismatch", 0.25);
      ("overlay_restrictions", 0.25);
      ("illegal_works_detected", 0.30);
      ("heritage_impact", 0.20) ] None);
  ("physical", Config 0.15 [
      ("structural_defects", 0.35);
      ("termite_risk", 0.20);
      ("asbestos_risk", 0.15);
      ("roof_condition", 0.15);
      ("illegal_works", 0.15) ] None);
  ("strata", Config 0.10 [
      ("financial_health", 0.30);
      ("cladding_risk", 0.30);
      ("special_levy_history", 0.20);
      ("bylaw_conflicts", 0.20) ]
    (Some ["apartment"; "townhouse"; "unit"]));
  ("environmental", Config 0.10 [
      ("flood_risk", 0.25);
      ("bushfire_risk", 0.25);
      ("contamination_risk", 0.25);
      ("flight_path", 0.15);
      ("social_housing_density", 0.10) ] None);
  ("financial", Config 0.10 [
      ("price_vs_comparables", 0.40);
      ("yield_adequacy", 0.30);
      ("cash_flow_viability", 0.30) ] None)
].

(** Entries of a category's ["factors"] list in the breakdown. *)
Record factor_detail : Type := FactorDetail {
  factor : string;
  raw_score : Q;
  factor_weight : Q;      (* key "weight" *)
  weighted_score : Q
}.

(** Values of [category_scores]. *)
Record category_score : Type := CategoryScore {
  score : Q;
  category_weight : Q;    (* key "weight" *)
  weighted_contribution : Q;
  factor_details : list factor_detail   (* key "factors" *)
}.

(** Entries of the list returned by [_get_top_risks]. *)
Record top_risk : Type := TopRisk {
  top_category : string;  (* key "category" *)
  top_factor : string;    (* key "factor" *)
  top_score : Q;          (* key "score" *)
  impact : Q
}.

Inductive rating : Type := LOW | MODERATE | ELEVATED | HIGH | CRITICAL.

(** [x in l] for a value [x] and a list of string literals. *)
Definition value_in (x : option value) (l : list string) : bool :=
  match x with
  | Some (VStr s) => existsb (String.eqb s) l
  | _ => false
  end.

Definition _score_to_rating (score : Q) : rating :=
  if Num.ltb score 20 then LOW
  else if Num.ltb score 40 then MODERATE
  else if Num.ltb score 60 then ELEVATED
  else if Num.ltb score 80 then HIGH
  else CRITICAL.

(** The local list [all_factors] of [_get_top_risks]. *)
Definition all_factors (category_scores : Dict.dict category_score)
    : list top_risk :=
  flat_map (fun '(category, data) =>
              map (fun f => {| top_category := category;
                               top_factor := factor f;
                               top_score := raw_score f;
                               impact := weighted_score f |})
                  (factor_details data))
           (Dict.items category_scores).

Definition _get_top_risks (category_scores : Dict.dict category_score)
    (n : nat) : list top_risk :=
  firstn n (Num.sorted_reverse top_score (all_factors category_scores)).

(** [selected] are [n] entries of [candidates] with the highest [key]:
    nothing left out has a key above a selected one. *)
Definition top_by (key : top_risk -> Q) (n : nat)
    (candidates selected : list top_risk) : Prop :=
  exists rest,
    Permutation candidates (selected ++ rest) /\
    List.length selected = Nat.min n (List.length candidates) /\
    forall s u, In s selected -> In u rest -> key u <= key s.

(** The two helpers the method calls are not defined in the class body at
    hand; the scorer is parameterised by them.  They only read
    [all_analyses]. *)
Section Scorer.
Context {confidence : Type}.
Variable _get_factor_score : analyses -> string -> string -> Q.
Variable _calculate_confidence : analyses -> confidence.

(** The returned dictionary. *)
Record risk_score : Type := RiskScore {
  overall_risk_score : Q;
  risk_rating : rating;
  category_breakdown : Dict.dict category_score;
  top_risk_factors : list top_risk;
  confidence_level : confidence
}.

(** Guard at the head of the category loop: [true] means [continue]. *)
Definition skipped (all_analyses : analyses) (cfg : config) : bool :=
  match applies_to cfg with
  | Some l => negb (value_in (Dict.get "property_type" all_analyses) l)
  | None => false
  end.

(** Filter of the [max_possible] generator. *)
Definition counted (all_analyses : analyses) (cfg : config) : bool :=
  match applies_to cfg with
  | None => true
  | Some l => value_in (Dict.get "property_type" all_analyses) l
  end.

(** Inner loop over [config["factors"].items()]. *)
Definition score_factors (all_analyses : analyses) (category : string)
    (fs : Dict.dict Q) : Q * list factor_detail :=
  fold_left
    (fun (acc : Q * list factor_detail) (kv : string * Q) =>
       let '(category_score, details) := acc in
       let '(f, f_weight) := kv in
       let factor_score := _get_factor_score all_analyses category f in
       let weighted := factor_score * f_weight in
       (category_score + weighted,
        details ++ [FactorDetail f factor_score f_weight weighted]))
    (Dict.items fs) (0, []).

(** Outer loop over [self.RISK_WEIGHTS.items()], building
    [category_scores]. *)
Definition score_categories (weights : Dict.dict config)
    (all_analyses : analyses) : Dict.dict category_score :=
  fold_left
    (fun (category_scores : Dict.dict category_score)
         (kv : string * config) =>
       let '(category, cfg) := kv in
       if skipped all_analyses cfg then category_scores
       else
         let '(cat_score, details) :=
           score_factors all_analyses category (factors cfg) in
         Dict.set category
           (CategoryScore (Num.round cat_score 1) (weight cfg)
              (Num.round (cat_score * weight cfg) 1) details)
           category_scores)
    (Dict.items weights) Dict.empty.

Definition total_score (category_scores : Dict.dict category_score) : Q :=
  Num.sum (map weighted_contribution (Dict.values category_scores)).

Definition max_possible (weights : Dict.dict config)
    (all_analyses : analyses) : Q :=
  Num.sum (map (fun kv => weight (snd kv) * 100)
               (filter (fun kv => counted all_analyses (snd kv))
                       (Dict.items weights))).

Definition normalized_score (total max : Q) : Py.result Q :=
  if Num.gtb max 0
  then q <- Num.truediv total max ;; Ok (q * 100)
  else Ok 50.

(** [calculate_risk_score], with the class attribute [RISK_WEIGHTS] as
    an argument. *)
Definition calculate_risk_score_with (weights : Dict.dict config)
    (all_analyses : analyses) : Py.result risk_score :=
  let category_scores := score_categories weights all_analyses in
  let total := total_score category_scores in
  let max := max_possible weights all_analyses in
  normalized <- normalized_score total max ;;
  Ok {| overall_risk_score := Num.round normalized 1;
        risk_rating := _score_to_rating normalized;
        category_breakdown := category_scores;
        top_risk_factors := _get_top_risks category_scores 5;
        confidence_level := _calculate_confidence all_analyses |}.

Definition calculate_risk_score : analyses -> Py.result risk_score :=
  calculate_risk_score_with RISK_WEIGHTS.

(** The categories that apply to the property, their total weight, and
    the exact weighted mean of their (unrounded) category scores. *)
Definition present (weights : Dict.dict config) (all_analyses : analyses)
    : list (string * config) :=
  filter (fun kv => counted all_analyses (snd kv)) (Dict.items weights).

Definition applicable_weight (weights : Dict.dict config)
    (all_analyses : analyses) : Q :=
  Num.sum (map (fun kv => weight (snd kv)) (present weights all_analyses)).

Definition exact_category_score (all_analyses : analyses)
    (kv : string * config) : Q :=
  fst (score_factors all_analyses (fst kv) (factors (snd kv))).

Definition weighted_mean (weights : Dict.dict config)
    (all_analyses : analyses) : Q :=
  Num.sum (map (fun kv => exact_category_score all_analyses kv
                          * weight (snd kv))
               (present weights all_analyses))
  / applicable_weight weights all_analyses.



(** The entry the category loop stores for a category that is not
    skipped. *)
Definition breakdown_entry (all_analyses : analyses)
    (kv : string * config) : string * category_score :=
  (fst kv,
   CategoryScore
     (Num.round (exact_category_score all_analyses kv) 1)
     (weight (snd kv))
     (Num.round (exact_category_score all_analyses kv * weight (snd kv)) 1)
     (snd (score_factors all_analyses (fst kv) (factors (snd kv))))).

End Scorer.

(** A table entry in the format of [RISK_WEIGHTS]: a non-negative weight
    with at most three decimals, non-negative factor weights that sum to
    at most 1. *)
Definition on_grid (cfg : config) : bool :=
  Qle_bool 0 (weight cfg)
  && Qeq_bool (weight cfg * 1000) (inject_Z (Qfloor (weight cfg * 1000)))
  && forallb (fun kv => Qle_bool 0 (snd kv)) (factors cfg)
  && Qle_bool (Num.sum (map snd (factors cfg))) 1.

(** Two readings of the helpers, used to run the scorer on examples:
    factor scores stored per category in [all_analyses] (0 when absent),
    or one score for every factor. *)
Definition lookup_factor_score (a : analyses) (category f : string) : Q :=
  match Dict.get category a with
  | Some (VDict d) =>
      match Dict.get f d with Some (VNum x) => x | _ => 0 end
  | _ => 0
  end.

Definition uniform_factor_score (x : Q) (a : analyses)
    (category f : string) : Q := x.

Definition no_confidence (a : analyses) : unit := tt.

(** Every factor scores 50, except that strata factors score 0. *)
Definition strata_zero_factor_score (a : analyses) (category f : string)
    : Q :=
  if String.eqb category "strata" then 0 else 50.

(** [RISK_WEIGHTS] without the strata category, and with the strata
    category applying to every property type. *)
Definition NON_STRATA : Dict.dict config :=
  filter (fun kv => negb (String.eqb (fst kv) "strata")) RISK_WEIGHTS.

Definition strata_config : config :=
  Config 0.10 [
      ("financial_health", 0.30);
      ("cladding_risk", 0.30);
      ("special_levy_history", 0.20);
      ("bylaw_conflicts", 0.20) ]
    (Some ["apartment"; "townhouse"; "unit"]).

Definition STRATA_FOR_ALL : Dict.dict config :=
  map (fun kv => (fst kv, Config (weight (snd kv)) (factors (snd kv)) None))
      RISK_WEIGHTS.

Definition house : analyses := [("property_type", VStr "house")].

(** A house whose most alarming raw score sits on a lightly weighted
    factor. *)
Definition house_with_light_factor : analyses := [
  ("property_type", VStr "house");
  ("environmental", VDict [("social_housing_density", VNum 100)]);
  ("title_encumbrance", VDict [("caveat_severity", VNum 90);
                               ("covenant_blocks_use", VNum 90)]);
  ("planning", VDict [("illegal_works_detected", VNum 90)]);
  ("physical", VDict [("structural_defects", VNum 90)]);
  ("financial", VDict [("price_vs_comparables", VNum 90)])
].

(** The ratings in their order of severity. *)
Definition rating_rank (r : rating) : nat :=
  match r with
  | LOW => 0 | MODERATE => 1 | ELEVATED => 2 | HIGH => 3 | CRITICAL => 4
  end.

(** The tie class of a raw score among the candidate factors. *)
Definition scored (v : Q) (t : top_risk) : bool := Qeq_bool (top_score t) v.

(** ** The scorer with its helpers as calls into the world

    [_get_factor_score] and [_calculate_confidence] are not in the class
    body at hand.  Here they are calls that may read and change a [world]
    outside the scorer (a random source, a service, a clock): a call
    takes the world and returns its result with the world it leaves.
    The method is translated once more with the world handed from call
    to call in the order of the source; nothing else in its body touches
    the world. *)
Section Effects.
Context {world confidence : Type}.
Variable _get_factor_score :
  analyses -> string -> string -> world -> Q * world.
Variable _calculate_confidence : analyses -> world -> confidence * world.

(** Inner loop over [config["factors"].items()]. *)
Definition score_factors_in (all_analyses : analyses) (category : string)
    (fs : Dict.dict Q) (w : world) : Q * list factor_detail * world :=
  fold_left
    (fun (acc : Q * list factor_detail * world) (kv : string * Q) =>
       let '(category_score, details, w) := acc in
       let '(f, f_weight) := kv in
       let '(factor_score, w) :=
         _get_factor_score all_analyses category f w in
       let weighted := factor_score * f_weight in
       (category_score + weighted,
        details ++ [FactorDetail f factor_score f_weight weighted],
        w))
    (Dict.items fs) (0, [], w).

(** Outer loop over [self.RISK_WEIGHTS.items()]. *)
Definition score_categories_in (weights : Dict.dict config)
    (all_analyses : analyses) (w : world)
    : Dict.dict category_score * world :=
  fold_left
    (fun (acc : Dict.dict category_score * world)
         (kv : string * config) =>
       let '(category_scores, w) := acc in
       let '(category, cfg) := kv in
       if skipped all_analyses cfg then (category_scores, w)
       else
         let '(cat_score, details, w) :=
           score_factors_in all_analyses category (factors cfg) w in
         (Dict.set category
            (CategoryScore (Num.round cat_score 1) (weight cfg)
               (Num.round (cat_score * weight cfg) 1) details)
            category_scores,
          w))
    (Dict.items weights) (Dict.empty, w).

(** [calculate_risk_score], from a world and with the world it leaves:
    the helper for the confidence is the last call, in the dictionary
    that is returned. *)
Definition calculate_risk_score_in (all_analyses : analyses) (w : world)
    : Py.result (risk_score (confidence := confidence)) * world :=
  let '(category_scores, w) :=
    score_categories_in RISK_WEIGHTS all_analyses w in
  let total := total_score category_scores in
  let max := max_possible RISK_WEIGHTS all_analyses in
  match normalized_score total max with
  | Raise e => (Raise e, w)
  | Ok normalized =>
      let '(confidence_level, w) :=
        _calculate_confidence all_analyses w in
      (Ok {| overall_risk_score := Num.round normalized 1;
             risk_rating := _score_to_rating normalized;
             category_breakdown := category_scores;
             top_risk_factors := _get_top_risks category_scores 5;
             confidence_level := confidence_level |},
       w)
  end.
End Effects.


Definition pure_confidence {world A R : Type} (g : A -> R)
    (a : A) (w : world) : R * world := (g a, w).

Definition drawn_factor_score (a : analyses) (category f : string)
    (w : nat) : Q * nat := (inject_Z (Z.of_nat w), S w).

(** The composite score of a breakdown, in the words of the
    specification: the contributions of the categories in the breakdown
    over the weights of the same categories (times 100), as a
    percentage, to one decimal.  A category that is not in the breakdown
    has no term in either sum. *)
Definition breakdown_total (breakdown : Dict.dict category_score) : Q :=
  Num.sum (map weighted_contribution (Dict.values breakdown)).

Definition breakdown_weight (breakdown : Dict.dict category_score) : Q :=
  Num.sum (map (fun e => category_weight e * 100) (Dict.values breakdown)).

Definition composite_of (breakdown : Dict.dict category_score) : Q :=
  Num.round (breakdown_total breakdown / breakdown_weight breakdown * 100) 1.

End PropertyRiskScorer.

(* ================================================================== *)
(** * [PropertyInput] (frontend/components/PropertyInput.tsx)           *)
(* ================================================================== *)

Module PropertyInput.

Open Scope string_scope.

(** [s.includes(search)] *)
Fixpoint includes (s search : string) : bool :=
  if String.prefix search s then true
  else match s with
       | EmptyString => false
       | String _ s' => includes s' search
       end.

(** White space removed by [trim()], within the 8-bit range. *)
Definition is_white_space (c : ascii) : bool :=
  let n := nat_of_ascii c in
  (n =? 9)%nat || (n =? 10)%nat || (n =? 11)%nat || (n =? 12)%nat
  || (n =? 13)%nat || (n =? 32)%nat || (n =? 160)%nat.

Fixpoint trim_start (s : string) : string :=
  match s with
  | String c s' => if is_white_space c then trim_start s' else s
  | EmptyString => EmptyString
  end.

Fixpoint trim_end (s : string) : string :=
  match s with
  | EmptyString => EmptyString
  | String c s' =>
      match trim_end s' with
      | EmptyString => if is_white_space c then EmptyString
                       else String c EmptyString
      | t => String c t
      end
  end.

(** [s.trim()] *)
Definition trim (s : string) : string := trim_end (trim_start s).

(** Fields of [ManualPropertyInput] that the component reads. *)
Record ManualPropertyInput : Type := {
  address : string;
  suburb : string;
  postcode : string;
  manual_url : string       (* field "url" *)
}.

(** The [useState] cells and the two mutations' [isPending] flags. *)
Record state : Type := State {
  url : string;
  showManualForm : bool;
  scrapeError : option string;
  manualData : ManualPropertyInput;
  scrape_isPending : bool;   (* scrapeMutation.isPending *)
  manual_isPending : bool    (* manualMutation.isPending *)
}.

Definition isValidUrl (st : state) : bool :=
  includes (url st) "domain.com.au" || includes (url st) "realestate.com.au".

(** Truthiness of [address && suburb && postcode]. *)
Definition nonempty (s : string) : bool :=
  match s with EmptyString => false | _ => true end.

Definition isManualValid (st : state) : bool :=
  nonempty (address (manualData st)) && nonempty (suburb (manualData st))
  && nonempty (postcode (manualData st)).

(** What a render shows: which form, and the [disabled] attributes. *)
Inductive view : Type :=
| ManualForm (submit_disabled : bool)
| UrlForm (input_disabled : bool) (analyze_disabled : bool).

Definition render (st : state) : view :=
  if showManualForm st
  then ManualForm (negb (isManualValid st) || manual_isPending st)
  else UrlForm (scrape_isPending st)
               (negb (isValidUrl st) || scrape_isPending st).

(** Calls made on the two mutations. *)
Inductive effect : Type :=
| ScrapeMutate (arg : string)            (* scrapeMutation.mutate *)
| ManualMutate (arg : ManualPropertyInput).

Definition handleUrlSubmit (st : state) : state * list effect :=
  if nonempty (trim (url st))
  then (State (url st) (showManualForm st) None (manualData st)
              (scrape_isPending st) (manual_isPending st),
        [ScrapeMutate (trim (url st))])
  else (st, []).

Definition handleManualSubmit (st : state) : state * list effect :=
  (st, [ManualMutate (manualData st)]).

(** User actions on the rendered form.  A form is submitted through its
    submit button; a disabled button submits nothing. *)
Inductive event : Type :=
| ChangeUrl (value : string)
| Submit
| OpenManualForm
| CancelManualForm.

Definition step (st : state) (ev : event) : state * list effect :=
  match ev, render st with
  | ChangeUrl v, UrlForm false _ =>
      (State v (showManualForm st) (scrapeError st) (manualData st)
             (scrape_isPending st) (manual_isPending st), [])
  | Submit, UrlForm _ false => handleUrlSubmit st
  | Submit, ManualForm false => handleManualSubmit st
  | OpenManualForm, UrlForm _ _ =>
      (State (url st) true (scrapeError st) (manualData st)
             (scrape_isPending st) (manual_isPending st), [])
  | CancelManualForm, ManualForm _ =>
      (State (url st) false None (manualData st)
             (scrape_isPending st) (manual_isPending st), [])
  | _, _ => (st, [])
  end.

(** [needle] occurs in [s]. *)
Definition substring_of (needle s : string) : Prop :=
  exists before after, s = before ++ needle ++ after.

(** The URL form holding a listing of another site, and one of a
    supported site. *)
Definition no_manual_data : ManualPropertyInput :=
  Build_ManualPropertyInput "" "" "" "".

Definition other_site : state :=
  State "https://www.example.com/listing/42" false None no_manual_data
        false false.

Definition domain_listing : state :=
  State " https://www.domain.com.au/122-station-street-pakenham " false None
        no_manual_data false false.

(** A fetch in flight, and the manual form filled in. *)
Definition pending_listing : state :=
  State "https://www.domain.com.au/122-station-street-pakenham" false None
        no_manual_data true false.

Definition manual_entry : state :=
  State "" true None
        (Build_ManualPropertyInput "122 Station Street" "Pakenham" "3810" "")
        false false.

(** Characters [trim()] keeps at the ends: a string without white
    space. *)
Fixpoint no_white_space (s : string) : bool :=
  match s with
  | EmptyString => true
  | String c s' => negb (is_white_space c) && no_white_space s'
  end.

End PropertyInput.

(* ================================================================== *)
(** * [Gatekeeper]: the rule engine (specification, section 4.1)        *)
(* ================================================================== *)

Module Gatekeeper.

Open Scope string_scope.
Open Scope list_scope.

(** Modelled from the spec: the Fact record of the data model; the fact
    provider itself is an external collaborator. *)
Inductive fact_value : Type :=
| Measurement (x : Q)
| Category (c : string)
| Boolean (b : bool).

Record fact : Type := Fact {
  key : string;
  value : fact_value;
  source : string;
  confidence : Q;
  retrieved_at : Z
}.

Definition fact_set := list fact.

(** Modelled from the spec: the severities of a rule. *)
Inductive severity : Type := PASS | WARNING | FAIL | KILL.

(** Modelled from the spec: the Rule record.  [reads] lists the fact keys
    the predicate consults; the spec needs it to say which check a missing
    or low-confidence fact "corresponds" to. *)
Record rule : Type := Rule {
  id : string;
  category : string;
  predicate : fact_set -> bool;
  rule_severity : severity;
  message_template : string;
  order : Z;
  reads : list string
}.

(** Modelled from the spec: the Verdict, and the CheckResult and
    GatekeeperResult records of the contract of [evaluate]. *)
Inductive verdict : Type := PROCEED | REVIEW | REJECT.

Module Score.
Inductive t : Type := PASS | WARNING | FAIL.
End Score.

Record check_result : Type := CheckResult {
  check_category : string;
  score : Score.t;
  detail : string;
  data_incomplete : bool
}.

Record gatekeeper_result : Type := GatekeeperResult {
  result_verdict : verdict;
  checks : list check_result;
  kill_reasons : list string
}.

(** Modelled from the spec: the rule set is configuration handed to the
    engine, together with the confidence floor. *)
Record rule_set : Type := RuleSet {
  rules : list rule;
  confidence_floor : Q
}.

(** Modelled from the spec: "rule evaluation order is deterministic":
    ascending [order], rules of equal [order] in the order of the set. *)
Fixpoint insert_by_order (r : rule) (l : list rule) : list rule :=
  match l with
  | [] => [r]
  | r' :: l' =>
      if (order r' <? order r)%Z then r' :: insert_by_order r l'
      else r :: r' :: l'
  end.

Definition in_order (l : list rule) : list rule :=
  fold_right insert_by_order [] l.

Definition is_kill (s : severity) : bool :=
  match s with KILL => true | _ => false end.

Definition is_warning (s : severity) : bool :=
  match s with WARNING => true | _ => false end.

(** Modelled from the spec: a fact is usable when it is present with a
    confidence not below the floor. *)
Definition usable (floor : Q) (facts : fact_set) (k : string) : bool :=
  existsb (fun f => String.eqb (key f) k
                    && negb (Num.ltb (confidence f) floor)) facts.

Definition data_complete (floor : Q) (facts : fact_set) (r : rule) : bool :=
  forallb (usable floor facts) (reads r).

(** Modelled from the spec: the score a fired rule leaves on its check. *)
Definition score_of (s : severity) : Score.t :=
  match s with
  | PASS => Score.PASS
  | WARNING => Score.WARNING
  | FAIL | KILL => Score.FAIL
  end.

(** Modelled from the spec: the state of the evaluation loop. *)
Record run : Type := Run {
  short_circuited : list string;   (* categories closed by a KILL *)
  fired : list severity;           (* severities of the rules that fired *)
  run_checks : list check_result;
  run_kill_reasons : list string
}.

Definition start : run := Run [] [] [] [].

(** Modelled from the spec: one turn of the evaluation loop.  A rule of a
    category already closed by a KILL is not evaluated; a rule whose
    predicate holds fires with its severity, and a KILL closes its category
    and records its message; a rule that does not fire passes, or, when a
    fact it reads is missing or below the floor, is degraded to WARNING and
    flagged. *)
Definition eval_rule (floor : Q) (facts : fact_set) (st : run) (r : rule)
    : run :=
  if existsb (String.eqb (category r)) (short_circuited st) then st
  else if predicate r facts then
    Run (if is_kill (rule_severity r)
         then category r :: short_circuited st else short_circuited st)
        (fired st ++ [rule_severity r])
        (run_checks st ++
           [CheckResult (category r) (score_of (rule_severity r))
                        (message_template r) false])
        (if is_kill (rule_severity r)
         then run_kill_reasons st ++ [message_template r]
         else run_kill_reasons st)
  else if data_complete floor facts r then
    Run (short_circuited st) (fired st)
        (run_checks st ++ [CheckResult (category r) Score.PASS "" false])
        (run_kill_reasons st)
  else
    Run (short_circuited st) (fired st)
        (run_checks st ++ [CheckResult (category r) Score.WARNING "" true])
        (run_kill_reasons st).

(** Modelled from the spec: the verdict derivation. *)
Definition derive_verdict (fired : list severity) : verdict :=
  if existsb is_kill fired then REJECT
  else if existsb is_warning fired then REVIEW
  else PROCEED.

(** Modelled from the spec: [evaluate(facts)], the engine of
    [services/gatekeeper/kill_criteria.py]. *)
Definition run_rules (rs : rule_set) (facts : fact_set) : run :=
  fold_left (eval_rule (confidence_floor rs) facts)
            (in_order (rules rs)) start.

Definition evaluate (rs : rule_set) (facts : fact_set) : gatekeeper_result :=
  let st := run_rules rs facts in
  GatekeeperResult (derive_verdict (fired st)) (run_checks st)
                   (run_kill_reasons st).

(** The dominance order on verdicts and the verdict a single severity
    asks for. *)
Definition rank (v : verdict) : nat :=
  match v with PROCEED => 0 | REVIEW => 1 | REJECT => 2 end.

Definition worst (v w : verdict) : verdict :=
  if (rank v <? rank w)%nat then w else v.

Definition verdict_of (s : severity) : verdict :=
  match s with
  | KILL => REJECT
  | WARNING => REVIEW
  | PASS | FAIL => PROCEED
  end.

(** A rule is triggered by a fact set when its predicate holds on it. *)
Definition triggers (facts : fact_set) (r : rule) : Prop :=
  predicate r facts = true.

(** Loop invariants: a KILL has fired so far; every closed category was
    closed by a KILL that fired. *)
Definition killed (st : run) : Prop := existsb is_kill (fired st) = true.

Definition closed_by_kill (st : run) : Prop :=
  short_circuited st <> [] -> killed st.

(** The scenario of the specification: a flood overlay and an ANEF of 12
    against the rules flood -> KILL and ANEF > 20 -> KILL. *)
Definition lookup (k : string) (facts : fact_set) : option fact_value :=
  match find (fun f => String.eqb (key f) k) facts with
  | Some f => Some (value f)
  | None => None
  end.

Definition flood_rule : rule :=
  Rule "flood-1pc-aep" "flood"
       (fun facts => match lookup "flood_overlay" facts with
                     | Some (Boolean b) => b
                     | _ => false
                     end)
       KILL "flood risk" 1 ["flood_overlay"].

Definition anef_rule : rule :=
  Rule "anef-over-20" "flight_path"
       (fun facts => match lookup "anef" facts with
                     | Some (Measurement x) => Num.gtb x 20
                     | _ => false
                     end)
       KILL "flight path noise" 2 ["anef"].

Definition scenario_rules : rule_set :=
  RuleSet [anef_rule; flood_rule] 0.5.

Definition scenario_facts : fact_set := [
  Fact "flood_overlay" (Boolean true) "geoscape" 1.0 0;
  Fact "anef" (Measurement 12) "airservices" 1.0 0
].

End Gatekeeper.

(* ================================================================== *)
(** * [DocumentPipeline]: structure-aware chunking (section 4.2)        *)
(* ================================================================== *)

Module DocumentPipeline.

Open Scope list_scope.

Definition text := list ascii.

(** Modelled from the spec: the structural tags of a chunk and the pages
    the OCR collaborator hands over. *)
Inductive structural_tag : Type :=
| Heading
| Clause
| TableRow
| Body          (* text ahead of the first marker *)
| Fallback.     (* a page with no structure *)

Record page_text : Type := PageText {
  page : nat;
  content : text;
  ocr_confidence : Q
}.

(** Modelled from the spec: the DocumentChunk record, with the two flags
    of section 4.2. *)
Record chunk (vector : Type) : Type := Chunk {
  id : string * nat;
  document_id : string;
  ordinal : nat;
  chunk_text : text;                 (* field "text" *)
  tag : structural_tag;              (* field "structural_tag" *)
  page_number : nat;
  embedding_vector : vector;
  split : bool;
  low_confidence : bool
}.

(** A structural unit: a marker line and the lines under it. *)
Record unit_ : Type := Unit { unit_tag : structural_tag; body : text }.

(** A chunk before numbering and embedding. *)
Record piece : Type := Piece {
  piece_tag : structural_tag;
  piece_text : text;
  piece_split : bool
}.

(** Cut a text after every stop character; nothing is dropped. *)
Fixpoint split_after (stop : ascii -> bool) (t : text) : list text :=
  match t with
  | [] => []
  | c :: t' =>
      if stop c then [c] :: split_after stop t'
      else match split_after stop t' with
           | [] => [[c]]
           | p :: ps => (c :: p) :: ps
           end
  end.

Definition is_newline (c : ascii) : bool := (nat_of_ascii c =? 10)%nat.

Definition is_sentence_end (c : ascii) : bool :=
  let n := nat_of_ascii c in
  (n =? 46)%nat || (n =? 33)%nat || (n =? 63)%nat.   (* . ! ? *)

Definition lines : text -> list text := split_after is_newline.
Definition sentences : text -> list text := split_after is_sentence_end.

Section Chunking.
(** The marker grammar, the tokenizer, the budget and the embedding
    service are configuration and collaborators of the pipeline. *)
Variable marker : text -> option structural_tag.
Variable count_tokens : text -> nat.
Variable max_tokens : nat.
Variable ocr_floor : Q.
Context {vector : Type}.
Variable embed : text -> vector.

(** Modelled from the spec: "parse structural markers (headings,
    numbered clauses, table rows) from the page text".  A marker line
    opens a unit; the other lines belong to the unit that is open. *)
Fixpoint units_from (cur : unit_) (ls : list text) : list unit_ :=
  match ls with
  | [] => [cur]
  | l :: ls' =>
      match marker l with
      | Some t => cur :: units_from (Unit t l) ls'
      | None => units_from (Unit (unit_tag cur) (body cur ++ l)) ls'
      end
  end.

Definition parse_units (t : text) : list unit_ :=
  match lines t with
  | [] => []
  | l :: ls =>
      units_from
        (Unit (match marker l with Some t => t | None => Body end) l) ls
  end.

(** Modelled from the spec: "greedily accumulate ... up to a maximum
    token budget". *)
Fixpoint accumulate (cur : text) (items : list text) : list text :=
  match items with
  | [] => [cur]
  | x :: rest =>
      if (count_tokens (cur ++ x) <=? max_tokens)%nat
      then accumulate (cur ++ x) rest
      else cur :: accumulate x rest
  end.

Definition pack (items : list text) : list text :=
  match items with
  | [] => []
  | x :: rest => accumulate x rest
  end.

(** Modelled from the spec: "units exceeding the budget alone are split
    at sentence boundaries as a fallback, tagged split=true". *)
Definition split_unit (u : unit_) : list piece :=
  map (fun t => Piece (unit_tag u) t true) (pack (sentences (body u))).

Definition flush (cur : option piece) : list piece :=
  match cur with Some p => [p] | None => [] end.

(** Modelled from the spec: the chunking loop, "never splitting a unit
    that fits whole". *)
Fixpoint chunk_units (cur : option piece) (us : list unit_) : list piece :=
  match us with
  | [] => flush cur
  | u :: rest =>
      if (max_tokens <? count_tokens (body u))%nat then
        flush cur ++ split_unit u ++ chunk_units None rest
      else
        match cur with
        | None => chunk_units (Some (Piece (unit_tag u) (body u) false)) rest
        | Some p =>
            if (count_tokens (piece_text p ++ body u) <=? max_tokens)%nat
            then chunk_units
                   (Some (Piece (piece_tag p) (piece_text p ++ body u)
                                false)) rest
            else p :: chunk_units
                        (Some (Piece (unit_tag u) (body u) false)) rest
        end
  end.

Definition has_structure (t : text) : bool :=
  existsb (fun l => match marker l with Some _ => true | None => false end)
          (lines t).

(** Modelled from the spec: a page without extractable structure still
    yields a single fallback chunk (MalformedDocument). *)
Definition chunk_page (t : text) : list piece :=
  if has_structure t then chunk_units None (parse_units t)
  else [Piece Fallback t false].

(** Modelled from the spec: [ingest(document_id, raw_pages)], the
    chunker of [services/documents/chunking.py]: pages in order, chunks
    numbered from 0, each embedded and stored with its page number. *)
Definition ingest (doc : string) (raw_pages : list page_text)
    : list (chunk vector) :=
  let pieces :=
    flat_map (fun p => map (fun pc => (p, pc)) (chunk_page (content p)))
             raw_pages in
  map (fun ipc : nat * (page_text * piece) =>
         let '(i, (p, pc)) := ipc in
         Chunk (doc, i) doc i (piece_text pc) (piece_tag pc) (page p)
               (embed (piece_text pc)) (piece_split pc)
               (Num.ltb (ocr_confidence p) ocr_floor))
      (combine (seq 0 (List.length pieces)) pieces).

(** Modelled from the spec: re-ingesting a document replaces its chunk
    set as a whole. *)
Definition reingest (store : Dict.dict (list (chunk vector)))
    (doc : string) (raw_pages : list page_text)
    : Dict.dict (list (chunk vector)) :=
  Dict.set doc (ingest doc raw_pages) store.

(** The chunk texts of a chunk set, read back in ordinal order. *)
Fixpoint insert_by_ordinal (c : chunk vector) (l : list (chunk vector))
    : list (chunk vector) :=
  match l with
  | [] => [c]
  | c' :: l' =>
      if (ordinal c' <? ordinal c)%nat then c' :: insert_by_ordinal c l'
      else c :: c' :: l'
  end.

Definition by_ordinal (cs : list (chunk vector)) : list (chunk vector) :=
  fold_right insert_by_ordinal [] cs.

Definition reassemble (cs : list (chunk vector)) : text :=
  List.concat (map (@chunk_text vector) (by_ordinal cs)).

End Chunking.

(** The text held by the chunk under construction. *)
Definition pending (cur : option piece) : text :=
  match cur with Some p => piece_text p | None => [] end.

(** A marker grammar and a tokenizer to run the pipeline on examples:
    a line opening with a digit is a numbered clause, with [#] a heading,
    with [|] a table row; tokens are blank-separated words. *)
Definition sample_marker (l : text) : option structural_tag :=
  match l with
  | c :: _ =>
      let n := nat_of_ascii c in
      if (48 <=? n)%nat && (n <=? 57)%nat then Some Clause
      else if (n =? 35)%nat then Some Heading
      else if (n =? 124)%nat then Some TableRow
      else None
  | [] => None
  end.

Definition is_blank (c : ascii) : bool :=
  let n := nat_of_ascii c in (n =? 32)%nat || (n =? 10)%nat || (n =? 9)%nat.

Fixpoint count_words_from (in_word : bool) (t : text) : nat :=
  match t with
  | [] => 0
  | c :: t' =>
      if is_blank c then count_words_from false t'
      else if in_word then count_words_from true t'
      else S (count_words_from true t')
  end.

Definition count_words (t : text) : nat := count_words_from false t.

Definition sample_embed (t : text) : Q := inject_Z (Z.of_nat (List.length t)).

Definition newline : string := String (ascii_of_nat 10) EmptyString.

(** The three-clause scenario of the specification; with a budget of six
    words the second clause does not fit. *)
Definition three_clauses : page_text :=
  PageText 1
    (list_ascii_of_string
       ("1. Short one." ++ newline
        ++ "2. First long sentence here. Second long sentence here." ++ newline
        ++ "3. Tail." ++ newline)%string)
    1.0.

Definition sample_ingest : string -> list page_text -> list (chunk Q) :=
  ingest sample_marker count_words 6 0.5 sample_embed.

End DocumentPipeline.

(* ================================================================== *)
(** * [RetrievalEngine]: cited answers (section 4.3)                    *)
(* ================================================================== *)

Module RetrievalEngine.

Import DocumentPipeline.
Open Scope string_scope.
Open Scope list_scope.

(** Modelled from the spec: the Answer of the contract of [query], with
    its citations. *)
Record citation : Type := Citation {
  chunk_id : string * nat;
  cited_page : nat       (* field "page" *)
}.

Record answer : Type := Answer {
  answer_text : string;          (* field "text" *)
  citations : list citation;
  answer_confidence : Q          (* field "confidence" *)
}.

Definition NOT_FOUND : string := "NOT_FOUND".

(** Modelled from the spec: what [query] hands back: an answer that can
    be used, or the AmbiguousRetrieval data-quality error carrying the
    citation-free answer at low confidence. *)
Inductive query_result : Type :=
| Usable (a : answer)
| AmbiguousRetrieval (flagged : answer).

Section Engine.
Context {vector : Type}.
Variable embed : string -> vector.
Variable similarity : vector -> vector -> Q.
Variable K : nat.
(** The LLM collaborator and the reading of its page references. *)
Variable complete : string -> list (chunk vector) -> string.
Variable cited : string -> list (chunk vector) -> list citation.
Variable confidence_of : string -> list (chunk vector) -> Q.
Variable low_confidence : Q.

(** Modelled from the spec: "retrieve top-K chunks by vector
    similarity". *)
Definition retrieve (chunks : list (chunk vector)) (question : string)
    : list (chunk vector) :=
  let q := embed question in
  firstn K (Num.sorted_reverse
              (fun c => similarity q (embedding_vector c)) chunks).

(** Modelled from the spec: the citation contract applied to the text
    the LLM returned for the retrieved chunks. *)
Definition check_answer (retrieved : list (chunk vector)) (txt : string)
    : query_result :=
  if String.eqb txt NOT_FOUND then
    Usable (Answer NOT_FOUND [] (confidence_of txt retrieved))
  else
    match cited txt retrieved, retrieved with
    | [], _ :: _ => AmbiguousRetrieval (Answer txt [] low_confidence)
    | cs, _ => Usable (Answer txt cs (confidence_of txt retrieved))
    end.

(** Modelled from the spec: [query(document_id, question)] of the RAG
    query service. *)
Definition query (store : Dict.dict (list (chunk vector)))
    (doc : string) (question : string) : query_result :=
  let chunks := match Dict.get doc store with Some cs => cs | None => [] end in
  let retrieved := retrieve chunks question in
  check_answer retrieved (complete question retrieved).

(** The chunks [query] retrieves for a question. *)
Definition retrieved_for (store : Dict.dict (list (chunk vector)))
    (doc : string) (question : string) : list (chunk vector) :=
  retrieve (match Dict.get doc store with Some cs => cs | None => [] end)
           question.

End Engine.

(** An engine over the three-clause document, with an LLM that quotes
    the first retrieved chunk and cites its page. *)
Definition sample_store : Dict.dict (list (chunk Q)) :=
  [("s32", sample_ingest "s32" [three_clauses])].

Definition embed_question (q : string) : Q :=
  inject_Z (Z.of_nat (String.length q)).

Definition closeness (x y : Q) : Q := - Qabs (x - y).

Definition quote_first (question : string) (cs : list (chunk Q)) : string :=
  match cs with
  | c :: _ => string_of_list_ascii (chunk_text c)
  | [] => NOT_FOUND
  end.

Definition cite_all (txt : string) (cs : list (chunk Q)) : list citation :=
  map (fun c => Citation (id c) (page_number c)) cs.

Definition full_confidence (txt : string) (cs : list (chunk Q)) : Q := 1.

Definition sample_query : string -> string -> query_result :=
  query embed_question closeness 2 quote_first cite_all full_confidence 0.1
        sample_store.

Definition tail_answer : answer :=
  Answer ("3. Tail." ++ newline)
         [Citation ("s32", 3%nat) 1; Citation ("s32", 0%nat) 1] 1.

End RetrievalEngine.

(* ================================================================== *)
(** * [Home]: the page that hosts the form (app/page.tsx)               *)
(* ================================================================== *)

Module Home.

Open Scope string_scope.
Open Scope list_scope.

Inductive Stage : Type := input | street_level | documents | analysis.

Inductive Verdict : Type := PROCEED | REVIEW | REJECT.

(** The fields of [PropertyAnalyzeResponse] the page reads. *)
Record PropertyAnalyzeResponse : Type := {
  id : string;
  address : string;            (* property.address *)
  verdict : Verdict;
  kill_reasons : list string
}.

(** The two [useState] cells. *)
Record state : Type := State {
  stage : Stage;
  analysisData : option PropertyAnalyzeResponse
}.

Definition initial : state := State input None.

Definition handleAnalysisComplete (data : PropertyAnalyzeResponse)
    (st : state) : state :=
  State street_level (Some data).

Definition handleProceedToDocuments (st : state) : state :=
  State documents (analysisData st).

Definition handleProceedToAnalysis (st : state) : state :=
  State analysis (analysisData st).

Definition handleStartOver (st : state) : state := State input None.

(** The inline handler of the Back button. *)
Definition handleBack (st : state) : state :=
  State street_level (analysisData st).

(** The panel a render shows under the header: [stage === ... &&
    analysisData &&] guards every panel but the first. *)
Inductive panel : Type :=
| InputPanel
| StreetLevelPanel (data : PropertyAnalyzeResponse)
| DocumentsPanel (data : PropertyAnalyzeResponse)
| AnalysisPanel (data : PropertyAnalyzeResponse)
| NoPanel.

Definition render (st : state) : panel :=
  match stage st, analysisData st with
  | input, _ => InputPanel
  | street_level, Some d => StreetLevelPanel d
  | documents, Some d => DocumentsPanel d
  | analysis, Some d => AnalysisPanel d
  | _, None => NoPanel
  end.

(** What can happen on the page: a mutation of the form completes, or
    the user clicks one of the controls that are rendered. *)
Inductive event : Type :=
| AnalysisComplete (data : PropertyAnalyzeResponse)
| ClickLogo
| ClickStartOver            (* "Start Over" and "New Analysis" *)
| ClickContinueToDocuments
| ClickBack
| ClickSkipDocuments
| UploadComplete.           (* DocumentUpload's onComplete *)

Definition step (st : state) (ev : event) : state :=
  match ev, render st with
  | AnalysisComplete data, _ => handleAnalysisComplete data st
  | ClickLogo, _ => handleStartOver st
  | ClickStartOver, (StreetLevelPanel _ | AnalysisPanel _) =>
      handleStartOver st
  | ClickContinueToDocuments, StreetLevelPanel _ =>
      handleProceedToDocuments st
  | ClickBack, DocumentsPanel _ => handleBack st
  | (ClickSkipDocuments | UploadComplete), DocumentsPanel _ =>
      handleProceedToAnalysis st
  | _, _ => st
  end.

Definition run (st : state) (evs : list event) : state :=
  fold_left step evs st.

Definition rejected : PropertyAnalyzeResponse :=
  Build_PropertyAnalyzeResponse "p-1" "122 Station Street, Pakenham"
                                REJECT ["flood risk"].

End Home.

(* ================================================================== *)
(** * [VictorianStampDutyCalculator]                                    *)
(* ================================================================== *)

Module VictorianStampDutyCalculator.

Import Py.
Open Scope Q_scope.
Open Scope string_scope.
Open Scope list_scope.

(** Rows are (from, to, rate, base); [None] stands for [float('inf')]. *)
Definition DUTY_BRACKETS_2025 : list (Q * option Q * Q * Q) := [
  (0, Some 25000, 0.014, 0);
  (25000, Some 130000, 0.024, 350);
  (130000, Some 960000, 0.06, 2870);
  (960000, None, 0.055, 52670)
].

Definition FOREIGN_PURCHASER_SURCHARGE : Q := 0.08.

Definition _calculate_fhb_concession (price base_duty : Q) : Q :=
  if Num.leb price 600000 then base_duty
  else if Num.leb price 750000 then
    let reduction_factor := (750000 - price) / 150000 in
    base_duty * reduction_factor
  else 0.

(** [_calculate_base_duty], [_calculate_pensioner_concession] and
    [_get_applicable_notes] are not defined in the class body at hand. *)
Section Calculator.
Context {notes : Type}.
Variable _calculate_base_duty : Q -> Q.
Variable _calculate_pensioner_concession : Q -> Q.
Variable _get_applicable_notes : notes.

(** The returned dictionary. *)
Record duty : Type := Duty {
  base_duty : Q;
  foreign_surcharge : Q;
  fhb_concession : Q;
  pensioner_concession : Q;
  total_duty : Q;
  effective_rate : Q;
  due_date : string;
  duty_notes : notes          (* key "notes" *)
}.

Definition calculate (purchase_price : Q)
    (property_type purchaser_status : string)
    (first_home_buyer principal_residence pensioner : bool)
    : Py.result duty :=
  let base := _calculate_base_duty purchase_price in
  let surcharge :=
    if String.eqb purchaser_status "foreign"
       && String.eqb property_type "residential"
    then purchase_price * FOREIGN_PURCHASER_SURCHARGE else 0 in
  let fhb_reduction :=
    if first_home_buyer && principal_residence
    then _calculate_fhb_concession purchase_price base else 0 in
  let pensioner_reduction :=
    if pensioner && principal_residence
    then _calculate_pensioner_concession purchase_price else 0 in
  let total :=
    Num.max 0 (base + surcharge - fhb_reduction - pensioner_reduction) in
  rate <- Num.truediv total purchase_price ;;
  Ok (Duty base surcharge fhb_reduction pensioner_reduction total
           (rate * 100) "Within 30 days of settlement"
           _get_applicable_notes).

End Calculator.

(** Helpers to run the calculator on examples: duty of 5% of the price,
    no pensioner concession. *)
Definition five_percent (price : Q) : Q := price * 0.05.
Definition no_concession (price : Q) : Q := 0.

End VictorianStampDutyCalculator.

(* ================================================================== *)
(** * [InvestorCashFlowModel]                                           *)
(* ================================================================== *)

Module InvestorCashFlowModel.

Import Py.
Open Scope Q_scope.
Open Scope string_scope.
Open Scope list_scope.

Definition _calculate_land_tax (land_value total_holdings : Q) : Q :=
  let total_land := land_value + total_holdings in
  if Num.leb total_land 50000 then 0
  else if Num.leb total_land 100000 then (total_land - 50000) * 0.0002
  else if Num.leb total_land 300000 then 500 + (total_land - 100000) * 0.0005
  else if Num.leb total_land 600000 then 1500 + (total_land - 300000) * 0.001
  else if Num.leb total_land 1000000
    then 4500 + (total_land - 600000) * 0.0015
  else if Num.leb total_land 1800000
    then 10500 + (total_land - 1000000) * 0.002
  else if Num.leb total_land 3000000
    then 26500 + (total_land - 1800000) * 0.0025
  else 56500 + (total_land - 3000000) * 0.0055.

(** [d.get(k, default)] on a dictionary of numbers. *)
Definition get_or (k : string) (d : Dict.dict Q) (default : Q) : Q :=
  match Dict.get k d with Some v => v | None => default end.

(** [finance_params]: keys ["lvr"], ["interest_rate"], ["loan_type"]. *)
Record finance_params : Type := FinanceParams {
  lvr : option Q;
  interest_rate : option Q;
  loan_type : option string
}.

Inductive gearing : Type := NEGATIVE | POSITIVE.

(** The sections of the returned dictionary. *)
Record summary : Type := Summary {
  gross_yield : Q;
  net_yield : Q;
  cash_on_cash_return : Q;
  gearing_status : gearing;
  weekly_cash_flow : Q;
  monthly_cash_flow : Q;
  annual_cash_flow : Q
}.

Record income : Type := Income {
  income_weekly_rent : Q;      (* key "weekly_rent" *)
  annual_rent : Q;
  vacancy_allowance : Q;
  effective_rent : Q
}.

Record outgoings_section : Type := Outgoings {
  council_rates : Q;
  water_rates : Q;
  strata_levies : Q;
  insurance : Q;
  property_management : Q;
  repairs_maintenance : Q;
  land_tax : Q;
  total : Q
}.

Record finance_section : Type := Finance {
  finance_purchase_price : Q;  (* key "purchase_price" *)
  loan_amount : Q;
  deposit_required : Q;
  finance_lvr : Q;             (* key "lvr" *)
  finance_interest_rate : Q;   (* key "interest_rate" *)
  annual_interest : Q;
  annual_principal : Q
}.

Record tax_section : Type := Tax {
  annual_depreciation : Q;
  total_deductions : Q;
  taxable_income_impact : Q;
  marginal_tax_rate : Q;
  tax_benefit_or_liability : Q
}.

(** First-year interest and principal of the loan, on the exact values.
    In binary64 the difference [growth - 1] keeps too few digits of the
    repayment once [growth] passes about 2^52 (rates above some 125% a
    year), and is 0 for rates below about 1e-15. *)
Definition loan_payments (loan_type : string) (loan interest_rate : Q)
    : Py.result (Q * Q) :=
  if String.eqb loan_type "interest_only" then
    Ok (loan * interest_rate, 0)
  else
    let monthly_rate := interest_rate / 12 in
    let num_payments := 360%Z in
    growth <- Num.pow (1 + monthly_rate) num_payments ;;
    monthly_payment <-
      Num.truediv (loan * (monthly_rate * growth)) (growth - 1) ;;
    let annual_payment := monthly_payment * 12 in
    let annual_interest := loan * interest_rate in
    Ok (annual_interest, annual_payment - annual_interest).

(** The depreciation estimate. *)
Definition depreciation (purchase_price : Q) (outgoings : Dict.dict Q) : Q :=
  match Dict.get "building_year" outgoings with
  | Some building_year =>
      if Qeq_bool building_year 0 then 5000
      else
        let building_age := 2025 - building_year in
        if Num.ltb building_age 40 then
          let building_value := purchase_price * 0.6 in
          building_value * 0.025
        else 5000
  | None => 5000
  end.

(** [_calculate_acquisition_costs] and [_get_acquisition_costs_breakdown]
    are not defined in the class body at hand. *)
Section Model.
Context {breakdown : Type}.
Variable _calculate_acquisition_costs : Q -> Q.
Variable _get_acquisition_costs_breakdown : Q -> breakdown.

Record cash_flow : Type := CashFlow {
  cf_summary : summary;
  cf_income : income;
  cf_outgoings : outgoings_section;
  cf_finance : finance_section;
  cf_tax : tax_section;
  acquisition_costs : breakdown
}.

Definition calculate (purchase_price weekly_rent : Q)
    (outgoings : Dict.dict Q) (finance : finance_params)
    (investor_params : Dict.dict Q) : Py.result cash_flow :=
  (* income *)
  let annual_rent := weekly_rent * 52 in
  let vacancy_rate := get_or "vacancy_rate" investor_params 0.02 in
  let effective_rent := annual_rent * (1 - vacancy_rate) in
  (* outgoings *)
  let council_rates := get_or "council_rates" outgoings 0 in
  let water_rates := get_or "water_rates" outgoings 0 in
  let strata_levies := get_or "strata_levies" outgoings 0 * 4 in
  let insurance :=
    get_or "landlord_insurance" outgoings (purchase_price * 0.002) in
  let property_management :=
    effective_rent * get_or "pm_rate" investor_params 0.07 in
  let repairs_maintenance := purchase_price * 0.005 in
  let land_tax :=
    _calculate_land_tax
      (get_or "land_value" outgoings (purchase_price * 0.4))
      (get_or "total_land_holdings" investor_params 0) in
  let total_outgoings :=
    council_rates + water_rates + strata_levies + insurance
    + property_management + repairs_maintenance + land_tax in
  (* finance *)
  let lvr := match lvr finance with Some x => x | None => 0.8 end in
  let interest_rate :=
    match interest_rate finance with Some x => x | None => 0.065 end in
  let loan_type :=
    match loan_type finance with
    | Some s => s
    | None => "interest_only"
    end in
  let loan_amount := purchase_price * lvr in
  let deposit_required := purchase_price * (1 - lvr) in
  payments <- loan_payments loan_type loan_amount interest_rate ;;
  let '(annual_interest, annual_principal) := payments in
  (* cash flow *)
  let net_operating_income := effective_rent - total_outgoings in
  let pre_tax_cash_flow :=
    net_operating_income - annual_interest - annual_principal in
  (* tax impact *)
  let annual_depreciation := depreciation purchase_price outgoings in
  let total_deductions :=
    total_outgoings + annual_interest + annual_depreciation in
  let taxable_income_impact := effective_rent - total_deductions in
  let marginal_tax_rate :=
    get_or "marginal_tax_rate" investor_params 0.37 in
  let '(after_tax_cash_flow, gearing_status, benefit_or_liability) :=
    if Num.ltb taxable_income_impact 0 then
      let tax_benefit := Num.abs taxable_income_impact * marginal_tax_rate in
      (pre_tax_cash_flow + tax_benefit, NEGATIVE, tax_benefit)
    else
      let tax_liability := taxable_income_impact * marginal_tax_rate in
      (pre_tax_cash_flow - tax_liability, POSITIVE, - tax_liability) in
  (* yields *)
  gross <- Num.truediv annual_rent purchase_price ;;
  let gross_yield := gross * 100 in
  net <- Num.truediv net_operating_income purchase_price ;;
  let net_yield := net * 100 in
  (* returns *)
  let equity_invested :=
    deposit_required + _calculate_acquisition_costs purchase_price in
  coc <- Num.truediv after_tax_cash_flow equity_invested ;;
  let cash_on_cash_return := coc * 100 in
  Ok (CashFlow
        (Summary (Num.round gross_yield 2) (Num.round net_yield 2)
                 (Num.round cash_on_cash_return 2) gearing_status
                 (Num.round (after_tax_cash_flow / 52) 2)
                 (Num.round (after_tax_cash_flow / 12) 2)
                 (Num.round after_tax_cash_flow 2))
        (Income weekly_rent annual_rent (annual_rent * vacancy_rate)
                effective_rent)
        (Outgoings council_rates water_rates
                   (if Qeq_bool strata_levies 0 then 0
                    else strata_levies * 4)
                   insurance property_management repairs_maintenance
                   land_tax total_outgoings)
        (Finance purchase_price loan_amount deposit_required (lvr * 100)
                 (interest_rate * 100) annual_interest annual_principal)
        (Tax annual_depreciation total_deductions taxable_income_impact
             (marginal_tax_rate * 100) benefit_or_liability)
        (_get_acquisition_costs_breakdown purchase_price)).

End Model.

(** Helpers to run the model on examples: acquisition costs of 5% of the
    price. *)
Definition five_percent_costs (price : Q) : Q := price * 0.05.
Definition no_breakdown (price : Q) : unit := tt.

Definition default_finance : finance_params := FinanceParams None None None.

Definition p_and_i (rate : Q) : finance_params :=
  FinanceParams None (Some rate) (Some "principal_and_interest").

(** The loan is interest-only, as it is when no loan type is given. *)
Definition interest_only (finance : finance_params) : bool :=
  String.eqb (match loan_type finance with
              | Some s => s
              | None => "interest_only"
              end) "interest_only".

(** A loan of the whole price, and a purchase without acquisition
    costs. *)
Definition whole_price_loan : finance_params :=
  FinanceParams (Some 1) None None.
Definition no_costs (price : Q) : Q := 0.

End InvestorCashFlowModel.

(* ================================================================== *)
(** * [CoolingOffCalculator]: the cooling-off deadline                  *)
(* ================================================================== *)

Module CoolingOffCalculator.

Import Py.
Open Scope Z_scope.
Open Scope list_scope.

(** A [datetime.date], as its proleptic Gregorian ordinal
    ([date.toordinal()]).  Dates run from 0001-01-01, ordinal 1, to
    [date.max] = 9999-12-31, ordinal 3652059. *)
Definition date : Type := Z.

Definition MAXORDINAL : Z := 3652059.

(** [d + timedelta(days=1)]: past [date.max] the addition raises
    OverflowError. *)
Definition next_day (d : date) : Py.result date :=
  if d + 1 <=? MAXORDINAL then Ok (d + 1) else Raise OverflowError.

(** [date.weekday()]: Monday is 0, Sunday is 6; ordinal 1 is a Monday. *)
Definition weekday (d : date) : Z := (d + 6) mod 7.

(** [current_date in vic_holidays]. *)
Definition contains (vic_holidays : list date) (d : date) : bool :=
  existsb (Z.eqb d) vic_holidays.

(** The [while clear_days < 3] loop of [_calculate_deadline]; [fuel]
    bounds the number of iterations, [None] is a loop that has not
    finished. *)
Fixpoint while_clear_days (fuel : nat) (vic_holidays : list date)
    (clear_days : Z) (current_date : date) : option (Py.result date) :=
  if clear_days <? 3 then
    match fuel with
    | O => None
    | S fuel =>
        match next_day current_date with
        | Raise e => Some (Raise e)
        | Ok current_date =>
            if weekday current_date >=? 5 then
              while_clear_days fuel vic_holidays clear_days current_date
            else if contains vic_holidays current_date then
              while_clear_days fuel vic_holidays clear_days current_date
            else
              while_clear_days fuel vic_holidays (clear_days + 1)
                               current_date
        end
    end
  else Some (Ok current_date).

Section Deadline.
(** [date.year], and the helper [_get_victorian_public_holidays], which
    the excerpt calls but does not define; it returns a finite
    collection of dates. *)
Variable year : date -> Z.
Variable _get_victorian_public_holidays : Z -> list date.

Definition _calculate_deadline (fuel : nat) (signed_date : date)
    : option (Py.result date) :=
  let vic_holidays := _get_victorian_public_holidays (year signed_date) in
  let clear_days := 0 in
  let current_date := signed_date in
  while_clear_days fuel vic_holidays clear_days current_date.
End Deadline.

(** A day that counts towards the three clear days. *)
Definition business_day (vic_holidays : list date) (d : date) : bool :=
  (weekday d <? 5) && negb (contains vic_holidays d).

(** The days after [d] up to and including [e]. *)
Definition days_after (d e : date) : list date :=
  map (fun i => d + Z.of_nat i) (seq 1 (Z.to_nat (e - d))).

Definition clear_days_between (vic_holidays : list date) (d e : date) : Z :=
  Z.of_nat (List.length (filter (business_day vic_holidays) (days_after d e))).


(** The weekend days that directly follow [d]. *)
Definition weekend_ahead (d : date) : nat :=
  if weekday d =? 4 then 2 else if weekday d =? 5 then 1 else 0.


(** Days from the signing day to the deadline when no holiday
    intervenes, by the weekday of signing. *)
Definition plain_offset (w : Z) : Z :=
  if w <=? 1 then 3 else if w <=? 4 then 5 else if w =? 5 then 4 else 3.

(** A year function and a holiday table to run the model on examples. *)
Definition no_year (d : date) : Z := 2025.
Definition no_holidays (y : Z) : list date := [].
Definition one_holiday (h : date) (y : Z) : list date := [h].

End CoolingOffCalculator.

(* ================================================================== *)
(** * [DueDiligenceComplianceTracker]: the CAV checklist               *)
(* ================================================================== *)

Module DueDiligenceComplianceTracker.

Import Py.
Open Scope Q_scope.
Open Scope string_scope.
Open Scope list_scope.

Definition newline : string := String (ascii_of_nat 10) EmptyString.

(** The docstring inside the braces is a string literal next to the
    first key, and adjacent literals are concatenated: the first key is
    the docstring followed by [property_information]. *)
Definition CAV_DUE_DILIGENCE_CHECKLIST : Dict.dict (list string) :=
  [ ((newline
      ++ "    Consumer Affairs Victoria Section 33B mandatory checklist items."
      ++ newline
      ++ "    Agents must provide this checklist to prospective buyers."
      ++ newline ++ "    " ++ "property_information")%string,
     [ "Certificate of Title search";
       "Company or business name search (if applicable)";
       "Plan of subdivision / strata plan";
       "Body corporate records (if applicable)";
       "Building approvals and permits";
       "Council zoning certificate" ]);
    ("financial_information",
     [ "Outstanding rates, taxes, charges";
       "Land tax status";
       "Outstanding body corporate fees (if applicable)" ]);
    ("physical_information",
     [ "Building inspection report";
       "Pest inspection report";
       "Swimming pool compliance (if applicable)" ]);
    ("planning_information",
     [ "Current zoning";
       "Planning overlays";
       "Proposed developments nearby" ]);
    ("safety_information",
     [ "Flood risk";
       "Bushfire risk";
       "Contamination risk" ]) ].

Record completion_status (R : Type) : Type := {
  completion_rate : Q;
  completed : list string;
  pending : list string;
  not_applicable : list string;
  ready_for_purchase : bool;
  recommendations : R
}.

Section Tracker.
Context {analysis R : Type}.
(** The two helpers the excerpt calls but does not define. *)
Variable _check_item_status : string -> analysis -> string.
Variable _get_priority_actions : list string -> R.

(** The body of the inner loop, on the three lists. *)
Definition check_item (property_analysis : analysis)
    (lists : list string * list string * list string) (item : string)
    : list string * list string * list string :=
  let '(completed, pending, not_applicable) := lists in
  let status := _check_item_status item property_analysis in
  if String.eqb status "COMPLETE" then
    (completed ++ [item], pending, not_applicable)
  else if String.eqb status "N/A" then
    (completed, pending, not_applicable ++ [item])
  else
    (completed, pending ++ [item], not_applicable).

Definition get_completion_status (property_analysis : analysis)
    : Py.result (completion_status R) :=
  let '(completed, pending, not_applicable) :=
    fold_left
      (fun lists '(category, items) =>
         fold_left (check_item property_analysis) items lists)
      (Dict.items CAV_DUE_DILIGENCE_CHECKLIST)
      ([], [], []) in
  let total_applicable :=
    (Z.of_nat (List.length completed) + Z.of_nat (List.length pending))%Z in
  completion_rate <-
    (if (0 <? total_applicable)%Z then
       ratio <- Num.truediv (inject_Z (Z.of_nat (List.length completed)))
                            (inject_Z total_applicable) ;;
       Ok (ratio * 100)
     else Ok 0) ;;
  Ok {| completion_rate := Num.round completion_rate 1;
        completed := completed;
        pending := pending;
        not_applicable := not_applicable;
        ready_for_purchase := Num.leb 90 completion_rate;
        recommendations := _get_priority_actions pending |}.

(** The three classes of items, as tests on the status. *)
Definition is_complete (property_analysis : analysis) (item : string)
    : bool :=
  String.eqb (_check_item_status item property_analysis) "COMPLETE".

Definition is_not_applicable (property_analysis : analysis)
    (item : string) : bool :=
  negb (is_complete property_analysis item)
  && String.eqb (_check_item_status item property_analysis) "N/A".

Definition is_pending (property_analysis : analysis) (item : string)
    : bool :=
  negb (is_complete property_analysis item)
  && negb (is_not_applicable property_analysis item).
End Tracker.

(** Every item of the checklist, in the order of the dictionary. *)
Definition checklist_items : list string :=
  List.concat (Dict.values CAV_DUE_DILIGENCE_CHECKLIST).

End DueDiligenceComplianceTracker.

(* ================================================================== *)
(** * [VicPlanIntegration]: the development potential                   *)
(* ================================================================== *)

Module VicPlanIntegration.

Import Py.
Open Scope Z_scope.
Open Scope string_scope.
Open Scope list_scope.

(** [x in l] for a list of strings. *)
Definition contains (l : list string) (x : string) : bool :=
  existsb (String.eqb x) l.

Definition restrictive_overlays : list string :=
  ["HO"; "NCO"; "SBO"; "LSIO"; "BMO"; "EAO"].

Definition blocking_overlays : list string := ["PAO"].

Definition base_scores : Dict.dict Z :=
  [("HIGH", 80); ("MODERATE", 60); ("LIMITED", 40); ("VERY LIMITED", 20)].

(** The parts of [planning_info] the method reads: the ["rules"] of
    [planning_info["zone"]], with their string entries, and
    [planning_info["overlays"]].  [get_planning_info] sets ["rules"] only
    for a zone code of [VICTORIAN_RESIDENTIAL_ZONES]; [None] is a zone
    dictionary without that key. *)
Record planning_info (overlay : Type) : Type := PlanningInfo {
  zone_rules : option (Dict.dict string);
  overlays : list overlay
}.

(** The two shapes of the returned dictionary: a key that is absent is
    [None]. *)
Record development_potential (overlay R : Type) : Type := {
  score : Z;
  rating : string;
  reason : option string;
  restrictions : option (list overlay);
  recommendations : option R
}.

Section Potential.
Context {overlay R : Type}.
(** [o["code"]] of an overlay, and the two helpers the excerpt calls
    but does not define. *)
Variable code : overlay -> string.
Variable _score_to_rating : Z -> string.
Variable _get_development_recommendations : planning_info overlay -> R.

Definition _calculate_development_potential
    (info : planning_info overlay)
    : Py.result (development_potential overlay R) :=
  match zone_rules info with
  | None => Raise KeyError       (* planning_info["zone"]["rules"] *)
  | Some rules =>
      let base_potential :=
        match Dict.get "development_potential" rules with
        | Some p => p
        | None => "UNKNOWN"
        end in
      let restrictions :=
        filter (fun o => contains restrictive_overlays (code o))
               (overlays info) in
      let blockers :=
        filter (fun o => contains blocking_overlays (code o))
               (overlays info) in
      match blockers with
      | _ :: _ =>
          Ok {| score := 0; rating := "BLOCKED";
                reason := Some "Public acquisition overlay";
                restrictions := None; recommendations := None |}
      | [] =>
          let score_reduction :=
            Z.of_nat (List.length restrictions) * 15 in
          let final_score :=
            Z.max 0 (match Dict.get base_potential base_scores with
                     | Some s => s
                     | None => 50
                     end - score_reduction) in
          Ok {| score := final_score;
                rating := _score_to_rating final_score;
                reason := None;
                restrictions := Some restrictions;
                recommendations :=
                  Some (_get_development_recommendations info) |}
      end
  end.
End Potential.

(** Overlays given by their code alone, to run the model on examples. *)
Definition by_code (c : string) : string := c.
Definition plain_rating (s : Z) : string := "RATED".
Definition no_recommendations (info : planning_info string) : unit := tt.

Definition growth_zone : Dict.dict string :=
  [("name", "Residential Growth Zone"); ("development_potential", "HIGH")].

End VicPlanIntegration.

(* ================================================================== *)
(** * [ComparableSalesAnalyzer]: the asking price against the median    *)
(* ================================================================== *)

Module ComparableSalesAnalyzer.

Import Py.
Open Scope Q_scope.
Open Scope string_scope.
Open Scope list_scope.

Definition _assess_pricing (premium_discount : Q) : string :=
  if Num.ltb premium_discount (-10) then
    "SIGNIFICANTLY BELOW MARKET - investigate why"
  else if Num.ltb premium_discount (-5) then
    "BELOW MARKET - potential value"
  else if Num.ltb premium_discount 5 then
    "AT MARKET - fair pricing"
  else if Num.ltb premium_discount 10 then
    "ABOVE MARKET - negotiate"
  else
    "SIGNIFICANTLY ABOVE MARKET - strong negotiation needed".

Record comparison : Type := {
  asking_price : Q;
  median_comparable : Q;
  premium_discount_percent : Q;
  assessment : string
}.

(** The block of [analyze] that fills [results["subject_vs_comparables"]],
    from the asking price and the median sale price of the comparables.
    The premium is computed on the exact values; a binary float can put
    an asking price that sits on a threshold (110% of the median, say) on
    either side of it. *)
Definition subject_vs_comparables (asking_price median_price : Q)
    : Py.result comparison :=
  ratio <- Num.truediv (asking_price - median_price) median_price ;;
  let premium_discount := ratio * 100 in
  Ok {| asking_price := asking_price;
        median_comparable := median_price;
        premium_discount_percent := Num.round premium_discount 1;
        assessment := _assess_pricing premium_discount |}.

(** The five assessments, from the cheapest to the dearest. *)
Definition assessment_rank (assessment : string) : nat :=
  if String.eqb assessment "SIGNIFICANTLY BELOW MARKET - investigate why"
  then 0
  else if String.eqb assessment "BELOW MARKET - potential value" then 1
  else if String.eqb assessment "AT MARKET - fair pricing" then 2
  else if String.eqb assessment "ABOVE MARKET - negotiate" then 3
  else 4.

End ComparableSalesAnalyzer.

(* ================================================================== *)
(** * Facts about the run-time model                                    *)
(* ================================================================== *)

Unset Implicit Arguments.

Module NumFacts.
Import Num.
Open Scope Q_scope.

Lemma ltb_lt (x y : Q) : ltb x y = true <-> x < y.
Proof.
  unfold ltb. rewrite negb_true_iff, <- not_true_iff_false, Qle_bool_iff.
  split; [apply Qnot_le_lt | apply Qlt_not_le].
Qed.

Lemma ltb_ge (x y : Q) : ltb x y = false <-> y <= x.
Proof.
  unfold ltb. rewrite negb_false_iff. apply Qle_bool_iff.
Qed.

(** [round_half_even] is within one half of its argument. *)
Lemma round_half_even_near (x : Q) :
  x - (1#2) <= inject_Z (round_half_even x) /\
  inject_Z (round_half_even x) <= x + (1#2).
Proof.
  unfold round_half_even.
  pose proof (Qfloor_le x) as Hlo.
  pose proof (Qlt_floor x) as Hhi.
  rewrite inject_Z_plus in Hhi. change (inject_Z 1) with 1 in Hhi.
  set (f := Qfloor x) in *.
  destruct (Qcompare (x - inject_Z f) (1 # 2)) eqn:Hc.
  - apply Qeq_alt in Hc.
    destruct (Z.even f); rewrite ?inject_Z_plus;
      change (inject_Z 1) with 1; split; lra.
  - apply Qlt_alt in Hc. split; lra.
  - apply Qgt_alt in Hc. rewrite inject_Z_plus.
    change (inject_Z 1) with 1. split; lra.
Qed.

(** Rounding depends on the value, not on the fraction that denotes it. *)
#[export] Instance round_half_even_comp :
  Proper (Qeq ==> eq) round_half_even.
Proof.
  intros x y Hxy. unfold round_half_even.
  rewrite (Qfloor_comp x y Hxy).
  assert (Hd : x - inject_Z (Qfloor y) == y - inject_Z (Qfloor y))
    by (rewrite Hxy; reflexivity).
  now rewrite (Qcompare_comp _ _ Hd (1#2) (1#2) (Qeq_refl _)).
Qed.


Lemma round1_eq (x : Q) :
  round x 1 == inject_Z (round_half_even (x * 10)) / 10.
Proof. unfold round. rewrite Qred_correct. reflexivity. Qed.

(** [round(x, 1)] moves [x] by at most 0.05 ... *)
Lemma round1_near (x : Q) :
  x - (1#20) <= round x 1 /\ round x 1 <= x + (1#20).
Proof.
  rewrite round1_eq.
  destruct (round_half_even_near (x * 10)) as [Hlo Hhi].
  set (k := inject_Z (round_half_even (x * 10))) in *.
  assert (Hk : k / 10 == k * (1#10)) by (unfold Qdiv; reflexivity).
  rewrite Hk. split; lra.
Qed.

(** ... and never across a multiple of 0.1. *)
Lemma round1_le_grid (x : Q) (m : Z) :
  x <= inject_Z m / 10 -> round x 1 <= inject_Z m / 10.
Proof.
  intros Hx. rewrite round1_eq.
  destruct (round_half_even_near (x * 10)) as [_ Hhi].
  unfold Qdiv in *. change (/ 10) with (1#10) in *.
  assert (Hk : (round_half_even (x * 10) <= m)%Z).
  { apply Z.lt_succ_r. rewrite Zlt_Qlt.
    unfold Z.succ. rewrite inject_Z_plus. change (inject_Z 1) with 1.
    lra. }
  rewrite Zle_Qle in Hk. lra.
Qed.

Lemma round1_ge_grid (x : Q) (m : Z) :
  inject_Z m / 10 <= x -> inject_Z m / 10 <= round x 1.
Proof.
  intros Hx. rewrite round1_eq.
  destruct (round_half_even_near (x * 10)) as [Hlo _].
  unfold Qdiv in *. change (/ 10) with (1#10) in *.
  assert (Hk : (m <= round_half_even (x * 10))%Z).
  { apply Z.lt_succ_r. rewrite Zlt_Qlt.
    unfold Z.succ. rewrite inject_Z_plus. change (inject_Z 1) with 1.
    lra. }
  rewrite Zle_Qle in Hk. lra.
Qed.

Lemma sum_from (xs : list Q) (a : Q) :
  fold_left Qplus xs a == a + sum xs.
Proof.
  unfold sum. revert a.
  induction xs as [|x xs IH]; intros a; cbn [fold_left].
  - lra.
  - rewrite IH, (IH (0 + x)). lra.
Qed.

Lemma sum_cons (x : Q) (xs : list Q) : sum (x :: xs) == x + sum xs.
Proof. unfold sum at 1. cbn [fold_left]. rewrite sum_from. lra. Qed.

Lemma sum_scale {A : Type} (f : A -> Q) (c : Q) (l : list A) :
  sum (map (fun x => f x * c) l) == sum (map f l) * c.
Proof.
  induction l as [|x l IH]; cbn [map].
  - reflexivity.
  - rewrite !sum_cons, IH. lra.
Qed.


Section SortedReverse.
Context {A : Type} (key : A -> Q).

Lemma insert_reverse_perm (x : A) (l : list A) :
  Permutation (insert_reverse key x l) (x :: l).
Proof.
  induction l as [|y l IH]; cbn [insert_reverse].
  - reflexivity.
  - destruct (gtb (key y) (key x)).
    + rewrite IH. apply perm_swap.
    + reflexivity.
Qed.

Lemma sorted_reverse_perm (l : list A) :
  Permutation (sorted_reverse key l) l.
Proof.
  induction l as [|x l IH]; cbn [sorted_reverse fold_right].
  - reflexivity.
  - fold (sorted_reverse key l). rewrite insert_reverse_perm.
    now apply perm_skip.
Qed.

Lemma insert_reverse_sorted (x : A) (l : list A) :
  StronglySorted (descending key) l ->
  StronglySorted (descending key) (insert_reverse key x l).
Proof.
  induction 1 as [|y l Hs IH Hy]; cbn [insert_reverse].
  - repeat constructor.
  - destruct (gtb (key y) (key x)) eqn:Hg.
    + apply ltb_lt in Hg. constructor; [exact IH|].
      apply (Permutation_Forall
               (Permutation_sym (insert_reverse_perm x l))).
      constructor; [|exact Hy]. unfold descending. lra.
    + apply ltb_ge in Hg. constructor; [now constructor|].
      constructor; [exact Hg|].
      eapply Forall_impl; [|exact Hy].
      unfold descending. intros u Hu. lra.
Qed.

Lemma sorted_reverse_sorted (l : list A) :
  StronglySorted (descending key) (sorted_reverse key l).
Proof.
  induction l as [|x l IH]; cbn [sorted_reverse fold_right].
  - constructor.
  - now apply insert_reverse_sorted.
Qed.

(** Equal keys keep their order: the sort is stable. *)
Lemma insert_reverse_stable (x : A) (l : list A) :
  Forall (fun y => key y <= key x) l -> insert_reverse key x l = x :: l.
Proof.
  destruct 1 as [|y l Hy _]; cbn [insert_reverse]; [reflexivity|].
  apply ltb_ge in Hy. unfold gtb. now rewrite Hy.
Qed.

Lemma sorted_firstn_skipn (n : nat) (l : list A) :
  StronglySorted (descending key) l ->
  forall s u, In s (firstn n l) -> In u (skipn n l) -> key u <= key s.
Proof.
  intros Hs. revert n.
  induction Hs as [|y l Hs IH Hy]; intros [|n] s u Hin Hout;
    cbn in Hin, Hout; try contradiction.
  destruct Hin as [<-|Hin].
  - rewrite Forall_forall in Hy. apply Hy.
    rewrite <- (firstn_skipn n l). apply in_or_app. now right.
  - now apply (IH n).
Qed.

Lemma sorted_firstn (n : nat) (l : list A) :
  StronglySorted (descending key) l ->
  StronglySorted (descending key) (firstn n l).
Proof.
  intros Hs. revert n.
  induction Hs as [|y l Hs IH Hy]; intros [|n]; cbn [firstn];
    try constructor.
  - apply IH.
  - rewrite Forall_forall in *. intros u Hu. apply Hy.
    rewrite <- (firstn_skipn n l). apply in_or_app. now left.
Qed.
End SortedReverse.

Example round_ties_to_even :
  round 0.25 1 == 0.2 /\ round 0.75 1 == 0.8 /\ round (-0.25) 1 == -0.2.
Proof. repeat split; reflexivity. Qed.

End NumFacts.

Module DictFacts.

Lemma set_fresh {V : Type} (k : string) (v : V) (d : Dict.dict V) :
  ~ In k (Dict.keys d) -> Dict.set k v d = d ++ [(k, v)].
Proof.
  induction d as [|[k' v'] d IH]; cbn [Dict.set Dict.keys map fst app In];
    intros Hk.
  - reflexivity.
  - destruct (String.eqb_spec k k') as [->|Hne].
    + exfalso. apply Hk. now left.
    + rewrite IH; [reflexivity|]. intros Hin. apply Hk. now right.
Qed.

Lemma keys_app {V : Type} (d1 d2 : Dict.dict V) :
  Dict.keys (d1 ++ d2) = Dict.keys d1 ++ Dict.keys d2.
Proof. apply map_app. Qed.

Lemma get_set {V : Type} (k : string) (v : V) (d : Dict.dict V) :
  Dict.get k (Dict.set k v d) = Some v.
Proof.
  induction d as [|[k' v'] d IH]; cbn [Dict.set Dict.get].
  - now rewrite String.eqb_refl.
  - destruct (String.eqb_spec k k') as [->|Hne]; cbn [Dict.get].
    + now rewrite String.eqb_refl.
    + apply String.eqb_neq in Hne. now rewrite Hne.
Qed.

End DictFacts.

(* ================================================================== *)
(** * The risk scorer                                                   *)
(* ================================================================== *)

Module PropertyRiskScorerFacts.
Import Py Num NumFacts DictFacts PropertyRiskScorer.
Open Scope Q_scope.
Open Scope string_scope.
Open Scope list_scope.

(** C5.  For every overall score [s] in [0,100], the rating is LOW if
    [s < 20], MODERATE if [20 <= s < 40], ELEVATED if [40 <= s < 60],
    HIGH if [60 <= s < 80], and CRITICAL otherwise. *)
Theorem score_to_rating_bands (s : Q) :
  0 <= s -> s <= 100 ->
  (s < 20 -> _score_to_rating s = LOW) /\
  (20 <= s -> s < 40 -> _score_to_rating s = MODERATE) /\
  (40 <= s -> s < 60 -> _score_to_rating s = ELEVATED) /\
  (60 <= s -> s < 80 -> _score_to_rating s = HIGH) /\
  (80 <= s -> _score_to_rating s = CRITICAL).
Proof.
  intros _ _. unfold _score_to_rating.
  destruct (ltb s 20) eqn:H20; [apply ltb_lt in H20 | apply ltb_ge in H20];
  (destruct (ltb s 40) eqn:H40; [apply ltb_lt in H40 | apply ltb_ge in H40]);
  (destruct (ltb s 60) eqn:H60; [apply ltb_lt in H60 | apply ltb_ge in H60]);
  (destruct (ltb s 80) eqn:H80; [apply ltb_lt in H80 | apply ltb_ge in H80]);
  repeat split; intros; try reflexivity; exfalso; lra.
Qed.

Lemma score_to_rating_bands_witness : _score_to_rating 45 = ELEVATED.
Proof.
  refine (proj1 (proj2 (proj2 (score_to_rating_bands 45 _ _))) _ _);
    unfold Qle, Qlt; simpl; lia.
Defined.

Example ratings_at_the_band_edges :
  map _score_to_rating [0; 19.9; 20; 39.9; 40; 59.9; 60; 79.9; 80; 100]
  = [LOW; LOW; MODERATE; MODERATE; ELEVATED; ELEVATED; HIGH; HIGH;
     CRITICAL; CRITICAL].
Proof. reflexivity. Qed.

(** ** The shipped table *)

Lemma RISK_WEIGHTS_keys_NoDup : NoDup (Dict.keys RISK_WEIGHTS).
Proof.
  repeat (constructor; [cbn; intuition discriminate|]). constructor.
Defined.


Lemma value_in_cases (x : option value) (l : list string) :
  value_in x l = true \/ value_in x l = false.
Proof. destruct (value_in x l); auto. Qed.

(** Six of the seven shipped categories apply to every property, so with
    [RISK_WEIGHTS] the total weight of the applicable categories is 0.9 or
    1: the default of 50 is not reached with the shipped table. *)
Lemma RISK_WEIGHTS_applicable_weight (a : analyses) :
  applicable_weight RISK_WEIGHTS a == 0.9 \/
  applicable_weight RISK_WEIGHTS a == 1.
Proof.
  unfold applicable_weight, present, Dict.items, RISK_WEIGHTS.
  cbn [filter snd counted applies_to].
  destruct (value_in (Dict.get "property_type" a)
                     ["apartment"; "townhouse"; "unit"]);
    [right | left]; reflexivity.
Qed.

Section Scorer.
Context {confidence : Type}.
Variable _get_factor_score : analyses -> string -> string -> Q.
Variable _calculate_confidence : analyses -> confidence.

Local Abbreviation calc :=
  (calculate_risk_score_with _get_factor_score _calculate_confidence).
Local Abbreviation cats := (score_categories _get_factor_score).
Local Abbreviation exact := (exact_category_score _get_factor_score).
Local Abbreviation entry := (breakdown_entry _get_factor_score).

(** The loop guard and the [max_possible] filter agree. *)
Lemma skipped_counted (a : analyses) (cfg : config) :
  skipped a cfg = negb (counted a cfg).
Proof. unfold skipped, counted. destruct (applies_to cfg); reflexivity. Qed.

(** ** The division is guarded *)

Lemma normalized_score_returns (total max : Q) :
  exists q, normalized_score total max = Ok q.
Proof.
  unfold normalized_score, truediv.
  destruct (gtb max 0) eqn:Hpos; [|eauto].
  apply ltb_lt in Hpos.
  destruct (Qeq_bool max 0) eqn:Hz; [|cbn; eauto].
  apply Qeq_bool_eq in Hz. lra.
Qed.

Lemma normalized_score_positive (total max : Q) :
  0 < max -> normalized_score total max = Ok (total / max * 100).
Proof.
  intros Hpos. unfold normalized_score, truediv.
  assert (Hg : gtb max 0 = true) by (apply ltb_lt; exact Hpos).
  rewrite Hg.
  destruct (Qeq_bool max 0) eqn:Hz; [|reflexivity].
  apply Qeq_bool_eq in Hz. lra.
Qed.

Lemma normalized_score_default (total max : Q) :
  max <= 0 -> normalized_score total max = Ok 50.
Proof.
  intros Hle. unfold normalized_score.
  assert (Hg : gtb max 0 = false) by (apply ltb_ge; exact Hle).
  now rewrite Hg.
Qed.

Lemma calculate_risk_score_with_returns weights a :
  exists r, calc weights a = Ok r.
Proof.
  unfold calculate_risk_score_with.
  destruct (normalized_score_returns
              (total_score (cats weights a))
              (max_possible weights a)) as [q Hq].
  rewrite Hq. cbn. eauto.
Qed.

(** ** Categories that do not apply *)

Lemma max_possible_mid before name cfg after a :
  counted a cfg = false ->
  max_possible (before ++ (name, cfg) :: after) a
  = max_possible (before ++ after) a.
Proof.
  intros H. unfold max_possible, Dict.items.
  rewrite !filter_app. cbn [filter snd]. now rewrite H.
Qed.

Lemma score_categories_mid before name cfg after a :
  counted a cfg = false ->
  cats (before ++ (name, cfg) :: after) a = cats (before ++ after) a.
Proof.
  intros H. unfold score_categories, Dict.items.
  rewrite !fold_left_app. cbn [fold_left].
  rewrite skipped_counted, H. reflexivity.
Qed.

Lemma calc_mid before name cfg after a :
  counted a cfg = false ->
  calc (before ++ (name, cfg) :: after) a = calc (before ++ after) a.
Proof.
  intros H. unfold calculate_risk_score_with.
  now rewrite score_categories_mid, max_possible_mid.
Qed.

(** All the categories that do not apply can be dropped at once. *)
Lemma present_present weights a :
  present (present weights a) a = present weights a.
Proof.
  unfold present, Dict.items.
  induction weights as [|kv ws IH]; cbn [filter]; [reflexivity|].
  destruct (counted a (snd kv)) eqn:Hc; cbn [filter]; [|exact IH].
  now rewrite Hc, IH.
Qed.

Lemma score_categories_only_present weights a :
  cats weights a = cats (present weights a) a.
Proof.
  unfold score_categories, present, Dict.items.
  generalize (@Dict.empty category_score).
  induction weights as [|[category cfg] ws IH]; intros acc;
    cbn [fold_left filter snd]; [reflexivity|].
  rewrite skipped_counted.
  destruct (counted a cfg) eqn:Hc; cbn [negb fold_left].
  - rewrite skipped_counted, Hc. cbn [negb]. apply IH.
  - apply IH.
Qed.

Lemma only_present_categories_count weights a :
  calc weights a = calc (present weights a) a.
Proof.
  unfold calculate_risk_score_with.
  rewrite <- score_categories_only_present.
  unfold max_possible.
  change (filter (fun kv => counted a (snd kv))
                 (Dict.items (present weights a)))
    with (present (present weights a) a).
  now rewrite present_present.
Qed.

(** ** The category loop, when the category keys are distinct *)

Lemma score_categories_from weights a acc :
  NoDup (Dict.keys acc ++ Dict.keys weights) ->
  fold_left
    (fun (category_scores : Dict.dict category_score)
         (kv : string * config) =>
       let '(category, cfg) := kv in
       if skipped a cfg then category_scores
       else
         let '(cat_score, details) :=
           score_factors _get_factor_score a category (factors cfg) in
         Dict.set category
           (CategoryScore (Num.round cat_score 1) (weight cfg)
              (Num.round (cat_score * weight cfg) 1) details)
           category_scores)
    weights acc
  = acc ++ map (entry a) (present weights a).
Proof.
  revert acc.
  induction weights as [|[category cfg] ws IH]; intros acc Hnd;
    cbn [fold_left].
  - cbn. now rewrite app_nil_r.
  - unfold present, Dict.items. cbn [filter snd].
    rewrite skipped_counted.
    cbn [Dict.keys map fst] in Hnd.
    destruct (counted a cfg) eqn:Hc; cbn [negb].
    + destruct (score_factors _get_factor_score a category (factors cfg))
        as [cat_score details] eqn:Hsf.
      rewrite set_fresh.
      * rewrite IH.
        -- rewrite <- app_assoc. cbn [app map].
           unfold breakdown_entry at 2.
           unfold exact_category_score. cbn [fst snd]. rewrite Hsf.
           reflexivity.
        -- rewrite keys_app. cbn [Dict.keys map fst].
           rewrite <- app_assoc. exact Hnd.
      * apply NoDup_remove_2 in Hnd. intros Hin. apply Hnd.
        apply in_or_app. now left.
    + apply IH. apply NoDup_remove_1 in Hnd. exact Hnd.
Qed.

Lemma score_categories_present weights a :
  NoDup (Dict.keys weights) ->
  cats weights a = map (entry a) (present weights a).
Proof.
  intros Hnd. unfold score_categories, Dict.items, Dict.empty.
  now rewrite score_categories_from.
Qed.

Lemma total_score_present weights a :
  NoDup (Dict.keys weights) ->
  total_score (cats weights a)
  = sum (map (fun kv => round (exact a kv * weight (snd kv)) 1)
             (present weights a)).
Proof.
  intros Hnd. unfold total_score, Dict.values.
  rewrite score_categories_present by exact Hnd.
  now rewrite !map_map.
Qed.

Lemma max_possible_weight weights a :
  max_possible weights a == applicable_weight weights a * 100.
Proof.
  unfold max_possible, applicable_weight, present.
  apply (sum_scale (fun kv : string * config => weight (snd kv))).
Qed.

(** ** The top factors *)

(** C3, as the code has it.  [top_risk_factors] holds the five factors
    with the highest raw score across all categories (all of them when
    there are fewer), in descending order of raw score. *)
Theorem top_risk_factors_by_raw_score weights a :
  returns (calc weights a)
    (fun r =>
       top_by top_score 5 (all_factors (category_breakdown r))
              (top_risk_factors r) /\
       StronglySorted (descending top_score) (top_risk_factors r)).
Proof.
  destruct (calculate_risk_score_with_returns weights a) as [r Hr].
  exists r. split; [exact Hr|].
  unfold calculate_risk_score_with in Hr.
  destruct (normalized_score _ _) as [q|e]; cbn [bind] in Hr;
    [|discriminate].
  injection Hr as <-. cbn [category_breakdown top_risk_factors].
  unfold _get_top_risks.
  set (cands := all_factors (cats weights a)).
  pose proof (sorted_reverse_sorted top_score cands) as Hs.
  pose proof (sorted_reverse_perm top_score cands) as Hp.
  split.
  - exists (skipn 5 (sorted_reverse top_score cands)). repeat split.
    + rewrite firstn_skipn. now symmetry.
    + rewrite length_firstn. now rewrite (Permutation_length Hp).
    + intros s u Hin Hout.
      exact (sorted_firstn_skipn top_score 5 _ Hs s u Hin Hout).
  - now apply sorted_firstn.
Qed.

(** ** The overall score *)



(** ** The range of the overall score *)






(** ** The score against the breakdown that is reported *)

Lemma breakdown_total_present weights a :
  NoDup (Dict.keys weights) ->
  breakdown_total (cats weights a)
  = sum (map (fun kv => round (exact a kv * weight (snd kv)) 1)
             (present weights a)).
Proof. exact (total_score_present weights a). Qed.

Lemma breakdown_weight_present weights a :
  NoDup (Dict.keys weights) ->
  breakdown_weight (cats weights a) = max_possible weights a.
Proof.
  intros Hnd. unfold breakdown_weight, max_possible, Dict.values.
  rewrite score_categories_present by exact Hnd.
  now rewrite !map_map.
Qed.

Lemma breakdown_keys_present weights a :
  NoDup (Dict.keys weights) ->
  Dict.keys (cats weights a) = map fst (present weights a).
Proof.
  intros Hnd. unfold Dict.keys.
  rewrite score_categories_present by exact Hnd.
  now rewrite map_map.
Qed.

Lemma get_absent {V : Type} (k : string) (d : Dict.dict V) :
  ~ In k (Dict.keys d) -> Dict.get k d = None.
Proof.
  induction d as [|[k' v] d IH]; intros Hin; [reflexivity|].
  cbn [Dict.get]. destruct (String.eqb_spec k k') as [->|Hne].
  - exfalso. apply Hin. now left.
  - apply IH. intros H. apply Hin. now right.
Qed.

Lemma overall_is_composite weights a :
  NoDup (Dict.keys weights) ->
  0 < applicable_weight weights a ->
  returns (calc weights a)
    (fun r => overall_risk_score r = composite_of (category_breakdown r)).
Proof.
  intros Hnd Hpos. unfold returns, calculate_risk_score_with.
  pose proof (max_possible_weight weights a) as Hmax.
  rewrite normalized_score_positive by (rewrite Hmax; lra).
  cbn [bind]. eexists. split; [reflexivity|].
  cbn [overall_risk_score category_breakdown]. unfold composite_of.
  now rewrite breakdown_weight_present by exact Hnd.
Qed.

(** C2.  A category that does not apply to the property type is left
    out of the numerator and of the denominator.  The result is the one
    computed from the table without that category; the breakdown has
    no entry for it, not an entry with a zero score; the weights the
    score is divided by are those of the applicable categories of that
    smaller table; and the overall score is the composite of exactly
    that breakdown, the contributions of its categories over the
    weights of its categories. *)
Theorem inapplicable_category_excluded before name cfg after a :
  NoDup (Dict.keys (before ++ (name, cfg) :: after)) ->
  counted a cfg = false ->
  returns (calc (before ++ (name, cfg) :: after) a)
    (fun r =>
       calc (before ++ after) a = Ok r /\
       Dict.get name (category_breakdown r) = None /\
       Dict.keys (category_breakdown r)
       = map fst (present (before ++ after) a) /\
       breakdown_weight (category_breakdown r)
       = max_possible (before ++ after) a /\
       (0 < max_possible (before ++ after) a ->
        overall_risk_score r = composite_of (category_breakdown r))).
Proof.
  intros Hnd Hc.
  assert (Hnd' : NoDup (Dict.keys (before ++ after))).
  { unfold Dict.keys in *. rewrite map_app in *. cbn [map fst] in Hnd.
    now apply NoDup_remove_1 in Hnd. }
  assert (Hname : ~ In name (Dict.keys (before ++ after))).
  { unfold Dict.keys in *. rewrite map_app in *. cbn [map fst] in Hnd.
    now apply NoDup_remove_2 in Hnd. }
  rewrite (calc_mid before name cfg after a Hc).
  destruct (calculate_risk_score_with_returns (before ++ after) a)
    as [r Hr].
  exists r. split; [exact Hr|]. split; [exact Hr|].
  assert (Hb : category_breakdown r = cats (before ++ after) a).
  { unfold calculate_risk_score_with in Hr.
    destruct (normalized_score _ _); cbn [bind] in Hr; [|discriminate].
    injection Hr as <-. reflexivity. }
  rewrite Hb, (breakdown_keys_present _ _ Hnd'),
    (breakdown_weight_present _ _ Hnd').
  split; [|split; [reflexivity|split; [reflexivity|]]].
  - apply get_absent. rewrite (breakdown_keys_present _ _ Hnd').
    intros Hin. apply Hname. unfold present in Hin.
    apply in_map_iff in Hin. destruct Hin as (kv & <- & Hin).
    apply filter_In in Hin. destruct Hin as [Hin _].
    unfold Dict.keys. now apply in_map.
  - intros Hpos. rewrite max_possible_weight in Hpos.
    assert (Hpos' : 0 < applicable_weight (before ++ after) a) by lra.
    destruct (overall_is_composite (before ++ after) a Hnd' Hpos')
      as (r' & Hr' & Hov).
    rewrite Hr in Hr'. injection Hr' as <-. now rewrite <- Hb.
Qed.

(** ** The shipped table *)




(** ** Rating and reported score *)

Lemma round1_ltb_off_grid (x : Q) (T : Z) :
  ~ round x 1 == inject_Z T ->
  ltb (round x 1) (inject_Z T) = ltb x (inject_Z T).
Proof.
  intros Hne.
  assert (HT : inject_Z (10 * T) / 10 == inject_Z T).
  { rewrite inject_Z_mult. change (inject_Z 10) with 10. field. }
  destruct (ltb x (inject_Z T)) eqn:Hx.
  - apply ltb_lt in Hx. apply ltb_lt.
    assert (H : round x 1 <= inject_Z (10 * T) / 10)
      by (apply round1_le_grid; rewrite HT; lra).
    rewrite HT in H. apply Qle_lteq in H. destruct H as [H|H];
      [exact H | contradiction].
  - apply ltb_ge in Hx. apply ltb_ge.
    assert (H : inject_Z (10 * T) / 10 <= round x 1)
      by (apply round1_ge_grid; rewrite HT; lra).
    now rewrite HT in H.
Qed.

(** X1.  The rating is computed from the score before it is rounded:
    it is the band of a value within 0.05 of the score that is
    reported, and so the band of the reported score itself whenever
    that score is not exactly a band edge (20, 40, 60 or 80). *)
Theorem rating_of_reported_score (a : analyses) :
  returns (calculate_risk_score _get_factor_score _calculate_confidence a)
    (fun r =>
       (exists s, Qabs (s - overall_risk_score r) <= 1 # 20 /\
                  risk_rating r = _score_to_rating s) /\
       (~ overall_risk_score r == 20 -> ~ overall_risk_score r == 40 ->
        ~ overall_risk_score r == 60 -> ~ overall_risk_score r == 80 ->
        risk_rating r = _score_to_rating (overall_risk_score r))).
Proof.
  unfold returns, calculate_risk_score, calculate_risk_score_with.
  destruct (normalized_score_returns
              (total_score (cats RISK_WEIGHTS a))
              (max_possible RISK_WEIGHTS a)) as [q Hq].
  rewrite Hq. cbn [bind]. eexists. split; [reflexivity|].
  cbn [overall_risk_score risk_rating]. split.
  - exists q. split; [|reflexivity].
    destruct (round1_near q) as [Hlo Hhi].
    apply Qabs_Qle_condition. split; lra.
  - intros H20 H40 H60 H80. unfold _score_to_rating.
    change 20 with (inject_Z 20) in *. change 40 with (inject_Z 40) in *.
    change 60 with (inject_Z 60) in *. change 80 with (inject_Z 80) in *.
    now rewrite !round1_ltb_off_grid by assumption.
Qed.

End Scorer.

(** ** Repeated calls *)

Section Effects.
Context {world confidence : Type}.
Variable _get_factor_score :
  analyses -> string -> string -> world -> Q * world.
Variable _calculate_confidence : analyses -> world -> confidence * world.
(** What the helpers return when they are functions of their
    arguments. *)
Variable factor_score_of : analyses -> string -> string -> Q.
Variable confidence_of : analyses -> confidence.

Hypothesis factor_score_reads_only :
  forall a category f w,
    _get_factor_score a category f w = (factor_score_of a category f, w).
Hypothesis confidence_reads_only :
  forall a w, _calculate_confidence a w = (confidence_of a, w).




End Effects.


(** The hypothesis on the helpers is what the result rests on: with a
    factor score drawn from the world, two calls in a row with the same
    input return different records. *)
Example unrepeatable_with_a_drawn_score :
  let (first, w1) :=
    calculate_risk_score_in drawn_factor_score
      (pure_confidence no_confidence) house 0%nat in
  let (second, w2) :=
    calculate_risk_score_in drawn_factor_score
      (pure_confidence no_confidence) house w1 in
  first <> second /\ w1 = 27%nat /\ w2 = 54%nat.
Proof.
  vm_compute. split; [discriminate | split; reflexivity].
Qed.

Lemma inapplicable_category_excluded_witness :
  returns (calculate_risk_score (uniform_factor_score 50) no_confidence
             house)
    (fun r =>
       calculate_risk_score_with (uniform_factor_score 50) no_confidence
         NON_STRATA house = Ok r /\
       Dict.get "strata" (category_breakdown r) = None /\
       Dict.keys (category_breakdown r)
       = map fst (present NON_STRATA house) /\
       breakdown_weight (category_breakdown r)
       = max_possible NON_STRATA house /\
       (0 < max_possible NON_STRATA house ->
        overall_risk_score r = composite_of (category_breakdown r))).
Proof.
  exact (@inapplicable_category_excluded unit (uniform_factor_score 50)
           no_confidence (firstn 4 RISK_WEIGHTS) "strata" strata_config
           (skipn 5 RISK_WEIGHTS) house RISK_WEIGHTS_keys_NoDup eq_refl).
Defined.

(** A house is scored over the six other categories: with every factor
    at 50 the score is 50, over weights that sum to 0.9; counting strata
    as a zero score, over weights that sum to 1, would give 45. *)
Example house_not_scored_as_zero :
  returns (calculate_risk_score (uniform_factor_score 50) no_confidence
             house)
          (fun r => overall_risk_score r = 50 /\
                    breakdown_total (category_breakdown r) == 45 /\
                    breakdown_weight (category_breakdown r) == 90) /\
  returns (calculate_risk_score_with strata_zero_factor_score no_confidence
             STRATA_FOR_ALL house)
          (fun r => overall_risk_score r = 45 /\
                    breakdown_total (category_breakdown r) == 45 /\
                    breakdown_weight (category_breakdown r) == 100).
Proof.
  split; eexists; (split; [vm_compute; reflexivity | repeat split]).
Qed.


(** C3, counterexample.  The house of [house_with_light_factor] has a
    factor of raw score 100 and weight 0.10 (contribution 10) among its
    top five, and leaves out a factor of contribution 36. *)
Lemma top_risk_factors_not_by_contribution :
  ~ returns (calculate_risk_score lookup_factor_score no_confidence
               house_with_light_factor)
      (fun r => top_by impact 5 (all_factors (category_breakdown r))
                       (top_risk_factors r)).
Proof.
  intros [r [Hr [rest [Hperm [_ Hkey]]]]].
  vm_compute in Hr. injection Hr as <-.
  match type of Hkey with
  | context [top_risk_factors ?x] => set (r0 := x) in *
  end.
  pose (p := TopRisk "financial" "price_vs_comparables" 90 (90 * 0.40)).
  pose (s := TopRisk "environmental" "social_housing_density" 100
                     (100 * 0.10)).
  assert (Hp : In p rest).
  { assert (H : In p (top_risk_factors r0 ++ rest)).
    { eapply Permutation_in; [exact Hperm|].
      vm_compute. repeat (first [left; reflexivity | right]). }
    subst r0; cbn [top_risk_factors] in H.
    apply in_app_or in H. destruct H as [H|H]; [|exact H].
    exfalso. vm_compute in H.
    repeat (destruct H as [H|H]; [discriminate H|]). exact H. }
  assert (Hle : impact p <= impact s).
  { apply Hkey; [|exact Hp]. vm_compute. left. reflexivity. }
  vm_compute in Hle. apply Hle. reflexivity.
Qed.


Example uniform_house_scores :
  returns (calculate_risk_score (uniform_factor_score 10.3) no_confidence
             house)
          (fun r => overall_risk_score r == 10.1 /\ risk_rating r = LOW) /\
  weighted_mean (uniform_factor_score 10.3) RISK_WEIGHTS house == 10.3.
Proof.
  split; [eexists; split; [vm_compute; reflexivity|]|];
    repeat split; reflexivity.
Qed.

End PropertyRiskScorerFacts.

(* ================================================================== *)
(** * The property-input form                                           *)
(* ================================================================== *)

Module PropertyInputFacts.
Import PropertyInput.
Open Scope string_scope.

Lemma prefix_app (p s : string) :
  String.prefix p s = true <-> exists t, s = p ++ t.
Proof.
  revert s. induction p as [|c p IH]; intros s.
  - split; [intros _; now exists s | intros _; now destruct s].
  - destruct s as [|c' s]; cbn [String.prefix].
    + split; [discriminate | intros [t Ht]; discriminate Ht].
    + destruct (Ascii.ascii_dec c c') as [<-|Hne].
      * rewrite IH. split; intros [t Ht]; exists t.
        -- cbn. now rewrite Ht.
        -- cbn in Ht. now injection Ht.
      * split; [discriminate|].
        intros [t Ht]. cbn in Ht. injection Ht as Hc _. congruence.
Qed.

(** [includes] decides the occurrence of the needle. *)
Lemma includes_substring (s needle : string) :
  includes s needle = true <-> substring_of needle s.
Proof.
  unfold substring_of. induction s as [|c s IH]; cbn [includes].
  - destruct (String.prefix needle "") eqn:Hp.
    + split; [intros _|reflexivity].
      apply prefix_app in Hp. destruct Hp as [t Ht]. now exists "", t.
    + split; [discriminate|]. intros [b [a Hba]].
      destruct b; [|discriminate Hba]. cbn in Hba.
      assert (String.prefix needle "" = true)
        by (apply prefix_app; now exists a).
      congruence.
  - destruct (String.prefix needle (String c s)) eqn:Hp.
    + split; [intros _|reflexivity].
      apply prefix_app in Hp. destruct Hp as [t Ht]. now exists "", t.
    + rewrite IH. split; intros [b [a Hba]].
      * exists (String c b), a. cbn. now rewrite Hba.
      * destruct b as [|c' b].
        -- cbn in Hba. exfalso. rewrite <- not_true_iff_false in Hp.
           apply Hp. apply prefix_app. now exists a.
        -- cbn in Hba. injection Hba as _ Hs. now exists b, a.
Qed.

Lemma isValidUrl_false (st : state) :
  ~ substring_of "domain.com.au" (url st) ->
  ~ substring_of "realestate.com.au" (url st) ->
  isValidUrl st = false.
Proof.
  intros Hd Hr. unfold isValidUrl. apply orb_false_iff.
  split; apply not_true_iff_false; intros H;
    apply includes_substring in H; contradiction.
Qed.

(** C10.  For a URL that contains neither "domain.com.au" nor
    "realestate.com.au" the Analyze button of the URL form is disabled,
    and no action on the form starts a URL analysis. *)
Theorem analyze_disabled_for_other_urls (st : state) :
  ~ substring_of "domain.com.au" (url st) ->
  ~ substring_of "realestate.com.au" (url st) ->
  (forall input_disabled analyze_disabled,
      render st = UrlForm input_disabled analyze_disabled ->
      analyze_disabled = true) /\
  (forall ev arg, ~ In (ScrapeMutate arg) (snd (step st ev))).
Proof.
  intros Hd Hr. pose proof (isValidUrl_false st Hd Hr) as Hv. split.
  - intros i d. unfold render. rewrite Hv.
    destruct (showManualForm st); [discriminate|].
    intros H. injection H as _ <-. reflexivity.
  - intros ev arg. unfold step, render. rewrite Hv. cbn [negb orb].
    destruct ev, (showManualForm st);
      repeat match goal with
             | |- context [if ?b then _ else _] => destruct b
             end;
      cbn; intuition discriminate.
Qed.

Lemma analyze_disabled_for_other_urls_witness :
  render other_site = UrlForm false true /\
  ~ In (ScrapeMutate (trim (url other_site))) (snd (step other_site Submit)).
Proof.
  assert (Hd : ~ substring_of "domain.com.au" (url other_site)).
  { intros H. apply includes_substring in H. discriminate H. }
  assert (Hr : ~ substring_of "realestate.com.au" (url other_site)).
  { intros H. apply includes_substring in H. discriminate H. }
  split.
  - reflexivity.
  - exact (proj2 (analyze_disabled_for_other_urls other_site Hd Hr)
                 Submit (trim (url other_site))).
Defined.

(** A listing of a supported site enables the button, and submitting
    sends the trimmed URL. *)
Example domain_listing_submits :
  render domain_listing = UrlForm false false /\
  snd (step domain_listing Submit)
  = [ScrapeMutate "https://www.domain.com.au/122-station-street-pakenham"].
Proof. split; reflexivity. Qed.

(** The check is a substring test, not a host test. *)
Example substring_anywhere_counts :
  isValidUrl (State "https://example.com/?ref=domain.com.au" false None
                    no_manual_data false false) = true.
Proof. reflexivity. Qed.

End PropertyInputFacts.

(* ================================================================== *)
(** * The gatekeeper                                                    *)
(* ================================================================== *)

Module GatekeeperFacts.
Import Gatekeeper.
Open Scope string_scope.
Open Scope list_scope.

Lemma insert_by_order_in (r x : rule) (l : list rule) :
  In r (insert_by_order x l) <-> r = x \/ In r l.
Proof.
  induction l as [|y l IH]; cbn [insert_by_order].
  - cbn. intuition.
  - destruct (order y <? order x)%Z; cbn [In]; [rewrite IH|]; intuition.
Qed.

Lemma in_order_in (r : rule) (l : list rule) :
  In r (in_order l) <-> In r l.
Proof.
  induction l as [|x l IH]; cbn [in_order fold_right].
  - reflexivity.
  - fold (in_order l). rewrite insert_by_order_in, IH. cbn. intuition.
Qed.

Section Loop.
Variable floor : Q.
Variable facts : fact_set.

Lemma eval_rule_keeps_kill (st : run) (r : rule) :
  killed st -> killed (eval_rule floor facts st r).
Proof.
  unfold killed, eval_rule. intros Hk.
  destruct (existsb _ (short_circuited st)); [exact Hk|].
  destruct (predicate r facts); cbn [fired].
  - rewrite existsb_app, Hk. reflexivity.
  - destruct (data_complete floor facts r); exact Hk.
Qed.

Lemma eval_rule_closed_by_kill (st : run) (r : rule) :
  closed_by_kill st -> closed_by_kill (eval_rule floor facts st r).
Proof.
  unfold closed_by_kill, eval_rule. intros Hinv.
  destruct (existsb _ (short_circuited st)); [exact Hinv|].
  destruct (predicate r facts).
  - destruct (is_kill (rule_severity r)) eqn:Hs; unfold killed;
      cbn [short_circuited fired]; intros Hne; rewrite existsb_app.
    + cbn [existsb]. rewrite Hs. now rewrite orb_true_r.
    + rewrite (Hinv Hne). reflexivity.
  - destruct (data_complete floor facts r); exact Hinv.
Qed.

(** A triggered KILL rule fires, or its category was closed by a KILL
    that fired before it. *)
Lemma eval_rule_kill_fires (st : run) (r : rule) :
  closed_by_kill st ->
  rule_severity r = KILL -> triggers facts r ->
  killed (eval_rule floor facts st r).
Proof.
  unfold triggers. intros Hinv Hs Hp. unfold eval_rule.
  destruct (existsb _ (short_circuited st)) eqn:Hc.
  - apply Hinv. intros Hnil. rewrite Hnil in Hc. discriminate Hc.
  - rewrite Hp. unfold killed. cbn [fired].
    rewrite existsb_app. cbn [existsb]. rewrite Hs. cbn [is_kill].
    now rewrite orb_true_r.
Qed.

Lemma loop_keeps_kill (l : list rule) (st : run) :
  killed st -> killed (fold_left (eval_rule floor facts) l st).
Proof.
  revert st. induction l as [|x l IH]; intros st Hk; cbn [fold_left].
  - exact Hk.
  - apply IH. now apply eval_rule_keeps_kill.
Qed.

Lemma loop_kill_fires (l : list rule) (st : run) (r : rule) :
  closed_by_kill st ->
  In r l -> rule_severity r = KILL -> triggers facts r ->
  killed (fold_left (eval_rule floor facts) l st).
Proof.
  revert st. induction l as [|x l IH]; intros st Hinv Hin Hs Hp.
  - contradiction.
  - cbn [fold_left]. destruct Hin as [->|Hin].
    + apply loop_keeps_kill. now apply eval_rule_kill_fires.
    + apply IH; auto. now apply eval_rule_closed_by_kill.
Qed.

Lemma eval_rule_quiet (st : run) (r : rule) :
  predicate r facts = false ->
  fired (eval_rule floor facts st r) = fired st /\
  run_kill_reasons (eval_rule floor facts st r) = run_kill_reasons st.
Proof.
  intros Hp. unfold eval_rule. rewrite Hp.
  destruct (existsb _ (short_circuited st)); [now split|].
  destruct (data_complete floor facts r); now split.
Qed.

Lemma loop_quiet (l : list rule) (st : run) :
  (forall r, In r l -> predicate r facts = false) ->
  fired (fold_left (eval_rule floor facts) l st) = fired st /\
  run_kill_reasons (fold_left (eval_rule floor facts) l st)
  = run_kill_reasons st.
Proof.
  revert st. induction l as [|x l IH]; intros st Hall; cbn [fold_left].
  - now split.
  - destruct (IH (eval_rule floor facts st x)) as [H1 H2].
    { intros r Hr. apply Hall. now right. }
    destruct (eval_rule_quiet st x) as [H3 H4].
    { apply Hall. now left. }
    split; congruence.
Qed.
End Loop.

(** C1.  If the rule set holds a KILL rule that the fact set triggers,
    the verdict is REJECT, whatever the other rules and categories
    yield. *)
Theorem kill_trigger_rejects (rs : rule_set) (facts : fact_set) (r : rule) :
  In r (rules rs) -> rule_severity r = KILL -> triggers facts r ->
  result_verdict (evaluate rs facts) = REJECT.
Proof.
  intros Hin Hs Hp. unfold evaluate. cbn [result_verdict].
  unfold derive_verdict.
  assert (Hk : killed (run_rules rs facts)).
  { unfold run_rules. apply loop_kill_fires with (r := r); auto.
    - intros Hne. now contradiction Hne.
    - now apply in_order_in. }
  unfold killed in Hk. now rewrite Hk.
Qed.

Lemma kill_trigger_rejects_witness :
  result_verdict (evaluate scenario_rules scenario_facts) = REJECT.
Proof.
  apply (kill_trigger_rejects scenario_rules scenario_facts flood_rule).
  - right. left. reflexivity.
  - reflexivity.
  - reflexivity.
Defined.

(** The verdict is the worst of what the fired rules ask for: REJECT
    over REVIEW over PROCEED. *)
Lemma derive_verdict_worst (fired : list severity) :
  derive_verdict fired = fold_right worst PROCEED (map verdict_of fired).
Proof.
  unfold derive_verdict.
  induction fired as [|s l IH]; [reflexivity|].
  cbn [existsb map fold_right]. rewrite <- IH.
  destruct s; cbn [is_kill is_warning orb verdict_of];
    destruct (existsb is_kill l), (existsb is_warning l); reflexivity.
Qed.

Lemma verdict_is_worst (rs : rule_set) (facts : fact_set) :
  result_verdict (evaluate rs facts)
  = fold_right worst PROCEED (map verdict_of (fired (run_rules rs facts))).
Proof. apply derive_verdict_worst. Qed.

(** When no rule fires the verdict is PROCEED and there is no kill
    reason. *)
Lemma no_rule_fires_proceeds (rs : rule_set) (facts : fact_set) :
  (forall r, In r (rules rs) -> predicate r facts = false) ->
  result_verdict (evaluate rs facts) = PROCEED /\
  kill_reasons (evaluate rs facts) = [].
Proof.
  intros Hall. unfold evaluate, run_rules. cbn [result_verdict kill_reasons].
  destruct (loop_quiet (confidence_floor rs) facts
                       (in_order (rules rs)) start) as [H1 H2].
  { intros r Hr. apply Hall. now apply in_order_in. }
  rewrite H1, H2. split; reflexivity.
Qed.

(** The scenario of the specification. *)
Example flood_scenario :
  let res := evaluate scenario_rules scenario_facts in
  result_verdict res = REJECT /\
  kill_reasons res = ["flood risk"] /\
  map (fun c => (check_category c, score c)) (checks res)
  = [("flood", Score.FAIL); ("flight_path", Score.PASS)].
Proof. repeat split; reflexivity. Qed.

End GatekeeperFacts.

(* ================================================================== *)
(** * The document pipeline                                             *)
(* ================================================================== *)

Module DocumentPipelineFacts.
Import DocumentPipeline.
Open Scope list_scope.

Lemma split_after_concat (stop : ascii -> bool) (t : text) :
  List.concat (split_after stop t) = t.
Proof.
  induction t as [|c t IH]; cbn [split_after]; [reflexivity|].
  destruct (stop c).
  - cbn. now rewrite IH.
  - destruct (split_after stop t) as [|p ps]; cbn in *; now rewrite <- IH.
Qed.

Section Chunking.
Variable marker : text -> option structural_tag.
Variable count_tokens : text -> nat.
Variable max_tokens : nat.
Variable ocr_floor : Q.
Context {vector : Type}.
Variable embed : text -> vector.

Local Abbreviation ingest' :=
  (ingest marker count_tokens max_tokens ocr_floor embed).

Lemma units_from_concat (cur : unit_) (ls : list text) :
  List.concat (map body (units_from marker cur ls))
  = body cur ++ List.concat ls.
Proof.
  revert cur. induction ls as [|l ls IH]; intros cur; cbn [units_from].
  - cbn. reflexivity.
  - destruct (marker l); cbn [map List.concat]; rewrite IH; cbn [body].
    + reflexivity.
    + now rewrite app_assoc.
Qed.

Lemma parse_units_concat (t : text) :
  List.concat (map body (parse_units marker t)) = t.
Proof.
  unfold parse_units, lines.
  rewrite <- (split_after_concat is_newline t) at 2.
  destruct (split_after is_newline t) as [|l ls]; [reflexivity|].
  rewrite units_from_concat. reflexivity.
Qed.

Lemma accumulate_concat (cur : text) (items : list text) :
  List.concat (accumulate count_tokens max_tokens cur items)
  = cur ++ List.concat items.
Proof.
  revert cur. induction items as [|x rest IH]; intros cur;
    cbn [accumulate].
  - cbn. reflexivity.
  - destruct (count_tokens (cur ++ x) <=? max_tokens)%nat.
    + rewrite IH. cbn. now rewrite app_assoc.
    + cbn. now rewrite IH.
Qed.

Lemma pack_concat (items : list text) :
  List.concat (pack count_tokens max_tokens items) = List.concat items.
Proof.
  destruct items as [|x rest]; [reflexivity|].
  apply accumulate_concat.
Qed.

Lemma split_unit_concat (u : unit_) :
  List.concat (map piece_text (split_unit count_tokens max_tokens u))
  = body u.
Proof.
  unfold split_unit, sentences. rewrite map_map. cbn [piece_text].
  rewrite map_id, pack_concat. apply split_after_concat.
Qed.

Lemma flush_concat (cur : option piece) :
  List.concat (map piece_text (flush cur)) = pending cur.
Proof. destruct cur; cbn; [apply app_nil_r | reflexivity]. Qed.

Lemma chunk_units_concat (cur : option piece) (us : list unit_) :
  List.concat (map piece_text (chunk_units count_tokens max_tokens cur us))
  = pending cur ++ List.concat (map body us).
Proof.
  revert cur. induction us as [|u rest IH]; intros cur;
    cbn [chunk_units].
  - rewrite flush_concat. cbn. now rewrite app_nil_r.
  - destruct (max_tokens <? count_tokens (body u))%nat.
    + rewrite !map_app, !concat_app, flush_concat, split_unit_concat, IH.
      reflexivity.
    + destruct cur as [p|].
      * destruct (count_tokens (piece_text p ++ body u)
                  <=? max_tokens)%nat.
        -- rewrite IH. cbn. now rewrite app_assoc.
        -- cbn [map List.concat]. rewrite IH. reflexivity.
      * rewrite IH. reflexivity.
Qed.

Lemma chunk_page_concat (t : text) :
  List.concat (map piece_text
             (chunk_page marker count_tokens max_tokens t)) = t.
Proof.
  unfold chunk_page. destruct (has_structure marker t).
  - rewrite chunk_units_concat. apply parse_units_concat.
  - cbn. apply app_nil_r.
Qed.

(** Chunks are numbered 0, 1, 2, ... in the order they are produced. *)
Lemma ingest_ordinals (doc : string) (raw_pages : list page_text) :
  map (@ordinal vector) (ingest' doc raw_pages)
  = seq 0 (List.length (ingest' doc raw_pages)).
Proof.
  unfold ingest.
  set (pieces := flat_map _ raw_pages).
  rewrite length_map, length_combine, length_seq, Nat.min_id.
  generalize 0%nat. induction pieces as [|[p pc] l IH]; intros k; cbn.
  - reflexivity.
  - now rewrite IH.
Qed.

Lemma ingest_texts (doc : string) (raw_pages : list page_text) :
  List.concat (map (@chunk_text vector) (ingest' doc raw_pages))
  = List.concat (map content raw_pages).
Proof.
  unfold ingest.
  set (pieces := flat_map _ raw_pages).
  assert (Htexts :
    map (@chunk_text vector)
        (map (fun ipc : nat * (page_text * piece) =>
           let '(i, (p, pc)) := ipc in
           Chunk (doc, i) doc i (piece_text pc) (piece_tag pc) (page p)
                 (embed (piece_text pc)) (piece_split pc)
                 (Num.ltb (ocr_confidence p) ocr_floor))
           (combine (seq 0 (List.length pieces)) pieces))
    = map (fun ppc => piece_text (snd ppc)) pieces).
  { generalize 0%nat. induction pieces as [|[p pc] l IH]; intros k; cbn.
    - reflexivity.
    - now rewrite IH. }
  rewrite Htexts. clear Htexts. subst pieces.
  induction raw_pages as [|p ps IH]; cbn [flat_map map List.concat].
  - reflexivity.
  - rewrite map_app, concat_app, IH, map_map. cbn [snd].
    now rewrite chunk_page_concat.
Qed.

Lemma by_ordinal_seq (cs : list (chunk vector)) (k : nat) :
  map (@ordinal vector) cs = seq k (List.length cs) ->
  by_ordinal cs = cs.
Proof.
  revert k. induction cs as [|c cs IH]; intros k Hseq;
    cbn [by_ordinal fold_right].
  - reflexivity.
  - fold (by_ordinal cs). cbn in Hseq. injection Hseq as Hc Hrest.
    rewrite (IH (S k) Hrest).
    destruct cs as [|c' cs']; cbn [insert_by_ordinal]; [reflexivity|].
    cbn in Hrest. injection Hrest as Hc' _.
    assert (Hlt : (ordinal c' <? ordinal c)%nat = false)
      by (apply Nat.ltb_ge; lia).
    now rewrite Hlt.
Qed.

(** C7.  The texts of the chunks [ingest] produces for a document,
    concatenated in ordinal order (the [split] flags play no part),
    are the page texts of the document, concatenated. *)
Theorem chunking_round_trip (doc : string) (raw_pages : list page_text) :
  reassemble (ingest' doc raw_pages)
  = List.concat (map content raw_pages).
Proof.
  unfold reassemble.
  rewrite (by_ordinal_seq _ 0%nat (ingest_ordinals doc raw_pages)).
  apply ingest_texts.
Qed.
End Chunking.

(** The scenario of the specification: the second clause is split in two
    chunks flagged [split], the first and the third stay whole. *)
Example three_clause_scenario :
  map (fun c => (string_of_list_ascii (chunk_text c), split c))
      (sample_ingest "s32" [three_clauses])
  = [ (("1. Short one." ++ newline)%string, false);
      ("2. First long sentence here."%string, true);
      ((" Second long sentence here." ++ newline)%string, true);
      (("3. Tail." ++ newline)%string, false) ].
Proof. reflexivity. Qed.

End DocumentPipelineFacts.

(* ================================================================== *)
(** * The retrieval engine                                              *)
(* ================================================================== *)

Module RetrievalEngineFacts.
Import DocumentPipeline RetrievalEngine.
Open Scope string_scope.
Open Scope list_scope.

Section Engine.
Context {vector : Type}.
Variable embed : string -> vector.
Variable similarity : vector -> vector -> Q.
Variable K : nat.
Variable complete : string -> list (chunk vector) -> string.
Variable cited : string -> list (chunk vector) -> list citation.
Variable confidence_of : string -> list (chunk vector) -> Q.
Variable low_confidence : Q.

Local Abbreviation query' :=
  (query embed similarity K complete cited confidence_of low_confidence).
Local Abbreviation retrieved' := (retrieved_for embed similarity K).

Lemma check_answer_cited (retrieved : list (chunk vector)) (txt : string)
    (a : answer) :
  check_answer cited confidence_of low_confidence retrieved txt = Usable a ->
  retrieved <> [] -> answer_text a <> NOT_FOUND -> citations a <> [].
Proof.
  unfold check_answer. intros Hq Hret Htxt.
  destruct (String.eqb txt NOT_FOUND).
  - injection Hq as <-. now contradiction Htxt.
  - destruct (cited txt retrieved) as [|c cs] eqn:Hc.
    + destruct retrieved as [|r rs]; [now contradiction Hret|].
      discriminate Hq.
    + destruct retrieved; injection Hq as <-; discriminate.
Qed.

Lemma check_answer_flags (retrieved : list (chunk vector)) (txt : string) :
  retrieved <> [] -> txt <> NOT_FOUND -> cited txt retrieved = [] ->
  check_answer cited confidence_of low_confidence retrieved txt
  = AmbiguousRetrieval (Answer txt [] low_confidence).
Proof.
  unfold check_answer. intros Hret Htxt Hc.
  apply String.eqb_neq in Htxt. rewrite Htxt, Hc.
  destruct retrieved; [now contradiction Hret | reflexivity].
Qed.

(** C8.  When at least one chunk was retrieved, an answer [query]
    returns as usable is the NOT_FOUND sentinel or carries a citation;
    a citation-free answer of the LLM is handed back flagged as
    AmbiguousRetrieval instead. *)
Theorem no_uncited_answer (store : Dict.dict (list (chunk vector)))
    (doc question : string) :
  retrieved' store doc question <> [] ->
  (forall a, query' store doc question = Usable a ->
             answer_text a <> NOT_FOUND -> citations a <> []) /\
  (let txt := complete question (retrieved' store doc question) in
   txt <> NOT_FOUND -> cited txt (retrieved' store doc question) = [] ->
   query' store doc question
   = AmbiguousRetrieval (Answer txt [] low_confidence)).
Proof.
  intros Hret. split.
  - intros a Hq. unfold query in Hq.
    exact (check_answer_cited _ _ _ Hq Hret).
  - cbn zeta. intros Htxt Hc. unfold query.
    now apply check_answer_flags.
Qed.
End Engine.

Lemma no_uncited_answer_witness :
  retrieved_for embed_question closeness 2 sample_store "s32" "tail?" <> []
  /\ citations tail_answer <> [].
Proof.
  assert (Hret : retrieved_for embed_question closeness 2 sample_store
                               "s32" "tail?" <> [])
    by (vm_compute; discriminate).
  split; [exact Hret|].
  apply (proj1 (no_uncited_answer embed_question closeness 2 quote_first
                  cite_all full_confidence 0.1 sample_store "s32" "tail?"
                  Hret) tail_answer).
  - vm_compute. reflexivity.
  - intros H. vm_compute in H. discriminate H.
Defined.

(** An LLM that answers without citing is flagged; the sentinel is
    passed on. *)
Example uncited_answer_is_flagged :
  query embed_question closeness 2 quote_first (fun _ _ => [])
        full_confidence 0.1 sample_store "s32" "tail?"
  = AmbiguousRetrieval (Answer ("3. Tail." ++ newline) [] 0.1) /\
  query embed_question closeness 2 (fun _ _ => NOT_FOUND) (fun _ _ => [])
        full_confidence 0.1 sample_store "s32" "tail?"
  = Usable (Answer NOT_FOUND [] 1).
Proof. split; vm_compute; reflexivity. Qed.

End RetrievalEngineFacts.

(* ================================================================== *)
(** * More on the risk scorer                                           *)
(* ================================================================== *)

Module PropertyRiskScorerMore.
Import Py Num NumFacts DictFacts PropertyRiskScorer PropertyRiskScorerFacts.
Open Scope Q_scope.
Open Scope string_scope.
Open Scope list_scope.

(** ** Rounding is monotone *)

Lemma round_half_even_mono (x y : Q) :
  x <= y -> (round_half_even x <= round_half_even y)%Z.
Proof.
  intros Hxy.
  destruct (Qlt_le_dec x y) as [Hlt|Hge].
  - destruct (round_half_even_near x) as [_ Hx].
    destruct (round_half_even_near y) as [Hy _].
    apply Z.lt_succ_r. rewrite Zlt_Qlt. unfold Z.succ.
    rewrite inject_Z_plus. change (inject_Z 1) with 1. lra.
  - assert (Heq : x == y) by (apply Qle_antisym; assumption).
    rewrite (round_half_even_comp x y Heq). lia.
Qed.

Lemma round1_mono (x y : Q) : x <= y -> round x 1 <= round y 1.
Proof.
  intros Hxy. rewrite !round1_eq.
  assert (H : (round_half_even (x * 10) <= round_half_even (y * 10))%Z)
    by (apply round_half_even_mono; lra).
  rewrite Zle_Qle in H. unfold Qdiv. change (/ 10) with (1#10). lra.
Qed.

Lemma sum_mono {A : Type} (f g : A -> Q) (l : list A) :
  (forall x, In x l -> f x <= g x) -> sum (map f l) <= sum (map g l).
Proof.
  induction l as [|x l IH]; intros H; cbn [map].
  - apply Qle_refl.
  - rewrite !sum_cons.
    assert (f x <= g x) by (apply H; now left).
    assert (sum (map f l) <= sum (map g l))
      by (apply IH; intros y Hy; apply H; now right).
    lra.
Qed.

Lemma score_to_rating_mono (s t : Q) :
  s <= t ->
  (rating_rank (_score_to_rating s) <= rating_rank (_score_to_rating t))%nat.
Proof.
  intros Hst. unfold _score_to_rating.
  destruct (ltb s 20) eqn:S20; [apply ltb_lt in S20 | apply ltb_ge in S20];
  (destruct (ltb s 40) eqn:S40; [apply ltb_lt in S40 | apply ltb_ge in S40]);
  (destruct (ltb s 60) eqn:S60; [apply ltb_lt in S60 | apply ltb_ge in S60]);
  (destruct (ltb s 80) eqn:S80; [apply ltb_lt in S80 | apply ltb_ge in S80]);
  (destruct (ltb t 20) eqn:T20; [apply ltb_lt in T20 | apply ltb_ge in T20]);
  (destruct (ltb t 40) eqn:T40; [apply ltb_lt in T40 | apply ltb_ge in T40]);
  (destruct (ltb t 60) eqn:T60; [apply ltb_lt in T60 | apply ltb_ge in T60]);
  (destruct (ltb t 80) eqn:T80; [apply ltb_lt in T80 | apply ltb_ge in T80]);
  cbn [rating_rank]; try lia; exfalso; lra.
Qed.

(** ** The sort is stable *)

Section Stable.
Context {A : Type} (key : A -> Q).

Lemma insert_reverse_class (v : Q) (x : A) (l : list A) :
  filter (fun t => Qeq_bool (key t) v) (insert_reverse key x l)
  = filter (fun t => Qeq_bool (key t) v) (x :: l).
Proof.
  induction l as [|y l IH]; cbn [insert_reverse]; [reflexivity|].
  destruct (gtb (key y) (key x)) eqn:Hg; [|reflexivity].
  apply ltb_lt in Hg.
  cbn [filter] in *. rewrite IH.
  destruct (Qeq_bool (key x) v) eqn:Hx, (Qeq_bool (key y) v) eqn:Hy;
    try reflexivity.
  apply Qeq_bool_eq in Hx, Hy. lra.
Qed.

Lemma sorted_reverse_class (v : Q) (l : list A) :
  filter (fun t => Qeq_bool (key t) v) (sorted_reverse key l)
  = filter (fun t => Qeq_bool (key t) v) l.
Proof.
  induction l as [|x l IH]; cbn [sorted_reverse fold_right];
    [reflexivity|].
  fold (sorted_reverse key l). rewrite insert_reverse_class.
  cbn [filter]. now rewrite IH.
Qed.
End Stable.

Section Scorer.
Context {confidence : Type}.
Variable _get_factor_score : analyses -> string -> string -> Q.
Variable _calculate_confidence : analyses -> confidence.

Local Abbreviation calc :=
  (calculate_risk_score_with _get_factor_score _calculate_confidence).
Local Abbreviation cats := (score_categories _get_factor_score).
Local Abbreviation exact := (exact_category_score _get_factor_score).
Local Abbreviation entry := (breakdown_entry _get_factor_score).

(** What a returned record holds. *)
Lemma calc_fields weights a r :
  calc weights a = Ok r ->
  category_breakdown r = cats weights a /\
  top_risk_factors r = _get_top_risks (cats weights a) 5 /\
  exists n,
    normalized_score (total_score (cats weights a))
                     (max_possible weights a) = Ok n /\
    overall_risk_score r = round n 1 /\
    risk_rating r = _score_to_rating n.
Proof.
  unfold calculate_risk_score_with. intros Hr.
  destruct (normalized_score _ _) as [n|e]; cbn [bind] in Hr;
    [|discriminate].
  injection Hr as <-. cbn. repeat split. exists n. repeat split.
Qed.

(** X2.  With [RISK_WEIGHTS] the normalizing constant is 100 when the
    property type is an apartment, a townhouse or a unit, and 90
    otherwise: it is never zero, so the fallback score of 50 is not
    reachable with the shipped table. *)
Theorem max_possible_shipped (a : analyses) :
  max_possible RISK_WEIGHTS a
  == if value_in (Dict.get "property_type" a)
                 ["apartment"; "townhouse"; "unit"]
     then 100 else 90.
Proof.
  unfold max_possible, Dict.items, RISK_WEIGHTS.
  cbn [filter snd counted applies_to].
  destruct (value_in (Dict.get "property_type" a)
                     ["apartment"; "townhouse"; "unit"]); reflexivity.
Qed.

Lemma keys_breakdown a l :
  Dict.keys (map (entry a) l) = Dict.keys l.
Proof. unfold Dict.keys. rewrite map_map. reflexivity. Qed.

(** X3.  The category breakdown has one entry for each category that
    applies to the property type, in the order of the table and with the
    table's weight, and none for a category that does not apply. *)
Theorem breakdown_lists_applicable weights a :
  NoDup (Dict.keys weights) ->
  returns (calc weights a)
    (fun r =>
       map (fun kv => (fst kv, category_weight (snd kv)))
           (category_breakdown r)
       = map (fun kv => (fst kv, weight (snd kv))) (present weights a)).
Proof.
  intros Hnd.
  destruct (calculate_risk_score_with_returns _get_factor_score
              _calculate_confidence weights a) as [r Hr].
  exists r. split; [exact Hr|].
  destruct (calc_fields weights a r Hr) as [Hb _]. rewrite Hb.
  rewrite score_categories_present by exact Hnd.
  rewrite map_map. reflexivity.
Qed.

(** X4.  [top_risk_factors] is the head of a stable sort: it can be
    continued to a list in descending order of raw score in which the
    factors of equal raw score stand in the order of the breakdown
    (category order, then factor order), so a tie at the cut is decided
    for the factor listed first. *)
Theorem top_risk_factors_ties weights a :
  returns (calc weights a)
    (fun r =>
       exists rest,
         StronglySorted (descending top_score)
                        (top_risk_factors r ++ rest) /\
         List.length (top_risk_factors r)
         = Nat.min 5 (List.length (all_factors (category_breakdown r))) /\
         forall v,
           filter (scored v) (top_risk_factors r ++ rest)
           = filter (scored v) (all_factors (category_breakdown r))).
Proof.
  destruct (calculate_risk_score_with_returns _get_factor_score
              _calculate_confidence weights a) as [r Hr].
  exists r. split; [exact Hr|].
  destruct (calc_fields weights a r Hr) as [Hb [Ht _]].
  rewrite Hb, Ht. unfold _get_top_risks.
  set (cands := all_factors (cats weights a)).
  exists (skipn 5 (sorted_reverse top_score cands)).
  rewrite firstn_skipn. repeat split.
  - apply sorted_reverse_sorted.
  - rewrite length_firstn.
    now rewrite (Permutation_length (sorted_reverse_perm top_score cands)).
  - intros v. apply (sorted_reverse_class top_score).
Qed.

(** ** Raising factor scores *)

Lemma counted_same a a' cfg :
  Dict.get "property_type" a = Dict.get "property_type" a' ->
  counted a cfg = counted a' cfg.
Proof. intros H. unfold counted. now rewrite H. Qed.

Lemma present_same weights a a' :
  Dict.get "property_type" a = Dict.get "property_type" a' ->
  present weights a = present weights a'.
Proof.
  intros H. unfold present. apply filter_ext.
  intros kv. now apply counted_same.
Qed.

Lemma score_factors_mono a a' category fs acc acc' details details' :
  (forall c f, _get_factor_score a c f <= _get_factor_score a' c f) ->
  Forall (fun kv : string * Q => 0 <= snd kv) fs ->
  acc <= acc' ->
  fst (fold_left
    (fun (acc : Q * list factor_detail) (kv : string * Q) =>
       let '(category_score, details) := acc in
       let '(f, f_weight) := kv in
       let factor_score := _get_factor_score a category f in
       let weighted := factor_score * f_weight in
       (category_score + weighted,
        details ++ [FactorDetail f factor_score f_weight weighted]))
    fs (acc, details))
  <= fst (fold_left
    (fun (acc : Q * list factor_detail) (kv : string * Q) =>
       let '(category_score, details) := acc in
       let '(f, f_weight) := kv in
       let factor_score := _get_factor_score a' category f in
       let weighted := factor_score * f_weight in
       (category_score + weighted,
        details ++ [FactorDetail f factor_score f_weight weighted]))
    fs (acc', details')).
Proof.
  intros Hle Hw. revert acc acc' details details'.
  induction Hw as [|[f w] fs Hw0 _ IH]; intros acc acc' details details' Hacc;
    cbn [fold_left fst].
  - exact Hacc.
  - apply IH. cbn [snd] in Hw0.
    assert (_get_factor_score a category f * w
            <= _get_factor_score a' category f * w)
      by (apply Qmult_le_compat_r; [apply Hle | exact Hw0]).
    lra.
Qed.

Lemma exact_category_score_mono a a' (kv : string * config) :
  (forall c f, _get_factor_score a c f <= _get_factor_score a' c f) ->
  on_grid (snd kv) = true ->
  exact a kv <= exact a' kv.
Proof.
  intros Hle Hg. unfold on_grid in Hg. rewrite !andb_true_iff in Hg.
  destruct Hg as [[[_ _] Hf] _].
  unfold exact_category_score, score_factors, Dict.items.
  apply score_factors_mono; [exact Hle| |apply Qle_refl].
  rewrite forallb_forall in Hf. apply Forall_forall.
  intros x Hx. apply Qle_bool_iff. now apply Hf.
Qed.

Lemma total_score_mono weights a a' :
  NoDup (Dict.keys weights) ->
  forallb on_grid (Dict.values weights) = true ->
  Dict.get "property_type" a = Dict.get "property_type" a' ->
  (forall c f, _get_factor_score a c f <= _get_factor_score a' c f) ->
  total_score (cats weights a) <= total_score (cats weights a').
Proof.
  intros Hnd Hgrid Hpt Hle.
  rewrite !total_score_present by exact Hnd.
  rewrite <- (present_same weights a a' Hpt).
  apply sum_mono. intros kv Hin. apply round1_mono.
  assert (Hg : on_grid (snd kv) = true).
  { unfold present in Hin. apply filter_In in Hin. destruct Hin as [Hin _].
    rewrite forallb_forall in Hgrid. apply Hgrid.
    unfold Dict.values. now apply in_map. }
  pose proof (exact_category_score_mono a a' kv Hle Hg) as He.
  unfold on_grid in Hg. rewrite !andb_true_iff in Hg.
  destruct Hg as [[[Hw _] _] _]. apply Qle_bool_iff in Hw.
  now apply Qmult_le_compat_r.
Qed.

(** X5.  For a table in the format of [RISK_WEIGHTS], raising factor
    scores never lowers the result: if no factor of [a'] scores below
    the same factor of [a], for the same property type, then the overall
    score and the rating of [a'] are at least those of [a]. *)
Theorem overall_score_monotone weights a a' :
  NoDup (Dict.keys weights) ->
  forallb on_grid (Dict.values weights) = true ->
  Dict.get "property_type" a = Dict.get "property_type" a' ->
  (forall c f, _get_factor_score a c f <= _get_factor_score a' c f) ->
  returns (calc weights a)
    (fun r =>
       returns (calc weights a')
         (fun r' =>
            overall_risk_score r <= overall_risk_score r' /\
            (rating_rank (risk_rating r)
             <= rating_rank (risk_rating r'))%nat)).
Proof.
  intros Hnd Hgrid Hpt Hle.
  destruct (calculate_risk_score_with_returns _get_factor_score
              _calculate_confidence weights a) as [r Hr].
  destruct (calculate_risk_score_with_returns _get_factor_score
              _calculate_confidence weights a') as [r' Hr'].
  exists r. split; [exact Hr|]. exists r'. split; [exact Hr'|].
  destruct (calc_fields weights a r Hr) as [_ [_ [n [Hn [Ho Hrt]]]]].
  destruct (calc_fields weights a' r' Hr') as [_ [_ [n' [Hn' [Ho' Hrt']]]]].
  rewrite Ho, Ho', Hrt, Hrt'.
  assert (Hnn : n <= n').
  { pose proof (total_score_mono weights a a' Hnd Hgrid Hpt Hle) as Ht.
    assert (Hmax : max_possible weights a' = max_possible weights a).
    { unfold max_possible.
      change (filter (fun kv => counted a' (snd kv)) (Dict.items weights))
        with (present weights a').
      change (filter (fun kv => counted a (snd kv)) (Dict.items weights))
        with (present weights a).
      now rewrite (present_same weights a a' Hpt). }
    rewrite Hmax in Hn'.
    destruct (Qlt_le_dec 0 (max_possible weights a)) as [Hpos|Hnp].
    - rewrite normalized_score_positive in Hn, Hn' by exact Hpos.
      injection Hn as <-. injection Hn' as <-.
      assert (Hiw : 0 < / max_possible weights a)
        by now apply Qinv_lt_0_compat.
      unfold Qdiv.
      assert (total_score (cats weights a) * / max_possible weights a
              <= total_score (cats weights a') * / max_possible weights a)
        by (apply Qmult_le_compat_r; lra).
      lra.
    - rewrite normalized_score_default in Hn, Hn' by exact Hnp.
      injection Hn as <-. injection Hn' as <-. apply Qle_refl. }
  split; [now apply round1_mono | now apply score_to_rating_mono].
Qed.

End Scorer.

Lemma breakdown_lists_applicable_witness :
  returns (calculate_risk_score lookup_factor_score no_confidence house)
    (fun r =>
       map (fun kv => (fst kv, category_weight (snd kv)))
           (category_breakdown r)
       = map (fun kv => (fst kv, weight (snd kv)))
             (present RISK_WEIGHTS house)).
Proof.
  exact (breakdown_lists_applicable lookup_factor_score no_confidence
           RISK_WEIGHTS house RISK_WEIGHTS_keys_NoDup).
Defined.

Example house_breakdown_categories :
  returns (calculate_risk_score lookup_factor_score no_confidence house)
    (fun r => Dict.keys (category_breakdown r)
              = ["legal"; "title_encumbrance"; "planning"; "physical";
                 "environmental"; "financial"]).
Proof. eexists. split; [vm_compute; reflexivity | reflexivity]. Qed.

Lemma lookup_house_zero (c f : string) : lookup_factor_score house c f = 0.
Proof.
  unfold lookup_factor_score, house. cbn [Dict.get].
  destruct (String.eqb c "property_type"); reflexivity.
Qed.

Lemma lookup_light_factor_nonneg (c f : string) :
  0 <= lookup_factor_score house_with_light_factor c f.
Proof.
  unfold lookup_factor_score, house_with_light_factor. cbn [Dict.get].
  repeat match goal with
         | |- context [String.eqb ?x ?y] =>
             destruct (String.eqb x y); cbn [Dict.get]
         end;
    unfold Qle; cbn; lia.
Qed.

Lemma overall_score_monotone_witness :
  returns (calculate_risk_score lookup_factor_score no_confidence house)
    (fun r =>
       returns (calculate_risk_score lookup_factor_score no_confidence
                  house_with_light_factor)
         (fun r' =>
            overall_risk_score r <= overall_risk_score r' /\
            (rating_rank (risk_rating r)
             <= rating_rank (risk_rating r'))%nat)).
Proof.
  apply (overall_score_monotone lookup_factor_score no_confidence
           RISK_WEIGHTS house house_with_light_factor).
  - exact RISK_WEIGHTS_keys_NoDup.
  - reflexivity.
  - reflexivity.
  - intros c f. rewrite lookup_house_zero.
    apply lookup_light_factor_nonneg.
Defined.

(** ** The number of top factors *)

Section Count.
Context {confidence : Type}.
Variable _get_factor_score : analyses -> string -> string -> Q.
Variable _calculate_confidence : analyses -> confidence.

Lemma score_factors_details_length a category fs acc details :
  List.length (snd (fold_left
    (fun (acc : Q * list factor_detail) (kv : string * Q) =>
       let '(category_score, details) := acc in
       let '(f, f_weight) := kv in
       let factor_score := _get_factor_score a category f in
       let weighted := factor_score * f_weight in
       (category_score + weighted,
        details ++ [FactorDetail f factor_score f_weight weighted]))
    fs (acc, details)))
  = (List.length details + List.length fs)%nat.
Proof.
  revert acc details.
  induction fs as [|[f w] fs IH]; intros acc details; cbn [fold_left snd].
  - cbn. lia.
  - rewrite IH, length_app. cbn. lia.
Qed.

Lemma all_factors_length a (l : list (string * config)) :
  List.length (all_factors (map (breakdown_entry _get_factor_score a) l))
  = list_sum (map (fun kv => List.length (factors (snd kv))) l).
Proof.
  unfold all_factors, Dict.items.
  induction l as [|kv l IH]; cbn [map flat_map list_sum]; [reflexivity|].
  rewrite length_app, IH. f_equal.
  unfold breakdown_entry. cbn [factor_details]. rewrite length_map.
  unfold score_factors, Dict.items.
  now rewrite score_factors_details_length.
Qed.

(** X6.  With [RISK_WEIGHTS] the scorer always reports exactly five top
    risk factors, whatever the analyses hold. *)
Theorem five_top_risk_factors (a : analyses) :
  returns (calculate_risk_score _get_factor_score _calculate_confidence a)
    (fun r => List.length (top_risk_factors r) = 5%nat).
Proof.
  destruct (calculate_risk_score_with_returns _get_factor_score
              _calculate_confidence RISK_WEIGHTS a) as [r Hr].
  exists r. split; [exact Hr|].
  destruct (calc_fields _get_factor_score _calculate_confidence
              RISK_WEIGHTS a r Hr) as [_ [Ht _]].
  rewrite Ht. unfold _get_top_risks.
  rewrite length_firstn,
    (Permutation_length (sorted_reverse_perm top_score _)).
  rewrite score_categories_present by exact RISK_WEIGHTS_keys_NoDup.
  rewrite all_factors_length.
  unfold present, Dict.items, RISK_WEIGHTS.
  cbn [filter snd counted applies_to].
  destruct (value_in (Dict.get "property_type" a)
                     ["apartment"; "townhouse"; "unit"]); reflexivity.
Qed.
End Count.

End PropertyRiskScorerMore.

(* ================================================================== *)
(** * More on the property-input form                                   *)
(* ================================================================== *)

Module PropertyInputMore.
Import PropertyInput PropertyInputFacts.
Open Scope string_scope.

Lemma append_assoc (a b c : string) : (a ++ b) ++ c = a ++ (b ++ c).
Proof. induction a as [|x a IH]; cbn; [reflexivity | now rewrite IH]. Qed.

Lemma append_empty_r (a : string) : a ++ "" = a.
Proof. induction a as [|x a IH]; cbn; [reflexivity | now rewrite IH]. Qed.

(** ** [trim] *)

Lemma trim_end_fixed (p : string) :
  no_white_space p = true -> trim_end p = p.
Proof.
  induction p as [|c p IH]; cbn [no_white_space trim_end]; [reflexivity|].
  rewrite andb_true_iff, negb_true_iff. intros [Hc Hp].
  rewrite (IH Hp), Hc. now destruct p.
Qed.

Lemma trim_end_app (p a : string) :
  trim_end (p ++ a)
  = match trim_end a with
    | EmptyString => trim_end p
    | t => p ++ t
    end.
Proof.
  induction p as [|c p IH]; cbn [append trim_end].
  - now destruct (trim_end a).
  - rewrite IH. destruct (trim_end a) as [|x t]; [reflexivity|].
    now destruct p.
Qed.

Lemma trim_start_keeps (needle s : string) :
  no_white_space needle = true -> needle <> "" ->
  substring_of needle s -> substring_of needle (trim_start s).
Proof.
  intros Hn Hne. induction s as [|c s IH]; intros [b [a Hs]];
    cbn [trim_start].
  - now exists b, a.
  - destruct (is_white_space c) eqn:Hc; [|now exists b, a].
    apply IH. destruct b as [|c' b].
    + exfalso. destruct needle as [|x n]; [now apply Hne|].
      cbn in Hs. injection Hs as -> _.
      cbn [no_white_space] in Hn. rewrite Hc in Hn. discriminate Hn.
    + cbn in Hs. injection Hs as _ Hs. now exists b, a.
Qed.

Lemma trim_end_keeps (needle s : string) :
  no_white_space needle = true -> needle <> "" ->
  substring_of needle s -> substring_of needle (trim_end s).
Proof.
  intros Hn Hne [b [a Hs]]. subst s.
  rewrite <- append_assoc, trim_end_app.
  destruct (trim_end a) as [|x t].
  - rewrite trim_end_app, (trim_end_fixed needle Hn).
    destruct needle as [|y n]; [now contradiction Hne|].
    exists b, "". now rewrite append_empty_r.
  - exists b, (String x t). now rewrite append_assoc.
Qed.

Lemma trim_keeps (needle s : string) :
  no_white_space needle = true -> needle <> "" ->
  substring_of needle s -> substring_of needle (trim s).
Proof.
  intros Hn Hne Hs. unfold trim.
  now apply trim_end_keeps, trim_start_keeps.
Qed.

Lemma trim_end_cons (c : ascii) (s : string) :
  trim_end (String c s)
  = match trim_end s with
    | EmptyString => if is_white_space c then EmptyString
                     else String c EmptyString
    | t => String c t
    end.
Proof. reflexivity. Qed.

Lemma trim_end_idempotent (s : string) : trim_end (trim_end s) = trim_end s.
Proof.
  induction s as [|c s IH]; [reflexivity|].
  rewrite trim_end_cons.
  destruct (trim_end s) as [|x t] eqn:Ht.
  - destruct (is_white_space c) eqn:Hc; [reflexivity|].
    rewrite trim_end_cons. cbn [trim_end]. now rewrite Hc.
  - rewrite trim_end_cons, IH. reflexivity.
Qed.

(** [trim_end] leaves the head of a string that starts with a character
    other than white space. *)
Lemma trim_start_trim_end (s : string) :
  trim_start s = s -> trim_start (trim_end s) = trim_end s.
Proof.
  destruct s as [|c s]; [reflexivity|].
  cbn [trim_start]. destruct (is_white_space c) eqn:Hc.
  - intros H. exfalso.
    assert (Hlen : (String.length (trim_start s) <= String.length s)%nat).
    { clear. induction s as [|x s IH]; cbn [trim_start]; [lia|].
      destruct (is_white_space x); cbn; lia. }
    rewrite H in Hlen. cbn in Hlen. lia.
  - intros _. rewrite trim_end_cons.
    destruct (trim_end s); rewrite ?Hc; cbn [trim_start]; now rewrite Hc.
Qed.

Lemma trim_start_idempotent (s : string) :
  trim_start (trim_start s) = trim_start s.
Proof.
  induction s as [|c s IH]; cbn [trim_start]; [reflexivity|].
  destruct (is_white_space c) eqn:Hc; [exact IH|].
  cbn [trim_start]. now rewrite Hc.
Qed.

Lemma trim_idempotent (s : string) : trim (trim s) = trim s.
Proof.
  unfold trim.
  rewrite (trim_start_trim_end (trim_start s) (trim_start_idempotent s)).
  apply trim_end_idempotent.
Qed.

Lemma nonempty_true (s : string) : nonempty s = true <-> s <> "".
Proof. destruct s; cbn; split; try discriminate; intuition. Qed.

(** ** What the form sends *)

Lemma scrape_only_on_submit (st : state) (ev : event) (arg : string) :
  In (ScrapeMutate arg) (snd (step st ev)) ->
  ev = Submit /\ showManualForm st = false /\ isValidUrl st = true /\
  scrape_isPending st = false /\ arg = trim (url st) /\
  nonempty arg = true.
Proof.
  unfold step, render, handleUrlSubmit, handleManualSubmit.
  destruct ev, (showManualForm st) eqn:Hm, (isValidUrl st) eqn:Hv,
    (scrape_isPending st) eqn:Hp, (isManualValid st), (manual_isPending st),
    (nonempty (trim (url st))) eqn:Hn;
    cbn; intros H; try contradiction;
    repeat match goal with
           | H : _ \/ _ |- _ => destruct H as [H|H]
           | H : False |- _ => contradiction
           | H : ManualMutate _ = ScrapeMutate _ |- _ => discriminate H
           | H : ScrapeMutate _ = ScrapeMutate _ |- _ => injection H as <-
           end;
    repeat split; auto.
Qed.

(** X7.  Whatever the form sends to the URL analysis is the typed URL
    with the white space at its ends removed: it is not empty, [trim]
    leaves it unchanged, and it contains "domain.com.au" or
    "realestate.com.au". *)
Theorem submitted_url_is_trimmed_listing (st : state) (ev : event)
    (arg : string) :
  In (ScrapeMutate arg) (snd (step st ev)) ->
  arg = trim (url st) /\ arg <> "" /\ trim arg = arg /\
  (substring_of "domain.com.au" arg \/
   substring_of "realestate.com.au" arg).
Proof.
  intros Hin.
  destruct (scrape_only_on_submit st ev arg Hin)
    as [_ [_ [Hv [_ [Harg Hne]]]]].
  subst arg. repeat split.
  - now apply nonempty_true.
  - apply trim_idempotent.
  - unfold isValidUrl in Hv. apply orb_true_iff in Hv.
    destruct Hv as [Hv|Hv]; apply includes_substring in Hv;
      [left | right]; apply trim_keeps; auto; discriminate.
Qed.

Lemma submitted_url_is_trimmed_listing_witness :
  trim (url domain_listing) <> "" /\
  trim (trim (url domain_listing)) = trim (url domain_listing).
Proof.
  assert (Hin : In (ScrapeMutate (trim (url domain_listing)))
                   (snd (step domain_listing Submit)))
    by (left; reflexivity).
  destruct (submitted_url_is_trimmed_listing domain_listing Submit
              (trim (url domain_listing)) Hin) as [_ [H1 [H2 _]]].
  split; assumption.
Defined.

(** X8.  While a listing is being fetched, nothing the user does on the
    URL form changes the URL or starts a second fetch. *)
Theorem no_action_while_fetching (st : state) (ev : event) :
  scrape_isPending st = true -> showManualForm st = false ->
  snd (step st ev) = [] /\ url (fst (step st ev)) = url st.
Proof.
  intros Hp Hm. unfold step, render. rewrite Hp, Hm, orb_true_r.
  destruct ev; split; reflexivity.
Qed.

Lemma no_action_while_fetching_witness :
  snd (step pending_listing Submit) = [] /\
  url (fst (step pending_listing (ChangeUrl "https://other.example")))
  = url pending_listing.
Proof.
  split.
  - exact (proj1 (no_action_while_fetching pending_listing Submit
                    eq_refl eq_refl)).
  - exact (proj2 (no_action_while_fetching pending_listing
                    (ChangeUrl "https://other.example") eq_refl eq_refl)).
Defined.

(** X9.  The manual form is only submitted with an address, a suburb and
    a postcode that are not empty, while no manual submission is in
    flight, and it sends the form data as they are. *)
Theorem manual_submit_needs_required_fields (st : state) (ev : event)
    (arg : ManualPropertyInput) :
  In (ManualMutate arg) (snd (step st ev)) ->
  arg = manualData st /\ manual_isPending st = false /\
  address arg <> "" /\ suburb arg <> "" /\ postcode arg <> "".
Proof.
  unfold step, render, handleUrlSubmit, handleManualSubmit.
  destruct ev, (showManualForm st) eqn:Hm, (isValidUrl st),
    (scrape_isPending st), (isManualValid st) eqn:Hv,
    (manual_isPending st) eqn:Hp, (nonempty (trim (url st)));
    cbn; intros H; try contradiction;
    repeat match goal with
           | H : _ \/ _ |- _ => destruct H as [H|H]
           | H : False |- _ => contradiction
           | H : ScrapeMutate _ = ManualMutate _ |- _ => discriminate H
           | H : ManualMutate _ = ManualMutate _ |- _ => injection H as <-
           end;
    unfold isManualValid in Hv; rewrite !andb_true_iff in Hv;
    destruct Hv as [[Ha Hs] Hc];
    repeat split; auto; now apply nonempty_true.
Qed.

Lemma manual_submit_needs_required_fields_witness :
  address (manualData manual_entry) <> "" /\
  suburb (manualData manual_entry) <> "" /\
  postcode (manualData manual_entry) <> "".
Proof.
  assert (Hin : In (ManualMutate (manualData manual_entry))
                   (snd (step manual_entry Submit)))
    by (left; reflexivity).
  destruct (manual_submit_needs_required_fields manual_entry Submit
              (manualData manual_entry) Hin) as [_ [_ H]].
  exact H.
Defined.

(** The required fields are tested for emptiness only: blanks pass. *)
Example blank_address_is_accepted :
  render (State "" true None (Build_ManualPropertyInput " " " " " " "")
                false false)
  = ManualForm false.
Proof. reflexivity. Qed.

End PropertyInputMore.

(* ================================================================== *)
(** * The page                                                          *)
(* ================================================================== *)

Module HomeFacts.
Import Home.
Open Scope list_scope.

Lemma step_keeps_data (st : state) (ev : event) :
  (stage st = input <-> analysisData st = None) ->
  (stage (step st ev) = input <-> analysisData (step st ev) = None).
Proof.
  destruct st as [[] [d|]]; intros [H1 H2]; destruct ev; cbn;
    split; intros H; try reflexivity; try discriminate;
    try (specialize (H1 eq_refl); discriminate);
    try (specialize (H2 eq_refl); discriminate).
Qed.

(** X10.  Whatever happens on the page, it holds analysis data exactly
    when it has left the input stage: every stage after the first finds
    the data its panel needs, and a blank page is never rendered. *)
Theorem page_never_blank (evs : list event) :
  let st := run initial evs in
  (stage st = input <-> analysisData st = None) /\ render st <> NoPanel.
Proof.
  cbn zeta. unfold run.
  assert (Hinv : forall st,
             (stage st = input <-> analysisData st = None) ->
             stage (fold_left step evs st) = input
             <-> analysisData (fold_left step evs st) = None).
  { induction evs as [|ev evs IH]; intros st Hst; cbn [fold_left].
    - exact Hst.
    - apply IH. now apply step_keeps_data. }
  specialize (Hinv initial ltac:(cbn; tauto)).
  split; [exact Hinv|].
  destruct (fold_left step evs initial) as [[] [d|]]; cbn in *;
    try discriminate; destruct Hinv as [H1 H2];
    try (specialize (H1 eq_refl); discriminate);
    try (specialize (H2 eq_refl); discriminate).
Qed.

(** X11.  The analysis stage is entered from the documents stage only,
    and the documents stage from the street-level stage only; the verdict
    is not consulted, so a REJECT does not stop the user from going on. *)
Theorem stages_in_order (st : state) (ev : event) :
  (stage (step st ev) = analysis ->
   stage st = analysis \/ stage st = documents) /\
  (stage (step st ev) = documents ->
   stage st = documents \/ stage st = street_level) /\
  (forall d, analysisData st = Some d -> stage st = street_level ->
             step st ClickContinueToDocuments = State documents (Some d)).
Proof.
  destruct st as [[] [d|]]; repeat split; destruct ev; cbn;
    intros; try discriminate; auto;
    unfold handleProceedToDocuments; cbn; congruence.
Qed.

Lemma stages_in_order_witness :
  step (State street_level (Some rejected)) ClickContinueToDocuments
  = State documents (Some rejected).
Proof.
  exact (proj2 (proj2 (stages_in_order (State street_level (Some rejected))
                         ClickLogo)) rejected eq_refl eq_refl).
Defined.

Example rejected_listing_reaches_analysis :
  render (run initial [AnalysisComplete rejected; ClickContinueToDocuments;
                       ClickSkipDocuments])
  = AnalysisPanel rejected.
Proof. reflexivity. Qed.

End HomeFacts.

(* ================================================================== *)
(** * Stamp duty, land tax and the cash-flow model                      *)
(* ================================================================== *)

Module MoneyFacts.
Import Py Num NumFacts.
Open Scope Q_scope.

Lemma leb_le (x y : Q) : leb x y = true <-> x <= y.
Proof. apply Qle_bool_iff. Qed.

Lemma leb_gt (x y : Q) : leb x y = false <-> y < x.
Proof.
  unfold leb. rewrite <- not_true_iff_false, Qle_bool_iff.
  split; [apply Qnot_le_lt | apply Qlt_not_le].
Qed.

Lemma max_0_nonneg (x : Q) : 0 <= max 0 x.
Proof.
  unfold max. destruct (ltb 0 x) eqn:H; [apply ltb_lt in H|]; lra.
Qed.

Lemma max_0_of_nonpos (x : Q) : x <= 0 -> max 0 x = 0.
Proof.
  intros H. unfold max.
  assert (Hl : ltb 0 x = false) by (apply ltb_ge; exact H).
  now rewrite Hl.
Qed.

Lemma max_0_of_nonneg (x : Q) : 0 <= x -> max 0 x == x.
Proof.
  intros H. unfold max.
  destruct (ltb 0 x) eqn:Hl; [reflexivity|]. apply ltb_ge in Hl. lra.
Qed.

Lemma truediv_zero (x y : Q) :
  y == 0 -> truediv x y = Raise ZeroDivisionError.
Proof.
  intros H. unfold truediv.
  assert (Hb : Qeq_bool y 0 = true) by (apply Qeq_bool_iff; exact H).
  now rewrite Hb.
Qed.

Lemma truediv_nonzero (x y : Q) : ~ y == 0 -> truediv x y = Ok (x / y).
Proof.
  intros H. unfold truediv.
  destruct (Qeq_bool y 0) eqn:Hb; [|reflexivity].
  apply Qeq_bool_iff in Hb. contradiction.
Qed.

(** Split on every threshold test of a bracket function. *)
Ltac brackets :=
  repeat match goal with
         | |- context [leb ?x ?y] =>
             let H := fresh "Hb" in
             destruct (leb x y) eqn:H;
             [apply leb_le in H | apply leb_gt in H]
         end.

End MoneyFacts.

Module VictorianStampDutyCalculatorFacts.
Import Py Num NumFacts MoneyFacts VictorianStampDutyCalculator.
Open Scope Q_scope.
Open Scope string_scope.

(** X14.  The first-home-buyer concession never exceeds the duty and is
    never negative (for a duty that is not negative); for a given duty it
    does not grow with the price: it is the whole duty up to 600,000 and
    nothing from 750,000 on. *)
Theorem fhb_concession_slides (p1 p2 base_duty : Q) :
  0 <= base_duty -> p1 <= p2 ->
  0 <= _calculate_fhb_concession p2 base_duty /\
  _calculate_fhb_concession p2 base_duty
  <= _calculate_fhb_concession p1 base_duty /\
  _calculate_fhb_concession p1 base_duty <= base_duty /\
  (p1 <= 600000 -> _calculate_fhb_concession p1 base_duty = base_duty) /\
  (750000 <= p2 -> _calculate_fhb_concession p2 base_duty == 0).
Proof.
  intros Hb Hp. unfold _calculate_fhb_concession. cbn zeta.
  assert (Hs : forall p, 600000 < p -> p <= 750000 ->
               0 <= base_duty * ((750000 - p) / 150000) /\
               base_duty * ((750000 - p) / 150000) <= base_duty).
  { intros p H1 H2. unfold Qdiv. change (/ 150000) with (1 # 150000).
    split; nra. }
  assert (Hm : forall p q, 600000 < p -> p <= q -> q <= 750000 ->
               base_duty * ((750000 - q) / 150000)
               <= base_duty * ((750000 - p) / 150000)).
  { intros p q H1 H2 H3. unfold Qdiv. change (/ 150000) with (1 # 150000).
    nra. }
  brackets; repeat split; intros; try reflexivity; try lra;
    try (apply Hs; lra); try (apply Hm; lra);
    try (destruct (Hs p1 ltac:(lra) ltac:(lra)); lra);
    try (destruct (Hs p2 ltac:(lra) ltac:(lra)); lra).
  all: assert (Heq : p2 == 750000) by lra; rewrite Heq;
    unfold Qdiv; change (/ 150000) with (1 # 150000); lra.
Qed.

Lemma fhb_concession_slides_witness :
  _calculate_fhb_concession 700000 35000
  <= _calculate_fhb_concession 650000 35000.
Proof.
  refine (proj1 (proj2 (fhb_concession_slides 650000 700000 35000 _ _)));
    unfold Qle; cbn; lia.
Defined.

Section Calculator.
Context {notes : Type}.
Variable _calculate_base_duty : Q -> Q.
Variable _calculate_pensioner_concession : Q -> Q.
Variable _get_applicable_notes : notes.

Local Abbreviation calculate' :=
  (calculate _calculate_base_duty _calculate_pensioner_concession
             _get_applicable_notes).

(** X12.  [calculate] raises ZeroDivisionError exactly for a purchase
    price of zero; for any other price it returns, with a total duty
    that is never negative and an effective rate of
    total duty / price * 100. *)
Theorem stamp_duty_fails_on_zero_price (purchase_price : Q)
    (property_type purchaser_status : string)
    (first_home_buyer principal_residence pensioner : bool) :
  (purchase_price == 0 ->
   calculate' purchase_price property_type purchaser_status
              first_home_buyer principal_residence pensioner
   = Raise ZeroDivisionError) /\
  (~ purchase_price == 0 ->
   returns (calculate' purchase_price property_type purchaser_status
                       first_home_buyer principal_residence pensioner)
     (fun r => 0 <= total_duty r /\
               effective_rate r
               == total_duty r / purchase_price * 100)).
Proof.
  unfold calculate. split; intros Hp.
  - rewrite truediv_zero by exact Hp. reflexivity.
  - rewrite truediv_nonzero by exact Hp. cbn [bind].
    eexists. split; [reflexivity|]. cbn [total_duty effective_rate].
    split; [apply max_0_nonneg | reflexivity].
Qed.

(** X13.  A first-home buyer who buys a principal residence for at most
    600,000, with no pensioner concession claimed and a duty that is not
    negative, pays no duty at all, except for the 8% surcharge of a
    foreign purchaser of residential property. *)
Theorem first_home_buyer_pays_no_duty (purchase_price : Q)
    (property_type purchaser_status : string) :
  0 < purchase_price -> purchase_price <= 600000 ->
  0 <= _calculate_base_duty purchase_price ->
  returns (calculate' purchase_price property_type purchaser_status
                      true true false)
    (fun r => total_duty r == foreign_surcharge r /\
              foreign_surcharge r
              == if String.eqb purchaser_status "foreign"
                    && String.eqb property_type "residential"
                 then purchase_price * 0.08 else 0).
Proof.
  intros Hpos Hcap Hbase. unfold calculate.
  rewrite truediv_nonzero by lra. cbn [bind andb].
  eexists. split; [reflexivity|].
  cbn [total_duty foreign_surcharge].
  unfold _calculate_fhb_concession.
  assert (Hl : leb purchase_price 600000 = true) by now apply leb_le.
  rewrite Hl. split; [|reflexivity].
  destruct (String.eqb purchaser_status "foreign"
            && String.eqb property_type "residential").
  - rewrite max_0_of_nonneg; unfold FOREIGN_PURCHASER_SURCHARGE; lra.
  - rewrite max_0_of_nonneg; lra.
Qed.
End Calculator.

Lemma stamp_duty_fails_on_zero_price_witness :
  calculate five_percent no_concession tt 0 "residential" "citizen"
            false false false
  = Raise ZeroDivisionError.
Proof.
  apply (proj1 (stamp_duty_fails_on_zero_price five_percent no_concession tt
                  0 "residential" "citizen" false false false)).
  reflexivity.
Defined.

Lemma first_home_buyer_pays_no_duty_witness :
  returns (calculate five_percent no_concession tt 550000 "residential"
                     "citizen" true true false)
    (fun r => total_duty r == foreign_surcharge r /\
              foreign_surcharge r == 0).
Proof.
  apply (first_home_buyer_pays_no_duty five_percent no_concession tt
           550000 "residential" "citizen"); unfold Qlt, Qle; cbn; lia.
Defined.

(** Concessions that exceed the duty are cut off at zero. *)
Example duty_floor :
  returns (calculate five_percent (fun _ => 100000) tt 500000 "residential"
                     "citizen" false true true)
          (fun r => total_duty r = 0 /\ effective_rate r == 0).
Proof. eexists. split; [vm_compute; reflexivity|]. split; reflexivity. Qed.

End VictorianStampDutyCalculatorFacts.

Module InvestorCashFlowModelFacts.
Import Py Num NumFacts MoneyFacts InvestorCashFlowModel.
Open Scope Q_scope.
Open Scope string_scope.
Open Scope list_scope.

(** X15.  Land tax never falls when the holdings grow: it is charged on
    the sum of the land value and the other holdings, and a larger sum
    never gives a smaller tax, across the brackets too. *)
Theorem land_tax_monotone (lv1 th1 lv2 th2 : Q) :
  lv1 + th1 <= lv2 + th2 ->
  _calculate_land_tax lv1 th1 <= _calculate_land_tax lv2 th2.
Proof.
  intros Hle. unfold _calculate_land_tax. cbn zeta.
  set (t1 := lv1 + th1) in *. set (t2 := lv2 + th2) in *.
  brackets; lra.
Qed.

Lemma land_tax_monotone_witness :
  _calculate_land_tax 100000 0 <= _calculate_land_tax 60000 40001.
Proof.
  apply land_tax_monotone. unfold Qle; cbn; lia.
Defined.

(** X16.  Land tax is never negative, is zero exactly up to holdings of
    50,000, and stays below 2% of the holdings. *)
Theorem land_tax_bounds (land_value total_holdings : Q) :
  0 <= _calculate_land_tax land_value total_holdings /\
  (_calculate_land_tax land_value total_holdings == 0
   <-> land_value + total_holdings <= 50000) /\
  (0 <= land_value + total_holdings ->
   _calculate_land_tax land_value total_holdings
   <= (land_value + total_holdings) * 0.02).
Proof.
  unfold _calculate_land_tax. cbn zeta.
  set (t := land_value + total_holdings) in *.
  brackets; repeat split; intros; try lra.
Qed.

(** The tax is that of the whole holdings, not the property's share, and
    it jumps at a bracket edge. *)
Example land_tax_of_the_whole :
  _calculate_land_tax 400000 1600000 == _calculate_land_tax 2000000 0 /\
  _calculate_land_tax 100000 0 == 10 /\
  _calculate_land_tax 100001 0 == 500.0005.
Proof. repeat split; reflexivity. Qed.

Lemma land_tax_bounds_witness :
  _calculate_land_tax 600000 0 <= (600000 + 0) * 0.02.
Proof.
  apply (proj2 (proj2 (land_tax_bounds 600000 0))). unfold Qle; cbn; lia.
Defined.

(** ** The cash-flow model *)

Lemma loan_payments_interest_only (kind : string) (loan rate : Q) :
  String.eqb kind "interest_only" = true ->
  loan_payments kind loan rate = Ok (loan * rate, 0).
Proof. intros H. unfold loan_payments. now rewrite H. Qed.

Lemma loan_payments_annuity (kind : string) (loan rate : Q) :
  String.eqb kind "interest_only" = false ->
  loan_payments kind loan rate
  = (growth <- pow (1 + rate / 12) 360 ;;
     monthly_payment <-
       truediv (loan * (rate / 12 * growth)) (growth - 1) ;;
     Ok (loan * rate, monthly_payment * 12 - loan * rate)).
Proof. intros H. unfold loan_payments. now rewrite H. Qed.


Section Model.
Context {breakdown : Type}.
Variable _calculate_acquisition_costs : Q -> Q.
Variable _get_acquisition_costs_breakdown : Q -> breakdown.

Local Opaque abs Qpower.

Local Abbreviation calculate' :=
  (calculate _calculate_acquisition_costs
             _get_acquisition_costs_breakdown).

(** Open a call that returned: the loan payments, the sign of the
    taxable income and the three quotients. *)
Ltac open_calculate H :=
  unfold calculate in H;
  match type of H with
  | context [loan_payments ?k ?l ?r] =>
      let ai := fresh "ai" in
      let ap := fresh "ap" in
      let Hl := fresh "Hloan" in
      destruct (loan_payments k l r) as [[ai ap]|?] eqn:Hl;
      cbn [bind] in H; [|discriminate H]
  end;
  match type of H with
  | context [ltb ?x 0] =>
      let Hn := fresh "Hneg" in
      destruct (ltb x 0) eqn:Hn
  end;
  unfold truediv in H;
  repeat match type of H with
         | context [Qeq_bool ?x 0] =>
             match x with
             | context [get_or "strata_levies"] => fail 1
             | _ => destruct (Qeq_bool x 0) eqn:?;
                    cbn [bind] in H; [discriminate H|]
             end
         end;
  injection H as <-.

(** X17.  With an interest-only loan (the default) the model has three
    clear-cut cases: a purchase price of 0 raises ZeroDivisionError (the
    gross yield divides by it); so does a loan of the whole price with
    acquisition costs of 0 (the cash-on-cash return divides by an equity
    of 0); and a positive price with a loan of at most the price and
    positive acquisition costs always returns. *)
Theorem interest_only_cash_flow_errors (purchase_price weekly_rent : Q)
    (outgoings : Dict.dict Q) (finance : finance_params)
    (investor_params : Dict.dict Q) :
  interest_only finance = true ->
  (purchase_price == 0 ->
   calculate' purchase_price weekly_rent outgoings finance investor_params
   = Raise ZeroDivisionError) /\
  (0 < purchase_price -> lvr finance = Some 1 ->
   _calculate_acquisition_costs purchase_price == 0 ->
   calculate' purchase_price weekly_rent outgoings finance investor_params
   = Raise ZeroDivisionError) /\
  (0 < purchase_price ->
   match lvr finance with Some x => x | None => 0.8 end <= 1 ->
   0 < _calculate_acquisition_costs purchase_price ->
   exists r,
     calculate' purchase_price weekly_rent outgoings finance
                investor_params = Ok r).
Proof.
  intros Hio. unfold interest_only in Hio. unfold calculate. cbn zeta.
  rewrite (loan_payments_interest_only _ _ _ Hio). cbn [bind].
  set (l := match lvr finance with Some x => x | None => 0.8 end).
  repeat split.
  - intros Hp.
    match goal with
    | |- context [ltb ?x 0] => destruct (ltb x 0)
    end;
      rewrite (truediv_zero _ _ Hp); reflexivity.
  - intros Hp Hl Hc.
    assert (Hne : ~ purchase_price == 0) by lra.
    assert (He : purchase_price * (1 - l)
                 + _calculate_acquisition_costs purchase_price == 0)
      by (unfold l; rewrite Hl, Hc; ring).
    match goal with
    | |- context [ltb ?x 0] => destruct (ltb x 0)
    end;
      rewrite !(truediv_nonzero _ _ Hne); cbn [bind];
      rewrite (truediv_zero _ _ He); reflexivity.
  - intros Hp Hl Hc.
    assert (Hne : ~ purchase_price == 0) by lra.
    assert (He : ~ purchase_price * (1 - l)
                   + _calculate_acquisition_costs purchase_price == 0)
      by nra.
    match goal with
    | |- context [ltb ?x 0] => destruct (ltb x 0)
    end;
      rewrite !(truediv_nonzero _ _ Hne); cbn [bind];
      rewrite (truediv_nonzero _ _ He); cbn [bind]; eexists; reflexivity.
Qed.


(** X19.  The strata levies are reported at four times the amount that
    is counted: the total takes the quarterly levy times 4, the
    breakdown shows it times 16, so the items of the breakdown exceed
    the total by 12 quarterly levies. *)
Theorem strata_levies_reported_fourfold (purchase_price weekly_rent : Q)
    (outgoings : Dict.dict Q) (finance : finance_params)
    (investor_params : Dict.dict Q) (r : cash_flow) :
  calculate' purchase_price weekly_rent outgoings finance investor_params
  = Ok r ->
  strata_levies (cf_outgoings r)
  == 16 * get_or "strata_levies" outgoings 0 /\
  council_rates (cf_outgoings r) + water_rates (cf_outgoings r)
  + strata_levies (cf_outgoings r) + insurance (cf_outgoings r)
  + property_management (cf_outgoings r)
  + repairs_maintenance (cf_outgoings r) + land_tax (cf_outgoings r)
  - total (cf_outgoings r)
  == 12 * get_or "strata_levies" outgoings 0.
Proof.
  intros H.
  assert (Hs : forall q : Q,
             (if Qeq_bool (q * 4) 0 then 0 else q * 4 * 4) == 16 * q).
  { intros q. destruct (Qeq_bool (q * 4) 0) eqn:Hq; [|ring].
    apply Qeq_bool_eq in Hq. lra. }
  open_calculate H;
    cbn [cf_outgoings strata_levies council_rates water_rates insurance
         property_management repairs_maintenance land_tax total];
    rewrite Hs; split; ring.
Qed.

(** X20.  A loan that is not interest-only, of a positive amount and
    at a positive rate of at most 100% a year, repays principal in the
    first year; an interest-only loan repays none. *)
Theorem principal_is_repaid (purchase_price weekly_rent : Q)
    (outgoings : Dict.dict Q) (finance : finance_params)
    (investor_params : Dict.dict Q) (r : cash_flow) :
  calculate' purchase_price weekly_rent outgoings finance investor_params
  = Ok r ->
  (forall kind rate,
      loan_type finance = Some kind -> kind <> "interest_only" ->
      interest_rate finance = Some rate -> 0 < rate -> rate <= 1 ->
      0 < loan_amount (cf_finance r) ->
      0 < annual_principal (cf_finance r)) /\
  (interest_only finance = true ->
   annual_principal (cf_finance r) = 0).
Proof.
  intros H. split.
  - intros kind rate Hkind Hne Hrate Hpos _ Hloan.
    unfold calculate in H. rewrite Hkind, Hrate in H.
    apply String.eqb_neq in Hne.
    rewrite (loan_payments_annuity kind _ _ Hne) in H.
    unfold pow in H.
    destruct (Qle_bool FLOAT_OVERFLOW (Qabs ((1 + rate / 12) ^ 360)));
      cbn [bind] in H; [discriminate H|].
    unfold truediv at 1 in H.
    destruct (Qeq_bool ((1 + rate / 12) ^ 360 - 1) 0) eqn:Hz;
      cbn [bind] in H; [discriminate H|].
    match type of H with
    | context [ltb ?x 0] => destruct (ltb x 0)
    end;
      unfold truediv in H;
      repeat match type of H with
             | context [Qeq_bool ?x 0] =>
                 match x with
                 | context [get_or "strata_levies"] => fail 1
                 | _ => destruct (Qeq_bool x 0);
                        cbn [bind] in H; [discriminate H|]
                 end
             end;
      injection H as <-;
      cbn [cf_finance annual_principal loan_amount] in *.
    all: set (L := purchase_price * _) in *.
    all: assert (HP : 1 < (1 + rate / 12) ^ 360)
           by (apply Qpower_1_lt; [|lia];
               unfold Qdiv; change (/ 12) with (1 # 12); lra).
    all: set (P := (1 + rate / 12) ^ 360) in *.
    all: assert (Hi : 0 < / (P - 1)) by (apply Qinv_lt_0_compat; lra).
    all: assert (Heq : L * (rate / 12 * P) / (P - 1) * 12 - L * rate
                       == L * rate * / (P - 1)) by (field; lra).
    all: rewrite Heq.
    all: apply Qmult_lt_0_compat; [|exact Hi].
    all: apply Qmult_lt_0_compat; assumption.
  - intros Hio. unfold interest_only in Hio. unfold calculate in H.
    rewrite (loan_payments_interest_only _ _ _ Hio) in H.
    cbn [bind] in H.
    match type of H with
    | context [ltb ?x 0] => destruct (ltb x 0)
    end;
      unfold truediv in H;
      repeat match type of H with
             | context [Qeq_bool ?x 0] =>
                 match x with
                 | context [get_or "strata_levies"] => fail 1
                 | _ => destruct (Qeq_bool x 0);
                        cbn [bind] in H; [discriminate H|]
                 end
             end;
      injection H as <-; reflexivity.
Qed.
End Model.

Lemma interest_only_cash_flow_errors_witness :
  calculate five_percent_costs no_breakdown 0 500 Dict.empty
            default_finance Dict.empty = Raise ZeroDivisionError.
Proof.
  refine (proj1 (interest_only_cash_flow_errors five_percent_costs
                   no_breakdown 0 500 Dict.empty default_finance
                   Dict.empty _) _); reflexivity.
Defined.

(** A loan of the whole price without acquisition costs leaves no equity
    to divide by; a rate out of the range of the power raises
    OverflowError. *)
Example no_equity_no_return :
  calculate no_costs no_breakdown 600000 500 Dict.empty whole_price_loan
            Dict.empty = Raise ZeroDivisionError /\
  calculate five_percent_costs no_breakdown 600000 500 Dict.empty
            (p_and_i 100) Dict.empty = Raise OverflowError.
Proof. split; vm_compute; reflexivity. Qed.


Lemma strata_levies_reported_fourfold_witness :
  exists r,
    calculate five_percent_costs no_breakdown 600000 500
              (Dict.set "strata_levies" 1000 Dict.empty)
              default_finance Dict.empty = Ok r /\
    strata_levies (cf_outgoings r) == 16000.
Proof.
  eexists. split; [vm_compute; reflexivity|].
  refine (proj1 (strata_levies_reported_fourfold five_percent_costs
                   no_breakdown 600000 500
                   (Dict.set "strata_levies" 1000 Dict.empty)
                   default_finance Dict.empty _ _)).
  vm_compute; reflexivity.
Defined.

Lemma principal_is_repaid_witness :
  exists r,
    calculate five_percent_costs no_breakdown 600000 500 Dict.empty
              (p_and_i 0.06) Dict.empty = Ok r /\
    0 < annual_principal (cf_finance r).
Proof.
  eexists. split; [vm_compute; reflexivity|].
  refine (proj1 (principal_is_repaid five_percent_costs no_breakdown
                   600000 500 Dict.empty (p_and_i 0.06) Dict.empty _ _)
            "principal_and_interest" 0.06 eq_refl _ eq_refl _ _ _);
    [vm_compute; reflexivity | discriminate | reflexivity
    | unfold Qle; cbn; lia | reflexivity].
Defined.

End InvestorCashFlowModelFacts.
(* ================================================================== *)
(** * The cooling-off deadline                                          *)
(* ================================================================== *)

Module CoolingOffCalculatorFacts.
Import Py CoolingOffCalculator.
Open Scope Z_scope.
Open Scope list_scope.

Lemma weekday_range (d : date) : 0 <= weekday d < 7.
Proof. unfold weekday. apply Z.mod_pos_bound. lia. Qed.

Lemma weekday_succ (d : date) :
  weekday (d + 1) = if weekday d =? 6 then 0 else weekday d + 1.
Proof.
  unfold weekday. destruct (Z.eqb_spec ((d + 6) mod 7) 6);
    Z.to_euclidean_division_equations; lia.
Qed.


Lemma weekend_ahead_none (d : date) :
  weekday (d + 1) < 5 -> weekend_ahead d = 0%nat.
Proof.
  intros H. unfold weekend_ahead. rewrite weekday_succ in *.
  pose proof (weekday_range d).
  destruct (Z.eqb_spec (weekday d) 6); [|].
  - destruct (Z.eqb_spec (weekday d) 4); [lia|].
    destruct (Z.eqb_spec (weekday d) 5); [lia|]. reflexivity.
  - destruct (Z.eqb_spec (weekday d) 4); [lia|].
    destruct (Z.eqb_spec (weekday d) 5); [lia|]. reflexivity.
Qed.


Lemma contains_In (hs : list date) (d : date) :
  contains hs d = true <-> In d hs.
Proof.
  unfold contains. rewrite existsb_exists. split.
  - intros [x [Hin Heq]]. apply Z.eqb_eq in Heq. now subst.
  - intros Hin. exists d. split; [exact Hin | apply Z.eqb_refl].
Qed.






Lemma days_after_nil (d e : date) : e <= d -> days_after d e = [].
Proof.
  intros H. unfold days_after.
  replace (Z.to_nat (e - d)) with 0%nat by lia. reflexivity.
Qed.

Lemma days_after_cons (d e : date) :
  d < e -> days_after d e = (d + 1) :: days_after (d + 1) e.
Proof.
  intros H. unfold days_after.
  replace (Z.to_nat (e - d)) with (S (Z.to_nat (e - (d + 1)))) by lia.
  cbn [seq map]. f_equal. rewrite <- seq_shift, map_map.
  apply map_ext. intros i. lia.
Qed.

Lemma clear_days_between_step (hs : list date) (d e : date) :
  d < e ->
  clear_days_between hs d e
  = (if business_day hs (d + 1) then 1 else 0)
    + clear_days_between hs (d + 1) e.
Proof.
  intros H. unfold clear_days_between. rewrite (days_after_cons d e H).
  cbn [filter]. destruct (business_day hs (d + 1)); cbn [List.length]; lia.
Qed.

(** What the loop returns, whatever the fuel: the day on which the
    count of clear days reaches three. *)
Lemma while_clear_days_spec (hs : list date) (fuel : nat) :
  forall (clear_days : Z) (d e : date),
    while_clear_days fuel hs clear_days d = Some (Ok e) ->
    (3 <= clear_days -> e = d) /\
    (clear_days < 3 ->
     d < e <= MAXORDINAL /\ business_day hs e = true /\
     clear_days + clear_days_between hs d e = 3).
Proof.
  induction fuel as [|fuel IH]; intros clear_days d e H.
  - cbn in H. destruct (Z.ltb_spec clear_days 3); [discriminate|].
    injection H as <-. split; [reflexivity | lia].
  - cbn [while_clear_days] in H.
    destruct (Z.ltb_spec clear_days 3) as [Hc|Hc];
      [|injection H as <-; split; [reflexivity | lia]].
    split; [lia|]. intros _.
    unfold next_day in H.
    destruct (Z.leb_spec (d + 1) MAXORDINAL) as [Hmax|Hmax];
      [|discriminate H].
    destruct (Z.geb_spec (weekday (d + 1)) 5) as [Hw|Hw].
    + destruct (IH _ _ _ H) as [_ IH2]. destruct (IH2 Hc) as (Hlt & Hb & Hn).
      repeat split; [lia | lia | exact Hb |].
      rewrite clear_days_between_step by lia.
      replace (business_day hs (d + 1)) with false; [lia|].
      unfold business_day. destruct (Z.ltb_spec (weekday (d + 1)) 5);
        [lia | reflexivity].
    + destruct (contains hs (d + 1)) eqn:Hh.
      * destruct (IH _ _ _ H) as [_ IH2].
        destruct (IH2 Hc) as (Hlt & Hb & Hn).
        repeat split; [lia | lia | exact Hb |].
        rewrite clear_days_between_step by lia.
        replace (business_day hs (d + 1)) with false; [lia|].
        unfold business_day. rewrite Hh. now rewrite andb_false_r.
      * assert (Hbd : business_day hs (d + 1) = true).
        { unfold business_day. rewrite Hh.
          destruct (Z.ltb_spec (weekday (d + 1)) 5); [reflexivity | lia]. }
        destruct (IH _ _ _ H) as [IH1 IH2].
        destruct (Z.ltb_spec (clear_days + 1) 3) as [Hc'|Hc'].
        -- destruct (IH2 Hc') as (Hlt & Hb & Hn).
           repeat split; [lia | lia | exact Hb |].
           rewrite clear_days_between_step by lia. rewrite Hbd. lia.
        -- rewrite (IH1 Hc'). repeat split; [lia | lia | exact Hbd |].
           rewrite clear_days_between_step by lia. rewrite Hbd.
           unfold clear_days_between. rewrite days_after_nil by lia.
           cbn. lia.
Qed.

(** One iteration, for a day that is not the last one. *)
Lemma while_clear_days_step (hs : list date) (fuel : nat)
    (clear_days : Z) (d : date) :
  clear_days < 3 -> d + 1 <= MAXORDINAL ->
  while_clear_days (S fuel) hs clear_days d
  = if weekday (d + 1) >=? 5 then while_clear_days fuel hs clear_days (d + 1)
    else if contains hs (d + 1)
         then while_clear_days fuel hs clear_days (d + 1)
         else while_clear_days fuel hs (clear_days + 1) (d + 1).
Proof.
  intros Hc Hmax. cbn [while_clear_days]. unfold next_day.
  destruct (Z.ltb_spec clear_days 3); [|lia].
  destruct (Z.leb_spec (d + 1) MAXORDINAL); [reflexivity | lia].
Qed.

Lemma while_clear_days_done (hs : list date) (fuel : nat)
    (clear_days : Z) (d : date) :
  3 <= clear_days -> while_clear_days fuel hs clear_days d = Some (Ok d).
Proof.
  intros Hc. destruct fuel; cbn [while_clear_days];
    destruct (Z.ltb_spec clear_days 3); (lia || reflexivity).
Qed.

Section Deadline.
Variable year : date -> Z.
Variable _get_victorian_public_holidays : Z -> list date.

Local Abbreviation deadline :=
  (_calculate_deadline year _get_victorian_public_holidays).
Local Abbreviation holidays :=
  (fun d => _get_victorian_public_holidays (year d)).


(** X22.  The deadline is a business day after the signing day, and
    exactly three business days lie after the signing day up to and
    including it: the signing day, weekends and the holidays of the
    signing year's table are not counted. *)
Theorem deadline_is_third_clear_day (fuel : nat) (signed_date e : date) :
  deadline fuel signed_date = Some (Ok e) ->
  signed_date < e <= MAXORDINAL /\
  weekday e < 5 /\
  ~ In e (holidays signed_date) /\
  clear_days_between (holidays signed_date) signed_date e = 3.
Proof.
  intros H. unfold _calculate_deadline in H.
  destruct (while_clear_days_spec _ _ _ _ _ H) as [_ Hs].
  destruct Hs as (Hlt & Hb & Hn); [lia|].
  unfold business_day in Hb. apply andb_true_iff in Hb as [Hw Hh].
  apply Z.ltb_lt in Hw. apply negb_true_iff in Hh.
  repeat split; [lia | lia | exact Hw | | lia].
  intros Hin. apply contains_In in Hin. congruence.
Qed.

Local Opaque while_clear_days.

(** X23.  With no holiday in the table, the deadline follows from the
    weekday of signing alone: three days on for a Monday, Tuesday or
    Sunday signing, five for Wednesday to Friday, four for Saturday,
    as long as that day is not past [date.max]. *)
Theorem deadline_without_holidays (fuel : nat) (signed_date : date) :
  holidays signed_date = [] ->
  (5 <= fuel)%nat ->
  signed_date + plain_offset (weekday signed_date) <= MAXORDINAL ->
  deadline fuel signed_date
  = Some (Ok (signed_date + plain_offset (weekday signed_date))).
Proof.
  intros Hh Hfuel Hmax. unfold _calculate_deadline. rewrite Hh.
  do 5 (destruct fuel as [|fuel]; [lia|]). clear Hfuel Hh.
  pose proof (weekday_range signed_date) as Hr.
  assert (Hw : forall k, weekday (signed_date + k)
                         = (weekday signed_date + k) mod 7).
  { intros k. unfold weekday. Z.to_euclidean_division_equations; lia. }
  assert (Hcase : weekday signed_date = 0 \/ weekday signed_date = 1 \/
                  weekday signed_date = 2 \/ weekday signed_date = 3 \/
                  weekday signed_date = 4 \/ weekday signed_date = 5 \/
                  weekday signed_date = 6) by lia.
  cbn zeta.
  destruct Hcase as [E|[E|[E|[E|[E|[E|E]]]]]]; rewrite E in *;
    cbn in Hmax;
    repeat (first
      [ rewrite while_clear_days_done by lia
      | rewrite while_clear_days_step by lia;
        rewrite <- ?Z.add_assoc; cbn [Z.add Pos.add Pos.succ];
        rewrite Hw; cbn ]);
    reflexivity.
Qed.

Local Transparent while_clear_days.
End Deadline.


Lemma deadline_is_third_clear_day_witness :
  739246 < 739252 <= MAXORDINAL /\
  weekday 739252 < 5 /\
  ~ In 739252 (one_holiday 739247 (no_year 739246)) /\
  clear_days_between (one_holiday 739247 (no_year 739246)) 739246 739252
  = 3.
Proof.
  apply (deadline_is_third_clear_day no_year (one_holiday 739247) 12
           739246 739252).
  reflexivity.
Defined.

Lemma deadline_without_holidays_witness :
  _calculate_deadline no_year no_holidays 5 739246
  = Some (Ok (739246 + plain_offset (weekday 739246))).
Proof.
  apply (deadline_without_holidays no_year no_holidays 5 739246);
    [reflexivity | lia | vm_compute; discriminate].
Defined.

(** A contract signed on Wednesday 9999-12-29 has two business days left
    in the calendar: the loop raises OverflowError. *)
Example deadline_past_the_calendar :
  weekday 3652057 = 2 /\
  _calculate_deadline no_year no_holidays 5 3652057
  = Some (Raise OverflowError).
Proof. split; reflexivity. Qed.

End CoolingOffCalculatorFacts.

(* ================================================================== *)
(** * The due-diligence checklist tracker                               *)
(* ================================================================== *)

Module DueDiligenceComplianceTrackerFacts.
Import Py Num NumFacts MoneyFacts DueDiligenceComplianceTracker.
Open Scope Q_scope.
Open Scope string_scope.
Open Scope list_scope.

Lemma inject_Z_zero (z : Z) : inject_Z z == 0 -> z = 0%Z.
Proof. unfold Qeq. cbn. lia. Qed.

Lemma checklist_length : List.length checklist_items = 18%nat.
Proof. reflexivity. Qed.

Section Tracker.
Context {analysis R : Type}.
Variable _check_item_status : string -> analysis -> string.
Variable _get_priority_actions : list string -> R.

Local Abbreviation status :=
  (get_completion_status _check_item_status _get_priority_actions).
Local Abbreviation complete := (is_complete _check_item_status).
Local Abbreviation na := (is_not_applicable _check_item_status).
Local Abbreviation pend := (is_pending _check_item_status).

Lemma check_items (pa : analysis) (items c p n : list string) :
  fold_left (check_item _check_item_status pa) items (c, p, n)
  = (c ++ filter (complete pa) items,
     p ++ filter (pend pa) items,
     n ++ filter (na pa) items).
Proof.
  revert c p n. induction items as [|i items IH]; intros c p n.
  - cbn. now rewrite !app_nil_r.
  - cbn [fold_left filter]. unfold check_item at 2.
    unfold is_pending, is_not_applicable, is_complete.
    destruct (_check_item_status i pa =? "COMPLETE") eqn:Hc; cbn.
    + rewrite IH, <- app_assoc. reflexivity.
    + destruct (_check_item_status i pa =? "N/A") eqn:Hn; cbn;
        rewrite IH, <- app_assoc; reflexivity.
Qed.

Lemma check_categories (pa : analysis)
    (d : Dict.dict (list string)) (c p n : list string) :
  fold_left
    (fun lists '(category, items) =>
       fold_left (check_item _check_item_status pa) items lists)
    d (c, p, n)
  = (c ++ filter (complete pa) (List.concat (Dict.values d)),
     p ++ filter (pend pa) (List.concat (Dict.values d)),
     n ++ filter (na pa) (List.concat (Dict.values d))).
Proof.
  revert c p n. induction d as [|[k items] d IH]; intros c p n.
  - cbn. now rewrite !app_nil_r.
  - cbn [fold_left Dict.values map List.concat snd].
    rewrite check_items, IH.
    fold (Dict.values d).
    rewrite !filter_app, !app_assoc. reflexivity.
Qed.

Lemma three_classes (pa : analysis) (items : list string) :
  (List.length (filter (complete pa) items)
   + List.length (filter (pend pa) items)
   + List.length (filter (na pa) items)
   = List.length items)%nat.
Proof.
  induction items as [|i items IH]; [reflexivity|].
  cbn [filter List.length].
  pose proof (eq_refl (pend pa i)) as Hp. unfold is_pending at 2 in Hp.
  pose proof (eq_refl (na pa i)) as Hn.
  unfold is_not_applicable at 2 in Hn.
  destruct (complete pa i), (na pa i), (pend pa i);
    cbn in Hp, Hn; try discriminate; cbn [List.length]; lia.
Qed.

(** The result of [get_completion_status], with the rate written as a
    quotient of the two counts. *)
Lemma status_fields (pa : analysis) :
  let c := filter (complete pa) checklist_items in
  let p := filter (pend pa) checklist_items in
  let total := inject_Z (Z.of_nat (List.length c + List.length p)) in
  exists rate,
    (rate == (if Qeq_bool total 0 then 0
              else inject_Z (Z.of_nat (List.length c)) / total * 100)) /\
    status pa
    = Ok {| completion_rate := round rate 1;
            completed := c;
            pending := p;
            not_applicable := filter (na pa) checklist_items;
            ready_for_purchase := leb 90 rate;
            recommendations := _get_priority_actions p |}.
Proof.
  intros c p total. unfold get_completion_status.
  unfold Dict.items. rewrite check_categories.
  fold checklist_items. rewrite !app_nil_l. fold c. fold p.
  assert (Ht : total
               = inject_Z (Z.of_nat (List.length c)
                           + Z.of_nat (List.length p)))
    by (unfold total; now rewrite Nat2Z.inj_add).
  rewrite <- Ht.
  destruct (Z.ltb_spec 0 (Z.of_nat (List.length c)
                          + Z.of_nat (List.length p))) as [Hpos|Hzero].
  - assert (Hne : Qeq_bool total 0 = false).
    { apply not_true_iff_false. intros H. apply Qeq_bool_eq in H.
      rewrite Ht in H. apply inject_Z_zero in H. lia. }
    unfold truediv. rewrite Hne. cbn [bind].
    eexists. split; [reflexivity | reflexivity].
  - assert (He : Qeq_bool total 0 = true).
    { apply Qeq_bool_iff. rewrite Ht.
      replace (Z.of_nat (List.length c) + Z.of_nat (List.length p))%Z
        with 0%Z by lia. reflexivity. }
    rewrite He. cbn [bind]. eexists. split; reflexivity.
Qed.

(** X24.  The tracker never fails, and it files each of the eighteen
    checklist items in exactly one of the three lists, in checklist
    order: complete when the status is COMPLETE, not applicable when it
    is N/A, pending for any other status. *)
Theorem completion_status_partitions_checklist (pa : analysis) :
  returns (status pa) (fun r =>
    completed r = filter (complete pa) checklist_items /\
    not_applicable r = filter (na pa) checklist_items /\
    pending r = filter (pend pa) checklist_items /\
    (List.length (completed r) + List.length (pending r)
     + List.length (not_applicable r) = 18)%nat).
Proof.
  destruct (status_fields pa) as (rate & _ & H).
  eexists. split; [exact H|].
  cbv beta iota delta [completed pending not_applicable].
  repeat split. rewrite <- checklist_length.
  apply (three_classes pa checklist_items).
Qed.

(** X25.  The purchase is ready exactly when something is applicable
    and there are at least nine completed items for each pending one;
    on the eighteen-item checklist that allows at most one pending
    item, and it agrees with the rounded rate that is reported. *)
Theorem ready_for_purchase_one_pending (pa : analysis) :
  returns (status pa) (fun r =>
    (ready_for_purchase r = true <->
     (0 < List.length (completed r) /\
      9 * List.length (pending r) <= List.length (completed r))%nat) /\
    (ready_for_purchase r = true ->
     (List.length (pending r) <= 1)%nat) /\
    (ready_for_purchase r = true <-> 90 <= completion_rate r)).
Proof.
  destruct (status_fields pa) as (rate & Hrate & H).
  eexists. split; [exact H|].
  cbv beta iota delta [completed pending ready_for_purchase
                       completion_rate].
  pose proof (three_classes pa checklist_items) as H18.
  rewrite checklist_length in H18.
  set (c := List.length (filter (complete pa) checklist_items)) in *.
  set (p := List.length (filter (pend pa) checklist_items)) in *.
  assert (Hready : leb 90 rate = true <->
                   (0 < c /\ 9 * p <= c)%nat).
  { rewrite leb_le, Hrate.
    destruct (Qeq_bool (inject_Z (Z.of_nat (c + p))) 0) eqn:Hz.
    - apply Qeq_bool_eq, inject_Z_zero in Hz. split; [lra | lia].
    - apply Qeq_bool_neq in Hz.
      assert (Hcp : (0 < c + p)%nat).
      { destruct (Nat.eq_dec (c + p) 0) as [E|E]; [|lia].
        rewrite E in Hz. exfalso. apply Hz. reflexivity. }
      assert (Hpos : 0 < inject_Z (Z.of_nat (c + p))).
      { change 0 with (inject_Z 0). rewrite <- Zlt_Qlt. lia. }
      set (N := inject_Z (Z.of_nat (c + p))) in *.
      set (C := inject_Z (Z.of_nat c)).
      assert (Hq : 90 <= C / N * 100 <-> 90 * N <= 100 * C).
      { split; intros Hle.
        - assert (E : 100 * C == C / N * 100 * N) by (field; lra).
          rewrite E. nra.
        - assert (E : C / N * 100 == 100 * C * / N) by (field; lra).
          rewrite E. apply Qle_shift_div_l in Hle; [|exact Hpos].
          unfold Qdiv in Hle. lra. }
      rewrite Hq. unfold N, C.
      change 90 with (inject_Z 90). change 100 with (inject_Z 100).
      rewrite <- !inject_Z_mult, <- Zle_Qle. lia. }
  split; [exact Hready|]. split; [intros Hr; apply Hready in Hr; lia|].
  rewrite Hready. split.
  - intros Hr. apply Hready, leb_le in Hr.
    assert (E : inject_Z 900 / 10 == 90) by reflexivity.
    rewrite <- E. apply round1_ge_grid. rewrite E. exact Hr.
  - intros Hr. pose proof (round1_near rate) as [_ Hhi].
    assert (Hlow : 90 - (1 # 20) <= rate) by lra. clear Hr Hhi.
    rewrite Hrate in Hlow.
    destruct (Qeq_bool (inject_Z (Z.of_nat (c + p))) 0) eqn:Hz;
      [lra|].
    apply Qeq_bool_neq in Hz.
    assert (Hcp : (0 < c + p)%nat).
    { destruct (Nat.eq_dec (c + p) 0) as [E|E]; [|lia].
      rewrite E in Hz. exfalso. apply Hz. reflexivity. }
    assert (Hpos : 0 < inject_Z (Z.of_nat (c + p))).
    { change 0 with (inject_Z 0). rewrite <- Zlt_Qlt. lia. }
    set (N := inject_Z (Z.of_nat (c + p))) in *.
    set (C := inject_Z (Z.of_nat c)) in *.
    assert (E : 100 * C == C / N * 100 * N) by (field; lra).
    assert (Hz2 : 1799 * N <= 2000 * C) by nra.
    unfold N, C in Hz2.
    change 1799 with (inject_Z 1799) in Hz2.
    change 2000 with (inject_Z 2000) in Hz2.
    rewrite <- !inject_Z_mult, <- Zle_Qle in Hz2. lia.
Qed.
End Tracker.

End DueDiligenceComplianceTrackerFacts.

(* ================================================================== *)
(** * The development potential                                         *)
(* ================================================================== *)

Module VicPlanIntegrationFacts.
Import Py VicPlanIntegration.
Open Scope Z_scope.
Open Scope string_scope.
Open Scope list_scope.


Section Potential.
Context {overlay R : Type}.
Variable code : overlay -> string.
Variable _score_to_rating : Z -> string.
Variable _get_development_recommendations : planning_info overlay -> R.

Local Abbreviation potential :=
  (_calculate_development_potential code _score_to_rating
     _get_development_recommendations).
Local Abbreviation blocking :=
  (fun o => contains blocking_overlays (code o)).
Local Abbreviation restrictive :=
  (fun o => contains restrictive_overlays (code o)).
Local Abbreviation base_of rules :=
  (match Dict.get
           match Dict.get "development_potential" rules with
           | Some p => p
           | None => "UNKNOWN"
           end base_scores with
   | Some s => s
   | None => 50
   end).



End Potential.


(** Six restrictive overlays bring the best zone down to 0 without
    blocking it; a zone without rules fails even with a Public
    Acquisition Overlay on the land. *)
Example restricted_to_zero :
  returns (_calculate_development_potential by_code plain_rating
             no_recommendations
             (PlanningInfo (Some growth_zone)
                           ["HO"; "NCO"; "SBO"; "LSIO"; "BMO"; "EAO"]))
    (fun r => score r = 0 /\ rating r = "RATED") /\
  _calculate_development_potential by_code plain_rating no_recommendations
    (PlanningInfo None ["PAO"]) = Raise KeyError.
Proof. split; [eexists; split; [reflexivity | split; reflexivity] | reflexivity]. Qed.

End VicPlanIntegrationFacts.

(* ================================================================== *)
(** * The asking price against the comparables                          *)
(* ================================================================== *)

Module ComparableSalesAnalyzerFacts.
Import Py Num NumFacts MoneyFacts ComparableSalesAnalyzer.
Open Scope Q_scope.
Open Scope string_scope.

Lemma premium_lt (a m k : Q) :
  0 < m ->
  (ltb ((a - m) / m * 100) k = true <-> (a - m) * 100 < k * m).
Proof.
  intros Hm. rewrite ltb_lt. set (p := (a - m) / m * 100).
  assert (E : p * m == (a - m) * 100) by (unfold p; field; lra).
  split; intros H; nra.
Qed.

Lemma premium_ge (a m k : Q) :
  0 < m ->
  (ltb ((a - m) / m * 100) k = false <-> k * m <= (a - m) * 100).
Proof.
  intros Hm. rewrite ltb_ge. set (p := (a - m) / m * 100).
  assert (E : p * m == (a - m) * 100) by (unfold p; field; lra).
  split; intros H; nra.
Qed.

(** A higher premium never gets a lower assessment. *)
Lemma assess_pricing_monotone (p p' : Q) :
  p <= p' ->
  (assessment_rank (_assess_pricing p)
   <= assessment_rank (_assess_pricing p'))%nat.
Proof.
  intros Hle. unfold _assess_pricing.
  destruct (ltb p (-10)) eqn:H1, (ltb p' (-10)) eqn:H1';
    [apply ltb_lt in H1 | apply ltb_lt in H1 | apply ltb_ge in H1
    | apply ltb_ge in H1];
    [apply ltb_lt in H1' | apply ltb_ge in H1' | apply ltb_lt in H1'
    | apply ltb_ge in H1']; try lra;
    try (cbn; lia);
    repeat match goal with
           | |- context [ltb ?x ?k] =>
               let H := fresh "H" in
               destruct (ltb x k) eqn:H;
               [apply ltb_lt in H | apply ltb_ge in H]
           end;
    try lra; cbn; lia.
Qed.

(** X28.  The comparison fails with a division by zero exactly when the
    median sale price is 0.  For a positive median the assessment never
    falls when the asking price rises, and it is settled by the ratio of
    the asking price to the median away from the thresholds: significantly
    below up to 89.9%, below from 90.1% to 94.9%, at market from 95.1% to
    104.9%, above from 105.1% to 109.9%, significantly above from
    110.1%.  (Within 0.1 of a percentage point of a threshold the outcome
    is that of one of the two neighbouring bands.) *)
Theorem pricing_assessment_bands (asking median : Q) :
  (subject_vs_comparables asking median = Raise ZeroDivisionError <->
   median == 0) /\
  (0 < median ->
   returns (subject_vs_comparables asking median) (fun r =>
     (asking <= 0.899 * median ->
      assessment r = "SIGNIFICANTLY BELOW MARKET - investigate why") /\
     (0.901 * median <= asking <= 0.949 * median ->
      assessment r = "BELOW MARKET - potential value") /\
     (0.951 * median <= asking <= 1.049 * median ->
      assessment r = "AT MARKET - fair pricing") /\
     (1.051 * median <= asking <= 1.099 * median ->
      assessment r = "ABOVE MARKET - negotiate") /\
     (1.101 * median <= asking ->
      assessment r
      = "SIGNIFICANTLY ABOVE MARKET - strong negotiation needed") /\
     (forall dearer, asking <= dearer ->
        returns (subject_vs_comparables dearer median) (fun r' =>
          (assessment_rank (assessment r)
           <= assessment_rank (assessment r'))%nat)))).
Proof.
  unfold subject_vs_comparables, truediv. split.
  - destruct (Qeq_bool median 0) eqn:Hz; cbn [bind].
    + apply Qeq_bool_eq in Hz. tauto.
    + apply Qeq_bool_neq in Hz. split; [discriminate | tauto].
  - intros Hm.
    assert (Hz : Qeq_bool median 0 = false).
    { apply not_true_iff_false. intros H. apply Qeq_bool_eq in H. lra. }
    rewrite Hz. cbn [bind]. eexists. split; [reflexivity|].
    cbv beta iota delta [assessment].
    repeat split;
      [ intros Hb; unfold _assess_pricing;
        repeat match goal with
               | |- context [ltb ((asking - median) / median * 100) ?k] =>
                   let H := fresh "H" in
                   destruct (ltb ((asking - median) / median * 100) k)
                     eqn:H;
                   [apply (premium_lt asking median k Hm) in H
                   |apply (premium_ge asking median k Hm) in H]
               end;
        try reflexivity; exfalso; lra ..
      | intros dearer Hd; eexists; split; [reflexivity|];
        cbv beta iota delta [assessment];
        apply assess_pricing_monotone;
        assert (Hi : 0 < / median) by (now apply Qinv_lt_0_compat);
        unfold Qdiv; nra ].
Qed.

Lemma pricing_assessment_bands_witness :
  returns (subject_vs_comparables 800000 800000) (fun r =>
    assessment r = "AT MARKET - fair pricing").
Proof.
  destruct (proj2 (pricing_assessment_bands 800000 800000) eq_refl)
    as (r & Hr & Hb).
  exists r. split; [exact Hr|].
  apply (proj1 (proj2 (proj2 Hb))). split; unfold Qle; cbn; lia.
Defined.

(** The assessment reads the premium before it is rounded: an asking
    price 4.96% over the median is reported as 5.0% over and assessed as
    at market. *)
Example rounded_premium_at_market :
  returns (subject_vs_comparables 104.96 100) (fun r =>
    premium_discount_percent r == 5 /\
    assessment r = "AT MARKET - fair pricing").
Proof. eexists. split; [reflexivity|]. split; reflexivity. Qed.

End ComparableSalesAnalyzerFacts.

